(** * Nexus: the hybrid storage layer of [src/services/storage.ts]

    A shallow embedding of the local simulated store ([mockStore], [mockDb]),
    of the hybrid facade ([db]) with its one-way [useMock] flag, of the
    subscriptions on the broadcast channel and on the remote document store,
    and of the registration path of [handleAuth] in the AuthScreen component. *)

From Stdlib Require Import ZArith Ascii String List Permutation Sorted.
From stdpp Require Import base tactics option list strings gmap pretty.

Open Scope Z_scope.

(** ** JavaScript primitives used by the source *)

Section ArrayPrimitives.
Context {A : Type}.

  (** [Array.prototype.findIndex]; [None] stands for the result [-1]. *)
Fixpoint findIndex (p : A → bool) (l : list A) : option nat :=
    match l with
    | [] => None
    | x :: l' => if p x then Some 0%nat else S <$> findIndex p l'
    end.

  (** [Array.prototype.find]; [None] stands for [undefined]. *)
Fixpoint find (p : A → bool) (l : list A) : option A :=
    match l with
    | [] => None
    | x :: l' => if p x then Some x else find p l'
    end.

  (** [Array.prototype.some]. *)
Definition some (p : A → bool) (l : list A) : bool := existsb p l.

  (** [Array.prototype.sort(cmp)] for a comparator given by its "not after"
      test [le a b] (that is, [cmp(a, b) <= 0]).  The sort of the language is
      stable, so inserting each element in front of the first element it is
      not after yields the array the engine yields. *)
Fixpoint sort_insert (le : A → A → bool) (x : A) (l : list A) : list A :=
    match l with
    | [] => [x]
    | y :: l' => if le x y then x :: y :: l' else y :: sort_insert le x l'
    end.

Fixpoint sort (le : A → A → bool) (l : list A) : list A :=
    match l with
    | [] => []
    | x :: l' => sort_insert le x (sort le l')
    end.
End ArrayPrimitives.

(** [String.prototype.toLowerCase] on ASCII text: the letters [A]..[Z] are
    mapped to [a]..[z], everything else is kept.  The function of the platform
    also maps the letters outside ASCII; the two agree on the strings whose
    characters are all ASCII ([ascii_only] below), and the properties that
    depend on the comparison of names are stated for those. *)
Definition lower_ascii (c : ascii) : ascii :=
  let n := N_of_ascii c in
  if ((65 <=? n) && (n <=? 90))%N then ascii_of_N (n + 32) else c.

Fixpoint toLowerCase (s : string) : string :=
  match s with
  | EmptyString => EmptyString
  | String c s' => String (lower_ascii c) (toLowerCase s')
  end.

(** [btoa]: base64 of a binary string.  The function of the platform throws
    on a character above U+00FF; on ASCII text, which the properties about
    passwords assume, it is this function. *)
Definition b64_alphabet : string :=
  "ABCDEFGHIJKLMNOPQRSTUVWXYZabcdefghijklmnopqrstuvwxyz0123456789+/"%string.

Definition b64_digit (n : N) : ascii :=
  default "="%char (String.get (N.to_nat n) b64_alphabet).

Fixpoint b64_groups (l : list N) : list ascii :=
  match l with
  | [] => []
  | [a] => [b64_digit (a / 4); b64_digit (a mod 4 * 16); "="%char; "="%char]
  | [a; b] =>
      [b64_digit (a / 4); b64_digit (a mod 4 * 16 + b / 16);
       b64_digit (b mod 16 * 4); "="%char]
  | a :: b :: c :: rest =>
      b64_digit (a / 4) :: b64_digit (a mod 4 * 16 + b / 16)
        :: b64_digit (b mod 16 * 4 + c / 64) :: b64_digit (c mod 64)
        :: b64_groups rest
  end%N.

Definition btoa (s : string) : string :=
  string_of_list_ascii (b64_groups (N_of_ascii <$> list_ascii_of_string s)).

(** [[a, b].sort().join('_')]: the default sort compares the two strings
    code unit by code unit and keeps their order when neither is smaller. *)
Definition sorted_join (a b : string) : string :=
  if String.ltb b a then b +:+ "_" +:+ a else a +:+ "_" +:+ b.

(** ** The entity model ([types.ts]) *)

Inductive Presence := online | offline.

Inductive RequestStatus := pending | accepted | rejected.

(** The argument type ['accepted' | 'rejected'] of [handleFriendRequest]. *)
Inductive Resolution := Accept | Reject.

Definition resolved (r : Resolution) : RequestStatus :=
  match r with Accept => accepted | Reject => rejected end.

(** [typingTo?: string | null]: [None] is the absent property, [Some None]
    is [null]. *)
Record User := {
  u_id : string;
  u_username : string;
  u_passwordHash : string;
  u_bio : string;
  u_avatar : option string;
  u_status : Presence;
  u_lastSeen : Z;
  u_typingTo : option (option string)
}.

(** [Partial<User>]: [None] is a property the object does not have. *)
Record PartialUser := {
  p_id : option string;
  p_username : option string;
  p_passwordHash : option string;
  p_bio : option string;
  p_avatar : option (option string);
  p_status : option Presence;
  p_lastSeen : option Z;
  p_typingTo : option (option string)
}.

Record FriendRequest := {
  r_id : string;
  r_fromId : string;
  r_toId : string;
  r_status : RequestStatus;
  r_timestamp : Z
}.

Record Friendship := {
  f_id : string;
  f_user1Id : string;
  f_user2Id : string;
  f_createdAt : Z
}.

Record Message := {
  m_id : string;
  m_senderId : string;
  m_receiverId : string;
  m_content : string;
  m_timestamp : Z;
  m_isRead : bool
}.

Record LocalVaultEntry := {
  v_username : string;
  v_passwordHash : string;
  v_lastLogin : Z
}.

Global Instance Presence_eq_dec : EqDecision Presence.
Proof. solve_decision. Defined.
Global Instance RequestStatus_eq_dec : EqDecision RequestStatus.
Proof. solve_decision. Defined.
Global Instance Resolution_eq_dec : EqDecision Resolution.
Proof. solve_decision. Defined.
Global Instance User_eq_dec : EqDecision User.
Proof. solve_decision. Defined.
Global Instance PartialUser_eq_dec : EqDecision PartialUser.
Proof. solve_decision. Defined.
Global Instance FriendRequest_eq_dec : EqDecision FriendRequest.
Proof. solve_decision. Defined.
Global Instance Friendship_eq_dec : EqDecision Friendship.
Proof. solve_decision. Defined.
Global Instance Message_eq_dec : EqDecision Message.
Proof. solve_decision. Defined.
Global Instance LocalVaultEntry_eq_dec : EqDecision LocalVaultEntry.
Proof. solve_decision. Defined.

(** The object spread [{ ...u, ...updates }]. *)
Definition spread (u : User) (updates : PartialUser) : User :=
  {| u_id := default (u_id u) (p_id updates);
     u_username := default (u_username u) (p_username updates);
     u_passwordHash := default (u_passwordHash u) (p_passwordHash updates);
     u_bio := default (u_bio u) (p_bio updates);
     u_avatar := default (u_avatar u) (p_avatar updates);
     u_status := default (u_status u) (p_status updates);
     u_lastSeen := default (u_lastSeen u) (p_lastSeen updates);
     u_typingTo :=
       match p_typingTo updates with
       | Some t => Some t
       | None => u_typingTo u
       end |}.

Definition no_updates : PartialUser :=
  {| p_id := None; p_username := None; p_passwordHash := None; p_bio := None;
     p_avatar := None; p_status := None; p_lastSeen := None;
     p_typingTo := None |}.

Definition set_status (r : FriendRequest) (s : RequestStatus) : FriendRequest :=
  {| r_id := r_id r; r_fromId := r_fromId r; r_toId := r_toId r;
     r_status := s; r_timestamp := r_timestamp r |}.

Definition set_isRead (m : Message) (b : bool) : Message :=
  {| m_id := m_id m; m_senderId := m_senderId m; m_receiverId := m_receiverId m;
     m_content := m_content m; m_timestamp := m_timestamp m; m_isRead := b |}.

(** ** The world the module runs in *)

(** The collections kept under the keys [mock_users], [mock_requests],
    [mock_friendships] and [mock_messages] of [localStorage]. *)
Inductive Key := users | requests | friendships | messages.

Global Instance Key_eq_dec : EqDecision Key.
Proof. solve_decision. Defined.

(** The record type of each collection. *)
Definition Doc (key : Key) : Type :=
  match key with
  | users => User
  | requests => FriendRequest
  | friendships => Friendship
  | messages => Message
  end.

Definition Collection (key : Key) : Type := list (Doc key).

(** [localStorage]: the value stored under a [mock_] key is the JSON text of
    an array of records, which [JSON.parse] reads back as the array that was
    written; an absent key reads as [[]].  The vault keys are kept too. *)
Record LocalStorage := {
  mock_users : list User;
  mock_requests : list FriendRequest;
  mock_friendships : list Friendship;
  mock_messages : list Message;
  nexus_vault : list LocalVaultEntry;
  nexus_last_session : option string
}.

Definition getItem (key : Key) (ls : LocalStorage) : Collection key :=
  match key with
  | users => mock_users ls
  | requests => mock_requests ls
  | friendships => mock_friendships ls
  | messages => mock_messages ls
  end.

Definition setItem (key : Key) : Collection key → LocalStorage → LocalStorage :=
  match key with
  | users => λ data ls,
      {| mock_users := data; mock_requests := mock_requests ls;
         mock_friendships := mock_friendships ls;
         mock_messages := mock_messages ls; nexus_vault := nexus_vault ls;
         nexus_last_session := nexus_last_session ls |}
  | requests => λ data ls,
      {| mock_users := mock_users ls; mock_requests := data;
         mock_friendships := mock_friendships ls;
         mock_messages := mock_messages ls; nexus_vault := nexus_vault ls;
         nexus_last_session := nexus_last_session ls |}
  | friendships => λ data ls,
      {| mock_users := mock_users ls; mock_requests := mock_requests ls;
         mock_friendships := data;
         mock_messages := mock_messages ls; nexus_vault := nexus_vault ls;
         nexus_last_session := nexus_last_session ls |}
  | messages => λ data ls,
      {| mock_users := mock_users ls; mock_requests := mock_requests ls;
         mock_friendships := mock_friendships ls;
         mock_messages := data; nexus_vault := nexus_vault ls;
         nexus_last_session := nexus_last_session ls |}
  end.

Definition setLastSession (id : option string) (ls : LocalStorage) : LocalStorage :=
  {| mock_users := mock_users ls; mock_requests := mock_requests ls;
     mock_friendships := mock_friendships ls; mock_messages := mock_messages ls;
     nexus_vault := nexus_vault ls; nexus_last_session := id |}.

Definition setVault (vault : list LocalVaultEntry) (ls : LocalStorage) : LocalStorage :=
  {| mock_users := mock_users ls; mock_requests := mock_requests ls;
     mock_friendships := mock_friendships ls; mock_messages := mock_messages ls;
     nexus_vault := vault; nexus_last_session := nexus_last_session ls |}.

(** The data of a message posted on [nexusChannel]. *)
Inductive ChannelMsg :=
| sync (key : Key)
| user_update (userId : string) (updates : PartialUser)
| new_msg (msg : Message).

(** What a subscription is about: the arguments of the four [subscribeTo]
    methods other than the callback. *)
Inductive Subscription :=
| ToUser (userId : string)
| ToFriends (userId : string)
| ToMessages (userId friendId : string)
| ToIncomingRequests (userId : string).

(** The argument a callback is invoked with. *)
Inductive Payload :=
| OneUser (u : User)
| Friends (l : list User)
| Conversation (l : list Message)
| Incoming (l : list FriendRequest).

Global Instance ChannelMsg_eq_dec : EqDecision ChannelMsg.
Proof. solve_decision. Defined.
Global Instance Subscription_eq_dec : EqDecision Subscription.
Proof. solve_decision. Defined.
Global Instance Payload_eq_dec : EqDecision Payload.
Proof. solve_decision. Defined.

(** A registered listener: the closure created by one [subscribeTo] call.
    Closures are compared by identity, which [l_id] stands for; the caller's
    callback is a function of the UI and is known by its identity too. *)
Record Listener := {
  l_id : nat;
  l_sub : Subscription;
  l_callback : nat
}.

Global Instance Listener_eq_dec : EqDecision Listener.
Proof. solve_decision. Defined.

(** The remote document store: each collection maps a document id to the
    document. *)
Record Firestore := {
  users_col : gmap string User;
  requests_col : gmap string FriendRequest;
  friendships_col : gmap string Friendship;
  messages_col : gmap string Message
}.

Record World := {
  useMock : bool;                    (* the module-level flag *)
  localStorage : LocalStorage;
  posted : list ChannelMsg;          (* nexusChannel.postMessage, oldest first *)
  handlers : list Listener;          (* 'message' listeners of nexusChannel *)
  firestore : Firestore;
  snapshots : list Listener;         (* live onSnapshot registrations *)
  faults : list bool;                (* outcome of the coming remote calls:
                                        [true] is a call that throws *)
  calls : list (nat * Payload);      (* callback invocations, oldest first *)
  clock : Z;                         (* Date.now() *)
  next_id : nat                        (* identity of the next closure *)
}.

Definition with_useMock (b : bool) (w : World) : World :=
  {| useMock := b; localStorage := localStorage w; posted := posted w;
     handlers := handlers w; firestore := firestore w; snapshots := snapshots w;
     faults := faults w; calls := calls w; clock := clock w; next_id := next_id w |}.

Definition with_localStorage (ls : LocalStorage) (w : World) : World :=
  {| useMock := useMock w; localStorage := ls; posted := posted w;
     handlers := handlers w; firestore := firestore w; snapshots := snapshots w;
     faults := faults w; calls := calls w; clock := clock w; next_id := next_id w |}.

Definition with_posted (p : list ChannelMsg) (w : World) : World :=
  {| useMock := useMock w; localStorage := localStorage w; posted := p;
     handlers := handlers w; firestore := firestore w; snapshots := snapshots w;
     faults := faults w; calls := calls w; clock := clock w; next_id := next_id w |}.

Definition with_handlers (h : list Listener) (w : World) : World :=
  {| useMock := useMock w; localStorage := localStorage w; posted := posted w;
     handlers := h; firestore := firestore w; snapshots := snapshots w;
     faults := faults w; calls := calls w; clock := clock w; next_id := next_id w |}.

Definition with_firestore (fs : Firestore) (w : World) : World :=
  {| useMock := useMock w; localStorage := localStorage w; posted := posted w;
     handlers := handlers w; firestore := fs; snapshots := snapshots w;
     faults := faults w; calls := calls w; clock := clock w; next_id := next_id w |}.

Definition with_snapshots (s : list Listener) (w : World) : World :=
  {| useMock := useMock w; localStorage := localStorage w; posted := posted w;
     handlers := handlers w; firestore := firestore w; snapshots := s;
     faults := faults w; calls := calls w; clock := clock w; next_id := next_id w |}.

Definition with_faults (f : list bool) (w : World) : World :=
  {| useMock := useMock w; localStorage := localStorage w; posted := posted w;
     handlers := handlers w; firestore := firestore w; snapshots := snapshots w;
     faults := f; calls := calls w; clock := clock w; next_id := next_id w |}.

Definition with_calls (c : list (nat * Payload)) (w : World) : World :=
  {| useMock := useMock w; localStorage := localStorage w; posted := posted w;
     handlers := handlers w; firestore := firestore w; snapshots := snapshots w;
     faults := faults w; calls := c; clock := clock w; next_id := next_id w |}.

Definition with_next_id (n : nat) (w : World) : World :=
  {| useMock := useMock w; localStorage := localStorage w; posted := posted w;
     handlers := handlers w; firestore := firestore w; snapshots := snapshots w;
     faults := faults w; calls := calls w; clock := clock w; next_id := n |}.

(** ** Computations: state passing, with exceptions

    A computation runs from a world to a result and the world it leaves;
    [None] is a thrown exception (a rejected promise), the world being the one
    at the throw. *)
Definition M (A : Type) : Type := World → option A * World.

Global Instance M_ret : MRet M := λ A a w, (Some a, w).

Global Instance M_bind : MBind M := λ A B f c w,
  match c w with
  | (Some a, w') => f a w'
  | (None, w') => (None, w')
  end.

Definition throw {A} : M A := λ w, (None, w).

(** [try { body } catch { handler }] *)
Definition try_catch {A} (body handler : M A) : M A := λ w,
  match body w with
  | (Some a, w') => (Some a, w')
  | (None, w') => handler w'
  end.

Definition read {A} (f : World → A) : M A := λ w, (Some (f w), w).
Definition update (f : World → World) : M unit := λ w, (Some (), f w).

(** [if (c) body], for a body run for its effects. *)
Definition when (c : bool) (body : M unit) : M unit :=
  if c then body else mret ().

(** [l.forEach(body)] *)
Fixpoint forEach {A} (body : A → M unit) (l : list A) : M unit :=
  match l with
  | [] => mret ()
  | x :: l' => body x ;; forEach body l'
  end.

Definition Date_now : M Z := read clock.

(** The invocation of the caller's callback. *)
Definition callback (cb : nat) (arg : Payload) : M unit :=
  update (λ w, with_calls (calls w ++ [(cb, arg)]) w).

(** ** The broadcast channel *)
Module nexusChannel.

Definition postMessage (data : ChannelMsg) : M unit :=
    update (λ w, with_posted (posted w ++ [data]) w).

  (** Registers a new closure and gives its identity back. *)
Definition addEventListener (sub : Subscription) (cb : nat) : M nat :=
    id ← read next_id;
    update (λ w, with_next_id (S id)
      (with_handlers (handlers w ++ [{| l_id := id; l_sub := sub; l_callback := cb |}]) w)) ;;
    mret id.

Definition removeEventListener (id : nat) : M unit :=
    update (λ w, with_handlers (List.filter (λ l, negb (bool_decide (l_id l = id))) (handlers w)) w).

End nexusChannel.

(** ** [mockStore] *)
Module mockStore.

Definition get (key : Key) : M (Collection key) :=
    read (λ w, getItem key (localStorage w)).

  (** [localStorage.setItem] is taken to accept the write; the storage that
      can refuse one is the one of [bounded.mockStore.set] below. *)
Definition set (key : Key) (data : Collection key) : M unit :=
    update (λ w, with_localStorage (setItem key data (localStorage w)) w) ;;
    nexusChannel.postMessage (sync key).

End mockStore.

(** The function a [subscribeTo] method returns: it removes a listener of
    the channel, or cancels a snapshot registration of the remote store. *)
Inductive Unsubscribe :=
| removeListener (id : nat)
| cancelSnapshot (id : nat).

Global Instance Unsubscribe_eq_dec : EqDecision Unsubscribe.
Proof. solve_decision. Defined.

(** ** [mockDb]: the simulated database *)
Module mockDb.

Definition getUser (id : string) : M (option User) :=
  all ← mockStore.get users;
  mret (find (λ u, bool_decide (u_id u = id)) all).

Definition getUserByUsername (username : string) : M (option User) :=
  all ← mockStore.get users;
  mret (find (λ u, bool_decide (toLowerCase (u_username u) = toLowerCase username)) all).

Definition saveUser (user : User) : M unit :=
  all ← mockStore.get users;
  match findIndex (λ u, bool_decide (u_id u = u_id user)) all with
  | Some idx => mockStore.set users (<[idx := user]> all)
  | None => mockStore.set users (all ++ [user])
  end.

Definition updateUserStatus (userId : string) (updates : PartialUser) : M unit :=
  all ← mockStore.get users;
  match findIndex (λ u, bool_decide (u_id u = userId)) all with
  | Some idx =>
      mockStore.set users (alter (λ u, spread u updates) idx all) ;;
      nexusChannel.postMessage (user_update userId updates)
  | None => mret ()
  end.

Definition sendMessage (msg : Message) : M unit :=
  msgs ← mockStore.get messages;
  mockStore.set messages (msgs ++ [msg]) ;;
  nexusChannel.postMessage (new_msg msg).

Definition markMessagesAsRead (userId senderId : string) : M unit :=
  msgs ← mockStore.get messages;
  let unread (m : Message) :=
    bool_decide (m_receiverId m = userId) && bool_decide (m_senderId m = senderId)
      && negb (m_isRead m) in
  let changed := some unread msgs in
  let msgs' := (λ m, if unread m then set_isRead m true else m) <$> msgs in
  when changed (mockStore.set messages msgs').

Definition sendFriendRequest (req : FriendRequest) : M unit :=
  reqs ← mockStore.get requests;
  mockStore.set requests (reqs ++ [req]).

Definition handleFriendRequest (requestId : string) (status : Resolution) : M unit :=
  reqs ← mockStore.get requests;
  match findIndex (λ r, bool_decide (r_id r = requestId)) reqs with
  | None => mret ()
  | Some idx =>
      match reqs !! idx with
      | None => mret ()
      | Some req =>
          mockStore.set requests (<[idx := set_status req (resolved status)]> reqs) ;;
          when (bool_decide (status = Accept))
            (fships ← mockStore.get friendships;
             now ← Date_now;
             mockStore.set friendships
               (fships ++ [{| f_id := sorted_join (r_fromId req) (r_toId req);
                              f_user1Id := r_fromId req;
                              f_user2Id := r_toId req;
                              f_createdAt := now |}]))
      end
  end.

(** The ids of the friends of [userId] in a list of friendships. *)
Definition friendIds (userId : string) (fships : list Friendship) : list string :=
  (λ f, if bool_decide (f_user1Id f = userId) then f_user2Id f else f_user1Id f)
    <$> List.filter
          (λ f, bool_decide (f_user1Id f = userId) || bool_decide (f_user2Id f = userId))
          fships.

(** The messages exchanged between [userId] and [friendId]. *)
Definition between (userId friendId : string) (m : Message) : bool :=
  (bool_decide (m_senderId m = userId) && bool_decide (m_receiverId m = friendId))
  || (bool_decide (m_senderId m = friendId) && bool_decide (m_receiverId m = userId)).

Definition by_timestamp (a b : Message) : bool := m_timestamp a <=? m_timestamp b.

(** What a subscription reads from the store and hands to the callback: the
    [refresh] closures, and [getUser(userId).then(u => u && callback(u))].
    The promise of [getUser] reads the store at once and defers the callback
    to the end of the running task; the callback is invoked here where the
    store is read, so for the subscription to a user the world a computation
    leaves is the one at the end of the task. *)
Definition refresh (sub : Subscription) (cb : nat) : M unit :=
  match sub with
  | ToUser userId =>
      u ← getUser userId;
      match u with
      | Some u => callback cb (OneUser u)
      | None => mret ()
      end
  | ToFriends userId =>
      fships ← mockStore.get friendships;
      let ids := friendIds userId fships in
      allUsers ← mockStore.get users;
      callback cb (Friends (List.filter (λ u, bool_decide (u_id u ∈ ids)) allUsers))
  | ToMessages userId friendId =>
      all ← mockStore.get messages;
      callback cb (Conversation (sort by_timestamp (List.filter (between userId friendId) all)))
  | ToIncomingRequests userId =>
      all ← mockStore.get requests;
      callback cb (Incoming
        (List.filter (λ r, bool_decide (r_toId r = userId) && bool_decide (r_status r = pending)) all))
  end.

(** The test each [handler] closure makes on the data of a channel message. *)
Definition concerns (sub : Subscription) (e : ChannelMsg) : bool :=
  match sub, e with
  | ToUser userId, user_update uid _ => bool_decide (uid = userId)
  | ToUser _, sync users => true
  | ToFriends _, sync friendships => true
  | ToFriends _, sync users => true
  | ToMessages _ _, new_msg _ => true
  | ToMessages _ _, sync messages => true
  | ToIncomingRequests _, sync requests => true
  | _, _ => false
  end.

Definition handler (l : Listener) (e : ChannelMsg) : M unit :=
  when (concerns (l_sub l) e) (refresh (l_sub l) (l_callback l)).

(** The four [subscribeTo] methods register the handler, read once, and
    return the closure that removes the handler. *)
Definition subscribe (sub : Subscription) (cb : nat) : M Unsubscribe :=
  id ← nexusChannel.addEventListener sub cb;
  refresh sub cb ;;
  mret (removeListener id).

Definition subscribeToUser (userId : string) (cb : nat) : M Unsubscribe :=
  subscribe (ToUser userId) cb.

Definition subscribeToFriends (userId : string) (cb : nat) : M Unsubscribe :=
  subscribe (ToFriends userId) cb.

Definition subscribeToMessages (userId friendId : string) (cb : nat) : M Unsubscribe :=
  subscribe (ToMessages userId friendId) cb.

Definition subscribeToIncomingRequests (userId : string) (cb : nat) : M Unsubscribe :=
  subscribe (ToIncomingRequests userId) cb.

End mockDb.

(** ** The remote document store, as the facade uses it

    Every call to the store consumes one entry of [faults] and throws when
    the entry says so (network, permission, malformed response); [updateDoc]
    also throws on a document that does not exist.  Query results come in the
    order of the document ids. *)
Module remote.

Definition col (key : Key) (fs : Firestore) : gmap string (Doc key) :=
  match key with
  | users => users_col fs
  | requests => requests_col fs
  | friendships => friendships_col fs
  | messages => messages_col fs
  end.

Definition set_col (key : Key) : gmap string (Doc key) → Firestore → Firestore :=
  match key with
  | users => λ c fs,
      {| users_col := c; requests_col := requests_col fs;
         friendships_col := friendships_col fs; messages_col := messages_col fs |}
  | requests => λ c fs,
      {| users_col := users_col fs; requests_col := c;
         friendships_col := friendships_col fs; messages_col := messages_col fs |}
  | friendships => λ c fs,
      {| users_col := users_col fs; requests_col := requests_col fs;
         friendships_col := c; messages_col := messages_col fs |}
  | messages => λ c fs,
      {| users_col := users_col fs; requests_col := requests_col fs;
         friendships_col := friendships_col fs; messages_col := c |}
  end.

(** The documents of a collection with their ids, by ascending id. *)
Definition docs {A} (c : gmap string A) : list (string * A) :=
  sort (λ a b, String.leb a.1 b.1) (map_to_list c).

(** One round trip to the store. *)
Definition call : M unit := λ w,
  match faults w with
  | [] => (Some (), w)
  | false :: rest => (Some (), with_faults rest w)
  | true :: rest => (None, with_faults rest w)
  end.

Definition getDoc (key : Key) (id : string) : M (option (Doc key)) :=
  call ;; read (λ w, col key (firestore w) !! id).

Definition setDoc (key : Key) (id : string) (data : Doc key) : M unit :=
  call ;;
  update (λ w, with_firestore (set_col key (<[id := data]> (col key (firestore w))) (firestore w)) w).

Definition updateDoc (key : Key) (id : string) (patch : Doc key → Doc key) : M unit :=
  call ;;
  c ← read (λ w, col key (firestore w));
  match c !! id with
  | None => throw
  | Some d => update (λ w, with_firestore (set_col key (<[id := patch d]> c) (firestore w)) w)
  end.

(** [getDocs(query(collection(firestore, key), where ...))] *)
Definition getDocs (key : Key) (where_ : Doc key → bool) : M (list (string * Doc key)) :=
  call ;;
  c ← read (λ w, col key (firestore w));
  mret (List.filter (λ d, where_ d.2) (docs c)).

(** [writeBatch], [batch.update] on each reference, [batch.commit]: one
    round trip that patches all the documents or none. *)
Definition commit (key : Key) (ids : list string) (patch : Doc key → Doc key) : M unit :=
  call ;;
  c ← read (λ w, col key (firestore w));
  if forallb (λ id, bool_decide (is_Some (c !! id))) ids
  then update (λ w, with_firestore
                      (set_col key (foldl (λ c id, alter patch id c) c ids) (firestore w)) w)
  else throw.

(** [onSnapshot(target, onNext, onError)] registers the listener and returns
    the function that cancels it. *)
Definition onSnapshot (sub : Subscription) (cb : nat) : M Unsubscribe :=
  call ;;
  id ← read next_id;
  update (λ w, with_next_id (S id)
    (with_snapshots (snapshots w ++ [{| l_id := id; l_sub := sub; l_callback := cb |}]) w)) ;;
  mret (cancelSnapshot id).

Definition cancel (id : nat) : M unit :=
  update (λ w, with_snapshots (List.filter (λ l, negb (bool_decide (l_id l = id))) (snapshots w)) w).

End remote.

(** ** The [try] blocks of [db]: each operation on the remote store *)
Module cloud.

Definition getUser (id : string) : M (option User) :=
  remote.getDoc users id.

Definition getUserByUsername (username : string) : M (option User) :=
  snap ← remote.getDocs users (λ u, bool_decide (u_username u = username));
  mret (snd <$> head snap).

Definition saveUser (user : User) : M unit :=
  remote.setDoc users (u_id user) user.

Definition updateUserStatus (userId : string) (updates : PartialUser) : M unit :=
  remote.updateDoc users userId (λ u, spread u updates).

Definition sendMessage (msg : Message) : M unit :=
  remote.setDoc messages (m_id msg) msg.

Definition markMessagesAsRead (userId senderId : string) : M unit :=
  snap ← remote.getDocs messages
    (λ m, bool_decide (m_receiverId m = userId) && bool_decide (m_senderId m = senderId)
          && bool_decide (m_isRead m = false));
  remote.commit messages (fst <$> snap) (λ m, set_isRead m true).

Definition sendFriendRequest (req : FriendRequest) : M unit :=
  remote.setDoc requests (r_id req) req.

Definition handleFriendRequest (requestId : string) (status : Resolution) : M unit :=
  snap ← remote.getDoc requests requestId;
  match snap with
  | None => mret ()
  | Some req =>
      remote.updateDoc requests requestId (λ r, set_status r (resolved status)) ;;
      when (bool_decide (status = Accept))
        (let fid := sorted_join (r_fromId req) (r_toId req) in
         now ← Date_now;
         remote.setDoc friendships fid
           {| f_id := fid; f_user1Id := r_fromId req; f_user2Id := r_toId req;
              f_createdAt := now |})
  end.

End cloud.

(** ** [db]: the exported hybrid database *)
Module db.

Definition isSimulated : M bool := read useMock.

(** The statement [useMock = true] of every [catch] block and error handler. *)
Definition demote : M unit := update (with_useMock true).

(** [if (useMock) return local; otherwise] *)
Definition if_useMock {A} (local otherwise : M A) : M A := λ w,
  if useMock w then local w else otherwise w.

Definition getUser (id : string) : M (option User) :=
  if_useMock (mockDb.getUser id)
    (try_catch (cloud.getUser id)
               (demote ;; mockDb.getUser id)).

Definition getUserByUsername (username : string) : M (option User) :=
  if_useMock (mockDb.getUserByUsername username)
    (try_catch (cloud.getUserByUsername username)
               (demote ;; mockDb.getUserByUsername username)).

Definition saveUser (user : User) : M unit :=
  if_useMock (mockDb.saveUser user)
    (try_catch (cloud.saveUser user)
               (demote ;; mockDb.saveUser user)).

Definition updateUserStatus (userId : string) (updates : PartialUser) : M unit :=
  if_useMock (mockDb.updateUserStatus userId updates)
    (try_catch (cloud.updateUserStatus userId updates)
               (demote ;; mockDb.updateUserStatus userId updates)).

Definition sendMessage (msg : Message) : M unit :=
  if_useMock (mockDb.sendMessage msg)
    (try_catch (cloud.sendMessage msg)
               (demote ;; mockDb.sendMessage msg)).

Definition markMessagesAsRead (userId senderId : string) : M unit :=
  if_useMock (mockDb.markMessagesAsRead userId senderId)
    (try_catch (cloud.markMessagesAsRead userId senderId)
               (demote ;; mockDb.markMessagesAsRead userId senderId)).

Definition sendFriendRequest (req : FriendRequest) : M unit :=
  if_useMock (mockDb.sendFriendRequest req)
    (try_catch (cloud.sendFriendRequest req)
               (demote ;; mockDb.sendFriendRequest req)).

Definition handleFriendRequest (requestId : string) (status : Resolution) : M unit :=
  if_useMock (mockDb.handleFriendRequest requestId status)
    (try_catch (cloud.handleFriendRequest requestId status)
               (demote ;; mockDb.handleFriendRequest requestId status)).

(** The four [subscribeTo] methods: the local subscription when the flag is
    set; otherwise a snapshot listener, and the local subscription (the flag
    untouched) when registering the listener throws. *)
Definition subscribe (sub : Subscription) (cb : nat) : M Unsubscribe :=
  if_useMock (mockDb.subscribe sub cb)
    (try_catch (remote.onSnapshot sub cb) (mockDb.subscribe sub cb)).

Definition subscribeToUser (userId : string) (cb : nat) : M Unsubscribe :=
  subscribe (ToUser userId) cb.

Definition subscribeToFriends (userId : string) (cb : nat) : M Unsubscribe :=
  subscribe (ToFriends userId) cb.

Definition subscribeToMessages (userId friendId : string) (cb : nat) : M Unsubscribe :=
  subscribe (ToMessages userId friendId) cb.

Definition subscribeToIncomingRequests (userId : string) (cb : nat) : M Unsubscribe :=
  subscribe (ToIncomingRequests userId) cb.

(** The [onNext] function each method passes to [onSnapshot], run on the
    content of the store at the time of the snapshot. *)
Definition onNext (sub : Subscription) (cb : nat) : M unit :=
  match sub with
  | ToUser userId =>
      d ← read (λ w, users_col (firestore w) !! userId);
      match d with
      | Some u => callback cb (OneUser u)
      | None => mret ()
      end
  | ToFriends userId =>
      s1 ← remote.getDocs friendships (λ f, bool_decide (f_user1Id f = userId));
      s2 ← remote.getDocs friendships (λ f, bool_decide (f_user2Id f = userId));
      let ids := ((λ d, f_user2Id d.2) <$> s1) ++ ((λ d, f_user1Id d.2) <$> s2) in
      if bool_decide (ids = []) then callback cb (Friends []) else
      us ← remote.getDocs users (λ u, bool_decide (u_id u ∈ ids));
      callback cb (Friends (snd <$> us))
  | ToMessages userId friendId =>
      ordered ← read (λ w, sort mockDb.by_timestamp (snd <$> remote.docs (messages_col (firestore w))));
      callback cb (Conversation (List.filter (mockDb.between userId friendId) ordered))
  | ToIncomingRequests userId =>
      found ← read (λ w, List.filter
        (λ r, bool_decide (r_toId r = userId) && bool_decide (r_status r = pending))
        (snd <$> remote.docs (requests_col (firestore w))));
      callback cb (Incoming found)
  end.

(** The [onError] function each method passes to [onSnapshot]: the flag is
    set and the local subscription is made; what that returns is dropped. *)
Definition onError (sub : Subscription) (cb : nat) : M unit :=
  demote ;;
  mockDb.subscribe sub cb ;;
  mret ().

End db.

(** Calling the function a [subscribeTo] method returned. *)
Definition unsubscribe (h : Unsubscribe) : M unit :=
  match h with
  | removeListener id => nexusChannel.removeEventListener id
  | cancelSnapshot id => remote.cancel id
  end.

(** ** Module initialisation: the first value of [useMock] *)

(** [String.prototype.includes] *)
Fixpoint includes (needle s : string) : bool :=
  String.prefix needle s ||
  match s with
  | EmptyString => false
  | String _ s' => includes needle s'
  end.

(** [apiKey] is the environment variable ([None] when it is not set);
    [initializeApp_throws] tells whether the [try] block of the
    initialisation throws. *)
Definition initial_useMock (apiKey : option string) (initializeApp_throws : bool) : bool :=
  let useMock :=
    match apiKey with
    | None => true
    | Some k => bool_decide (k = ""%string) || includes "Placeholder" k
    end in
  if useMock then true else if initializeApp_throws then true else useMock.

(** ** The operations of the facade, as data *)

Inductive Operation :=
| GetUser (id : string)
| GetUserByUsername (username : string)
| SaveUser (user : User)
| UpdateUserStatus (userId : string) (updates : PartialUser)
| SendMessage (msg : Message)
| MarkMessagesAsRead (userId senderId : string)
| SendFriendRequest (req : FriendRequest)
| HandleFriendRequest (requestId : string) (status : Resolution).

(** What the promise of an operation resolves to. *)
Inductive Value :=
| Found (u : option User)
| Done.

Global Instance Value_eq_dec : EqDecision Value.
Proof. solve_decision. Defined.

Definition found (c : M (option User)) : M Value := u ← c; mret (Found u).
Definition done_ (c : M unit) : M Value := c ;; mret Done.

Definition mockDb_run (o : Operation) : M Value :=
  match o with
  | GetUser id => found (mockDb.getUser id)
  | GetUserByUsername username => found (mockDb.getUserByUsername username)
  | SaveUser user => done_ (mockDb.saveUser user)
  | UpdateUserStatus userId updates => done_ (mockDb.updateUserStatus userId updates)
  | SendMessage msg => done_ (mockDb.sendMessage msg)
  | MarkMessagesAsRead userId senderId => done_ (mockDb.markMessagesAsRead userId senderId)
  | SendFriendRequest req => done_ (mockDb.sendFriendRequest req)
  | HandleFriendRequest requestId status => done_ (mockDb.handleFriendRequest requestId status)
  end.

Definition cloud_run (o : Operation) : M Value :=
  match o with
  | GetUser id => found (cloud.getUser id)
  | GetUserByUsername username => found (cloud.getUserByUsername username)
  | SaveUser user => done_ (cloud.saveUser user)
  | UpdateUserStatus userId updates => done_ (cloud.updateUserStatus userId updates)
  | SendMessage msg => done_ (cloud.sendMessage msg)
  | MarkMessagesAsRead userId senderId => done_ (cloud.markMessagesAsRead userId senderId)
  | SendFriendRequest req => done_ (cloud.sendFriendRequest req)
  | HandleFriendRequest requestId status => done_ (cloud.handleFriendRequest requestId status)
  end.

Definition db_run (o : Operation) : M Value :=
  match o with
  | GetUser id => found (db.getUser id)
  | GetUserByUsername username => found (db.getUserByUsername username)
  | SaveUser user => done_ (db.saveUser user)
  | UpdateUserStatus userId updates => done_ (db.updateUserStatus userId updates)
  | SendMessage msg => done_ (db.sendMessage msg)
  | MarkMessagesAsRead userId senderId => done_ (db.markMessagesAsRead userId senderId)
  | SendFriendRequest req => done_ (db.sendFriendRequest req)
  | HandleFriendRequest requestId status => done_ (db.handleFriendRequest requestId status)
  end.

(** ** A [localStorage] that can refuse a write

    [localStorage.setItem] throws when the browser does not take the new
    content (the quota of the origin is exceeded, storage is disabled);
    [accepts] tells which contents it takes.  [mockStore.set] then throws
    before it posts its notice, no operation of [mockDb] catches that, and the
    [catch] blocks of [db] call the operation of [mockDb] outside of any
    [try].  The operations that write are given here over such a storage;
    [getUser] and [getUserByUsername] only read and are the ones above.  In a
    browser that takes every content these operations are the ones above
    (lemmas [bounded_mockDb_run_unbounded] and [bounded_db_run_unbounded]). *)
Module bounded.

Module mockStore.

Definition set (accepts : LocalStorage → bool) (key : Key) (data : Collection key) : M unit :=
  ls ← read localStorage;
  if accepts (setItem key data ls)
  then update (λ w, with_localStorage (setItem key data (localStorage w)) w) ;;
       nexusChannel.postMessage (sync key)
  else throw.

End mockStore.

Module mockDb.

Definition saveUser (accepts : LocalStorage → bool) (user : User) : M unit :=
  all ← mockStore.get users;
  match findIndex (λ u, bool_decide (u_id u = u_id user)) all with
  | Some idx => mockStore.set accepts users (<[idx := user]> all)
  | None => mockStore.set accepts users (all ++ [user])
  end.

Definition updateUserStatus (accepts : LocalStorage → bool)
    (userId : string) (updates : PartialUser) : M unit :=
  all ← mockStore.get users;
  match findIndex (λ u, bool_decide (u_id u = userId)) all with
  | Some idx =>
      mockStore.set accepts users (alter (λ u, spread u updates) idx all) ;;
      nexusChannel.postMessage (user_update userId updates)
  | None => mret ()
  end.

Definition sendMessage (accepts : LocalStorage → bool) (msg : Message) : M unit :=
  msgs ← mockStore.get messages;
  mockStore.set accepts messages (msgs ++ [msg]) ;;
  nexusChannel.postMessage (new_msg msg).

Definition markMessagesAsRead (accepts : LocalStorage → bool)
    (userId senderId : string) : M unit :=
  msgs ← mockStore.get messages;
  let unread (m : Message) :=
    bool_decide (m_receiverId m = userId) && bool_decide (m_senderId m = senderId)
      && negb (m_isRead m) in
  let changed := some unread msgs in
  let msgs' := (λ m, if unread m then set_isRead m true else m) <$> msgs in
  when changed (mockStore.set accepts messages msgs').

Definition sendFriendRequest (accepts : LocalStorage → bool) (req : FriendRequest) : M unit :=
  reqs ← mockStore.get requests;
  mockStore.set accepts requests (reqs ++ [req]).

Definition handleFriendRequest (accepts : LocalStorage → bool)
    (requestId : string) (status : Resolution) : M unit :=
  reqs ← mockStore.get requests;
  match findIndex (λ r, bool_decide (r_id r = requestId)) reqs with
  | None => mret ()
  | Some idx =>
      match reqs !! idx with
      | None => mret ()
      | Some req =>
          mockStore.set accepts requests (<[idx := set_status req (resolved status)]> reqs) ;;
          when (bool_decide (status = Accept))
            (fships ← mockStore.get friendships;
             now ← Date_now;
             mockStore.set accepts friendships
               (fships ++ [{| f_id := sorted_join (r_fromId req) (r_toId req);
                              f_user1Id := r_fromId req;
                              f_user2Id := r_toId req;
                              f_createdAt := now |}]))
      end
  end.

End mockDb.

Module db.

Definition saveUser (accepts : LocalStorage → bool) (user : User) : M unit :=
  db.if_useMock (mockDb.saveUser accepts user)
    (try_catch (cloud.saveUser user)
               (db.demote ;; mockDb.saveUser accepts user)).

Definition updateUserStatus (accepts : LocalStorage → bool)
    (userId : string) (updates : PartialUser) : M unit :=
  db.if_useMock (mockDb.updateUserStatus accepts userId updates)
    (try_catch (cloud.updateUserStatus userId updates)
               (db.demote ;; mockDb.updateUserStatus accepts userId updates)).

Definition sendMessage (accepts : LocalStorage → bool) (msg : Message) : M unit :=
  db.if_useMock (mockDb.sendMessage accepts msg)
    (try_catch (cloud.sendMessage msg)
               (db.demote ;; mockDb.sendMessage accepts msg)).

Definition markMessagesAsRead (accepts : LocalStorage → bool)
    (userId senderId : string) : M unit :=
  db.if_useMock (mockDb.markMessagesAsRead accepts userId senderId)
    (try_catch (cloud.markMessagesAsRead userId senderId)
               (db.demote ;; mockDb.markMessagesAsRead accepts userId senderId)).

Definition sendFriendRequest (accepts : LocalStorage → bool) (req : FriendRequest) : M unit :=
  db.if_useMock (mockDb.sendFriendRequest accepts req)
    (try_catch (cloud.sendFriendRequest req)
               (db.demote ;; mockDb.sendFriendRequest accepts req)).

Definition handleFriendRequest (accepts : LocalStorage → bool)
    (requestId : string) (status : Resolution) : M unit :=
  db.if_useMock (mockDb.handleFriendRequest accepts requestId status)
    (try_catch (cloud.handleFriendRequest requestId status)
               (db.demote ;; mockDb.handleFriendRequest accepts requestId status)).

End db.

Definition mockDb_run (accepts : LocalStorage → bool) (o : Operation) : M Value :=
  match o with
  | GetUser id => found (mockDb.getUser id)
  | GetUserByUsername username => found (mockDb.getUserByUsername username)
  | SaveUser user => done_ (mockDb.saveUser accepts user)
  | UpdateUserStatus userId updates => done_ (mockDb.updateUserStatus accepts userId updates)
  | SendMessage msg => done_ (mockDb.sendMessage accepts msg)
  | MarkMessagesAsRead userId senderId =>
      done_ (mockDb.markMessagesAsRead accepts userId senderId)
  | SendFriendRequest req => done_ (mockDb.sendFriendRequest accepts req)
  | HandleFriendRequest requestId status =>
      done_ (mockDb.handleFriendRequest accepts requestId status)
  end.

Definition db_run (accepts : LocalStorage → bool) (o : Operation) : M Value :=
  match o with
  | GetUser id => found (db.getUser id)
  | GetUserByUsername username => found (db.getUserByUsername username)
  | SaveUser user => done_ (db.saveUser accepts user)
  | UpdateUserStatus userId updates => done_ (db.updateUserStatus accepts userId updates)
  | SendMessage msg => done_ (db.sendMessage accepts msg)
  | MarkMessagesAsRead userId senderId =>
      done_ (db.markMessagesAsRead accepts userId senderId)
  | SendFriendRequest req => done_ (db.sendFriendRequest accepts req)
  | HandleFriendRequest requestId status =>
      done_ (db.handleFriendRequest accepts requestId status)
  end.

End bounded.

(** ** What happens around the facade *)

(** A message event on [nexusChannel]: the listeners registered at that
    time run in the order of registration (no handler of this module adds or
    removes a listener).  Which of the messages in [posted] come back as
    events, and what the other contexts post, is up to the environment: an
    event can carry any message at any time. *)
Definition dispatch (e : ChannelMsg) : M unit :=
  ls ← read handlers;
  forEach (λ l, mockDb.handler l e) ls.

(** The remote store pushes a snapshot to the registration [id]; an
    exception in the (asynchronous) [onNext] is an unhandled rejection. *)
Definition push_snapshot (id : nat) : M unit :=
  ls ← read snapshots;
  match find (λ l, bool_decide (l_id l = id)) ls with
  | None => mret ()
  | Some l => try_catch (db.onNext (l_sub l) (l_callback l)) (mret ())
  end.

(** The transport of the registration [id] fails: the store ends the
    registration and runs its [onError]. *)
Definition fail_snapshot (id : nat) : M unit :=
  ls ← read snapshots;
  match find (λ l, bool_decide (l_id l = id)) ls with
  | None => mret ()
  | Some l => remote.cancel id ;; db.onError (l_sub l) (l_callback l)
  end.

(** Everything that can happen in the life of the process: calls of the UI
    into the facade, and events of the channel, of the remote store and of the
    environment. *)
Inductive Action :=
| Call (o : Operation)
| Subscribe (sub : Subscription) (cb : nat)
| Unsub (h : Unsubscribe)
| ChannelEvent (e : ChannelMsg)
| Snapshot (id : nat)
| TransportError (id : nat)
| RemoteWrite (fs : Firestore)
| OtherTab (ls : LocalStorage)
| Plan (outcomes : list bool)
| Tick (now : Z).

Definition perform (a : Action) (w : World) : World :=
  match a with
  | Call o => (db_run o w).2
  | Subscribe sub cb => (db.subscribe sub cb w).2
  | Unsub h => (unsubscribe h w).2
  | ChannelEvent e => (dispatch e w).2
  | Snapshot id => (push_snapshot id w).2
  | TransportError id => (fail_snapshot id w).2
  | RemoteWrite fs => with_firestore fs w
  | OtherTab ls => with_localStorage ls w
  | Plan outcomes => with_faults outcomes w
  | Tick now =>
      {| useMock := useMock w; localStorage := localStorage w; posted := posted w;
         handlers := handlers w; firestore := firestore w; snapshots := snapshots w;
         faults := faults w; calls := calls w; clock := now; next_id := next_id w |}
  end.

Definition run (actions : list Action) (w : World) : World :=
  foldl (λ w a, perform a w) w actions.

(** ** [authService] and [vaultDb] *)
Module authService.

Definition encryptPassword (password : string) : string :=
  btoa ("NexusSalt_" +:+ password).

Definition comparePassword (password hash : string) : bool :=
  bool_decide (btoa ("NexusSalt_" +:+ password) = hash).

End authService.

Module vaultDb.

Definition getVault : M (list LocalVaultEntry) :=
  read (λ w, nexus_vault (localStorage w)).

Definition saveVault (vault : list LocalVaultEntry) : M unit :=
  update (λ w, with_localStorage (setVault vault (localStorage w)) w).

Definition getLastSessionId : M (option string) :=
  read (λ w, nexus_last_session (localStorage w)).

(** [if (userId) setItem(...) else removeItem(...)]: [null] and the empty
    string both remove the key. *)
Definition setLastSessionId (userId : option string) : M unit :=
  let stored :=
    match userId with
    | Some id => if bool_decide (id = ""%string) then None else Some id
    | None => None
    end in
  update (λ w, with_localStorage (setLastSession stored (localStorage w)) w).

End vaultDb.

(** ** [handleAuth] of the AuthScreen component *)
Module AuthScreen.

(** The state of the form when it is submitted. *)
Record Form := {
  isRegistering : bool;
  username : string;
  password : string;
  rememberMe : bool
}.

(** What the user sees: [setError(message)], or [onLogin(user)]. *)
Inductive Outcome :=
| Error (message : string)
| LoggedIn (user : User).

Global Instance Outcome_eq_dec : EqDecision Outcome.
Proof. solve_decision. Defined.

Definition saveToVault (user hash : string) : M unit :=
  currentVault ← vaultDb.getVault;
  now ← Date_now;
  let entry := {| v_username := user; v_passwordHash := hash; v_lastLogin := now |} in
  match findIndex (λ v, bool_decide (v_username v = user)) currentVault with
  | Some existingIdx => vaultDb.saveVault (<[existingIdx := entry]> currentVault)
  | None => vaultDb.saveVault (currentVault ++ [entry])
  end.

Definition with_presence (user : User) (now : Z) : User :=
  {| u_id := u_id user; u_username := u_username user;
     u_passwordHash := u_passwordHash user; u_bio := u_bio user;
     u_avatar := u_avatar user; u_status := online; u_lastSeen := now;
     u_typingTo := u_typingTo user |}.

(** [randomUUID] is the value [crypto.randomUUID()] returns. *)
Definition register (f : Form) (randomUUID : string) : M Outcome :=
  existing ← db.getUserByUsername (username f);
  match existing with
  | Some _ => mret (Error "Username already taken.")
  | None =>
      now ← Date_now;
      let newUser :=
        {| u_id := randomUUID;
           u_username := username f;
           u_passwordHash := authService.encryptPassword (password f);
           u_bio := "Nexus user active.";
           u_avatar := Some ("https://picsum.photos/seed/" +:+ username f +:+ "/200");
           u_status := online;
           u_lastSeen := now;
           u_typingTo := None |} in
      db.saveUser newUser ;;
      when (rememberMe f) (saveToVault (username f) (u_passwordHash newUser)) ;;
      mret (LoggedIn newUser)
  end.

Definition login (f : Form) : M Outcome :=
  user ← db.getUserByUsername (username f);
  match user with
  | Some user =>
      if authService.comparePassword (password f) (u_passwordHash user) then
        now ← Date_now;
        db.updateUserStatus (u_id user)
          {| p_id := None; p_username := None; p_passwordHash := None; p_bio := None;
             p_avatar := None; p_status := Some online; p_lastSeen := Some now;
             p_typingTo := None |} ;;
        when (rememberMe f) (saveToVault (username f) (u_passwordHash user)) ;;
        mret (LoggedIn (with_presence user now))
      else mret (Error "Identity verification failed.")
  | None => mret (Error "Identity verification failed.")
  end.

Definition handleAuth (f : Form) (randomUUID : string) : M Outcome :=
  if bool_decide (username f = ""%string) || bool_decide (password f = ""%string)
  then mret (Error "Please fill in all fields.")
  else
    try_catch
      (if isRegistering f then register f randomUUID else login f)
      (mret (Error "Connection to Nexus failed.")).

(** A click on an entry of the vault. *)
Definition loginFromVault (entry : LocalVaultEntry) : M Outcome :=
  user ← db.getUserByUsername (v_username entry);
  match user with
  | Some user =>
      if bool_decide (u_passwordHash user = v_passwordHash entry) then
        now ← Date_now;
        db.updateUserStatus (u_id user)
          {| p_id := None; p_username := None; p_passwordHash := None; p_bio := None;
             p_avatar := None; p_status := Some online; p_lastSeen := Some now;
             p_typingTo := None |} ;;
        mret (LoggedIn (with_presence user now))
      else mret (Error "Vault token expired.")
  | None => mret (Error "Vault token expired.")
  end.

End AuthScreen.

(** ** The [App] component: the session *)
Module App.

(** [initSession]: the result is the user [setCurrentUser] is called with,
    [None] when it is not called. *)
Definition initSession : M (option User) :=
  try_catch
    (lastSessionId ← vaultDb.getLastSessionId;
     match lastSessionId with
     | Some id =>
         if bool_decide (id = ""%string) then mret None else
         user ← db.getUser id;
         match user with
         | Some user =>
             now ← Date_now;
             db.updateUserStatus (u_id user)
               {| p_id := None; p_username := None; p_passwordHash := None; p_bio := None;
                  p_avatar := None; p_status := Some online; p_lastSeen := Some now;
                  p_typingTo := None |} ;;
             mret (Some (AuthScreen.with_presence user now))
         | None => mret None
         end
     | None => mret None
     end)
    (mret None).

(** [handleLogin] and [handleLogout] return the new [currentUser]. *)
Definition handleLogin (user : User) : M (option User) :=
  vaultDb.setLastSessionId (Some (u_id user)) ;;
  mret (Some user).

Definition handleLogout (currentUser : option User) : M (option User) :=
  match currentUser with
  | Some u =>
      now ← Date_now;
      db.updateUserStatus (u_id u)
        {| p_id := None; p_username := None; p_passwordHash := None; p_bio := None;
           p_avatar := None; p_status := Some offline; p_lastSeen := Some now;
           p_typingTo := Some None |}
  | None => mret ()
  end ;;
  vaultDb.setLastSessionId None ;;
  mret None.

End App.

(** What [setStatus] shows in the FriendRequests and ProfilePage components. *)
Inductive Notice :=
| success (message : string)
| error (message : string).

Global Instance Notice_eq_dec : EqDecision Notice.
Proof. solve_decision. Defined.

(** ** The [FriendRequests] component *)
Module FriendRequests.

(** [requestId] is the text of the search field, [randomUUID] the value
    [crypto.randomUUID()] returns. *)
Definition handleSendRequest (currentUser : User) (requestId randomUUID : string) : M Notice :=
  targetUser ← db.getUserByUsername requestId;
  match targetUser with
  | None => mret (error "User ID not found in global database.")
  | Some targetUser =>
      if bool_decide (u_id targetUser = u_id currentUser)
      then mret (error "Cannot add self.")
      else
        now ← Date_now;
        db.sendFriendRequest
          {| r_id := randomUUID; r_fromId := u_id currentUser; r_toId := u_id targetUser;
             r_status := pending; r_timestamp := now |} ;;
        mret (success ("Request sent to " +:+ u_username targetUser +:+ "."))
  end.

Definition handleAction (requestId : string) (action : Resolution) : M unit :=
  db.handleFriendRequest requestId action.

End FriendRequests.

(** ** The [ProfilePage] component *)
Module ProfilePage.

(** The fields of the form when it is submitted. *)
Record Form := {
  username : string;
  bio : string;
  password : string;
  avatar : option string
}.

(** The result is the notice and, on success, the user [onUpdateUser] is
    called with. *)
Definition handleUpdate (currentUser : User) (f : Form) : M (Notice * option User) :=
  existing ←
    (if bool_decide (username f ≠ u_username currentUser)
     then db.getUserByUsername (username f)
     else mret None);
  match existing with
  | Some _ => mret (error "Username already claimed.", None)
  | None =>
      let updates :=
        {| p_id := None;
           p_username := Some (username f);
           p_passwordHash :=
             Some (if bool_decide (password f = ""%string)
                   then u_passwordHash currentUser
                   else authService.encryptPassword (password f));
           p_bio := Some (bio f);
           p_avatar := Some (avatar f);
           p_status := None; p_lastSeen := None; p_typingTo := None |} in
      db.updateUserStatus (u_id currentUser) updates ;;
      vault ← vaultDb.getVault;
      match findIndex (λ v, bool_decide (v_username v = u_username currentUser)) vault with
      | Some vaultIdx =>
          now ← Date_now;
          vaultDb.saveVault
            (<[vaultIdx := {| v_username := username f;
                              v_passwordHash := default ""%string (p_passwordHash updates);
                              v_lastLogin := now |}]> vault)
      | None => mret ()
      end ;;
      mret (success "Nexus identity updated successfully.", Some (spread currentUser updates))
  end.

End ProfilePage.

(** ** The [ChatInterface] component *)
Module ChatInterface.

(** The callback given to [subscribeToMessages]: read receipts. *)
Definition onMessages (currentUser activeFriend : User) (msgs : list Message) : M unit :=
  when (some (λ m, bool_decide (m_receiverId m = u_id currentUser) && negb (m_isRead m)) msgs)
       (db.markMessagesAsRead (u_id currentUser) (u_id activeFriend)).

(** [isUserOnline], with the value [now] of [Date.now()]. *)
Definition isUserOnline (now : Z) (user : User) : bool :=
  now - u_lastSeen user <? 60000.

(** [getStatusString]; [now] and [later] are the values of the two calls of
    [Date.now()]. *)
Definition getStatusString (now later : Z) (user : User) : string :=
  if now - u_lastSeen user <? 60000 then "Online" else
  let mins := (later - u_lastSeen user) / 60000 in
  if mins <? 1 then "Last seen just now" else
  if mins <? 60 then "Last seen " +:+ pretty mins +:+ "m ago" else
  let hours := mins / 60 in
  if hours <? 24 then "Last seen " +:+ pretty hours +:+ "h ago" else
  "Last seen long ago".

End ChatInterface.

(** ** Vocabulary of the properties *)

(** Ascending order of the [timestamp] field. *)
Definition ascending (a b : Message) : Prop := m_timestamp a ≤ m_timestamp b.

(** [m] was exchanged between [A] and [B], in either direction. *)
Definition exchanged (A B : string) (m : Message) : Prop :=
  (m_senderId m = A ∧ m_receiverId m = B) ∨ (m_senderId m = B ∧ m_receiverId m = A).

(** What a subscription hands to its callback when it reads the local
    store; [None] when it hands nothing (the user is not there). *)
Definition view (sub : Subscription) (ls : LocalStorage) : option Payload :=
  match sub with
  | ToUser userId =>
      OneUser <$> find (λ u, bool_decide (u_id u = userId)) (mock_users ls)
  | ToFriends userId =>
      let ids := mockDb.friendIds userId (mock_friendships ls) in
      Some (Friends (List.filter (λ u, bool_decide (u_id u ∈ ids)) (mock_users ls)))
  | ToMessages userId friendId =>
      Some (Conversation
              (sort mockDb.by_timestamp
                 (List.filter (mockDb.between userId friendId) (mock_messages ls))))
  | ToIncomingRequests userId =>
      Some (Incoming
              (List.filter
                 (λ r, bool_decide (r_toId r = userId) && bool_decide (r_status r = pending))
                 (mock_requests ls)))
  end.

(** The callback invocations one listener makes on a channel message. *)
Definition delivery (e : ChannelMsg) (ls : LocalStorage) (l : Listener) : list (nat * Payload) :=
  if mockDb.concerns (l_sub l) e
  then match view (l_sub l) ls with
       | Some p => [(l_callback l, p)]
       | None => []
       end
  else [].

(** The world after the callbacks were invoked with [new]. *)
Definition told (w : World) (new : list (nat * Payload)) : World :=
  with_calls (calls w ++ new) w.

(** What [markMessagesAsRead(userId, senderId)] makes of a message. *)
Definition marked (userId senderId : string) (m : Message) : Message :=
  if bool_decide (m_receiverId m = userId) && bool_decide (m_senderId m = senderId)
  then set_isRead m true else m.

(** The message ids are fresh: an operation that sends a message does not
    reuse the id of a document of the collection. *)
Definition sends_fresh_id (o : Operation) (w : World) : Prop :=
  ∀ msg, o = SendMessage msg → messages_col (firestore w) !! m_id msg = None.

(** The request that [handleFriendRequest(requestId, _)] finds is resolved. *)
Definition already_resolved (requestId : string) (w : World) : Prop :=
  ∃ idx req,
    findIndex (λ r, bool_decide (r_id r = requestId)) (mock_requests (localStorage w)) = Some idx
    ∧ mock_requests (localStorage w) !! idx = Some req
    ∧ r_status req ≠ pending.

(** Handling a request that is already resolved is not an error and leaves
    the store as it is. *)
Definition reresolving_is_a_noop : Prop :=
  ∀ (w : World) (requestId : string) (status : Resolution),
    already_resolved requestId w →
    ∃ w', mockDb.handleFriendRequest requestId status w = (Some (), w')
          ∧ localStorage w' = localStorage w.

(** Every operation and every subscription of the facade is the one of the
    simulated database. *)
Definition dispatched_locally (w : World) : Prop :=
  (∀ o, db_run o w = mockDb_run o w)
  ∧ (∀ sub cb, db.subscribe sub cb w = mockDb.subscribe sub cb w).

(** A computation keeps a relation between the world it starts from and the
    world it leaves, whether it returns or throws. *)
Definition preserves {A} (R : relation World) (c : M A) : Prop :=
  ∀ w, R w (c w).2.

(** A computation that never throws. *)
Definition total {A} (c : M A) : Prop := ∀ w, is_Some (c w).1.

(** The flag, once set, stays set. *)
Definition flag_kept (w w' : World) : Prop := useMock w = true → useMock w' = true.

(** Nothing but the local side changes. *)
Definition remote_untouched (w w' : World) : Prop :=
  useMock w' = useMock w ∧ firestore w' = firestore w
  ∧ snapshots w' = snapshots w ∧ faults w' = faults w.

(** Nothing of the local side changes. *)
Definition local_untouched (w w' : World) : Prop :=
  localStorage w' = localStorage w ∧ posted w' = posted w
  ∧ handlers w' = handlers w ∧ calls w' = calls w.

(** A message that was read is still there, unchanged, at its place in the
    local collection. *)
Definition read_kept (w w' : World) : Prop :=
  ∀ i m, mock_messages (localStorage w) !! i = Some m → m_isRead m = true →
         mock_messages (localStorage w') !! i = Some m.

(** The same for the documents of the remote collection. *)
Definition remote_read_kept (w w' : World) : Prop :=
  ∀ id m, messages_col (firestore w) !! id = Some m → m_isRead m = true →
          messages_col (firestore w') !! id = Some m.

(** The notices that make a subscription read the store again: for the
    subscription to a user, a notice about the users collection or an update
    of that user; for the friends, a notice about the friendships or the
    users; for a conversation, a notice about the messages or a new message;
    for the incoming requests, a notice about the requests. *)
Definition announces (sub : Subscription) (e : ChannelMsg) : Prop :=
  match sub with
  | ToUser userId => e = sync users ∨ ∃ updates, e = user_update userId updates
  | ToFriends _ => e = sync friendships ∨ e = sync users
  | ToMessages _ _ => e = sync messages ∨ ∃ msg, e = new_msg msg
  | ToIncomingRequests _ => e = sync requests
  end.

(** Every collection that changed was the subject of a posted notice. *)
Definition announced (w w' : World) : Prop :=
  ∃ new,
    posted w' = posted w ++ new
    ∧ ∀ key, getItem key (localStorage w') ≠ getItem key (localStorage w) → sync key ∈ new.



(** A message that is read stays read, on either store, whatever operation
    of the facade runs. *)
Definition isRead_never_reverts : Prop :=
  ∀ (o : Operation) (w : World),
    (∀ i m,
       mock_messages (localStorage w) !! i = Some m → m_isRead m = true →
       ∃ m', mock_messages (localStorage (db_run o w).2) !! i = Some m'
             ∧ m_isRead m' = true)
    ∧ (∀ id m,
         messages_col (firestore w) !! id = Some m → m_isRead m = true →
         ∃ m', messages_col (firestore (db_run o w).2) !! id = Some m'
               ∧ m_isRead m' = true).

(** ** Sample worlds *)

Definition no_storage : LocalStorage :=
  {| mock_users := []; mock_requests := []; mock_friendships := [];
     mock_messages := []; nexus_vault := []; nexus_last_session := None |}.

Definition no_firestore : Firestore :=
  {| users_col := ∅; requests_col := ∅; friendships_col := ∅; messages_col := ∅ |}.

(** A process that has just started, with its flag, its two stores and the
    outcomes of the coming remote calls. *)
Definition start (mock : bool) (ls : LocalStorage) (fs : Firestore) (f : list bool) : World :=
  {| useMock := mock; localStorage := ls; posted := []; handlers := [];
     firestore := fs; snapshots := []; faults := f; calls := []; clock := 1000;
     next_id := 0 |}.

Definition alice : User :=
  {| u_id := "u-alice"; u_username := "alice"; u_passwordHash := "TmV4dXNTYWx0X2E=";
     u_bio := "Nexus user active."; u_avatar := None; u_status := offline;
     u_lastSeen := 10; u_typingTo := None |}.

Definition bob : User :=
  {| u_id := "u-bob"; u_username := "bob"; u_passwordHash := "TmV4dXNTYWx0X2I=";
     u_bio := "Nexus user active."; u_avatar := None; u_status := offline;
     u_lastSeen := 20; u_typingTo := None |}.

(** Alice and Bob are users, on either store. *)
Definition local_users : LocalStorage := setItem users [alice; bob] no_storage.

Definition remote_users : Firestore :=
  remote.set_col users {[ "u-alice" := alice; "u-bob" := bob ]} no_firestore.

(** Alice asked Bob, and Bob asked Alice. *)
Definition alice_to_bob : FriendRequest :=
  {| r_id := "r1"; r_fromId := "u-alice"; r_toId := "u-bob"; r_status := pending;
     r_timestamp := 100 |}.

Definition bob_to_alice : FriendRequest :=
  {| r_id := "r2"; r_fromId := "u-bob"; r_toId := "u-alice"; r_status := pending;
     r_timestamp := 101 |}.

Definition local_requests : LocalStorage :=
  setItem requests [alice_to_bob; bob_to_alice] local_users.

Definition remote_requests : Firestore :=
  remote.set_col requests {[ "r1" := alice_to_bob; "r2" := bob_to_alice ]} remote_users.

(** The request of Alice, accepted. *)
Definition accepted_request : LocalStorage :=
  setItem requests [set_status alice_to_bob accepted] local_users.

(** Three messages of the conversation of Alice and Bob, written in an
    order that is not the order of their timestamps; the first one is read. *)
Definition third_message : Message :=
  {| m_id := "m3"; m_senderId := "u-alice"; m_receiverId := "u-bob";
     m_content := "see you"; m_timestamp := 30; m_isRead := true |}.

Definition first_message : Message :=
  {| m_id := "m1"; m_senderId := "u-alice"; m_receiverId := "u-bob";
     m_content := "hello"; m_timestamp := 10; m_isRead := false |}.

Definition second_message : Message :=
  {| m_id := "m2"; m_senderId := "u-bob"; m_receiverId := "u-alice";
     m_content := "hi"; m_timestamp := 20; m_isRead := false |}.

Definition local_chat : LocalStorage :=
  setItem messages [third_message; first_message; second_message] local_requests.

Definition remote_chat : Firestore :=
  remote.set_col messages
    {[ "m3" := third_message; "m1" := first_message; "m2" := second_message ]}
    remote_requests.

(** A message with an id that no document has. *)
Definition fourth_message : Message :=
  {| m_id := "m4"; m_senderId := "u-bob"; m_receiverId := "u-alice";
     m_content := "ok"; m_timestamp := 40; m_isRead := false |}.

(** Somebody registers as "Alice" while "alice" exists. *)
Definition register_Alice : AuthScreen.Form :=
  {| AuthScreen.isRegistering := true; AuthScreen.username := "Alice";
     AuthScreen.password := "secret"; AuthScreen.rememberMe := false |}.

(** A session: calls, a subscription, a failing transport, events. *)
Definition session : list Action :=
  [ Call (GetUser "u-alice");
    Subscribe (ToMessages "u-alice" "u-bob") 3;
    Plan [false; true];
    Call (SendMessage fourth_message);
    Snapshot 0;
    TransportError 0;
    Call (MarkMessagesAsRead "u-bob" "u-alice");
    ChannelEvent (sync messages);
    Unsub (cancelSnapshot 0);
    RemoteWrite no_firestore;
    Tick 2000;
    Call (HandleFriendRequest "r1" Accept) ].

(** ** Vocabulary of the further properties *)

(** The messages [subscribeToMessages(A, B)] hands over. *)
Definition conversation (A B : string) (ls : LocalStorage) : list Message :=
  sort mockDb.by_timestamp (List.filter (mockDb.between A B) (mock_messages ls)).

(** The flag is what it was. *)
Definition flag_same (w w' : World) : Prop := useMock w' = useMock w.

(** The requests [subscribeToIncomingRequests(userId)] hands over. *)
Definition incoming (userId : string) (ls : LocalStorage) : list FriendRequest :=
  List.filter (λ r, bool_decide (r_toId r = userId) && bool_decide (r_status r = pending))
    (mock_requests ls).

(** The ids the remote [onNext] of the friends subscription collects from
    its two queries. *)
Definition remote_friendIds (userId : string) (docs : list (string * Friendship)) : list string :=
  ((λ d, f_user2Id d.2) <$> List.filter (λ d, bool_decide (f_user1Id d.2 = userId)) docs)
  ++ ((λ d, f_user1Id d.2) <$> List.filter (λ d, bool_decide (f_user2Id d.2 = userId)) docs).

(** The friends [subscribeToFriends(userId)] hands over. *)
Definition friends_of (userId : string) (ls : LocalStorage) : list User :=
  List.filter (λ u, bool_decide (u_id u ∈ mockDb.friendIds userId (mock_friendships ls)))
    (mock_users ls).

(** Whether an id holds the character that joins the two ids. *)
Fixpoint has_underscore (s : string) : bool :=
  match s with
  | EmptyString => false
  | String c s' => Ascii.eqb c "_" || has_underscore s'
  end.

(** The identities of the registered closures are distinct and older than
    the next one. *)
Definition well_formed (w : World) : Prop :=
  Forall (λ l, (l_id l < next_id w)%nat) (handlers w ++ snapshots w)
  ∧ NoDup (l_id <$> handlers w ++ snapshots w).

(** The strings whose characters are all ASCII. *)
Definition ascii_only (s : string) : bool :=
  forallb (λ c, (N_of_ascii c <? 128)%N) (list_ascii_of_string s).

(** The names of the stored users are ASCII. *)
Definition ascii_names (ls : LocalStorage) : Prop :=
  ∀ u, u ∈ mock_users ls → ascii_only (u_username u) = true.

(** The place of a character in the base64 alphabet. *)
Fixpoint b64_index_from (n : N) (alphabet : string) (c : ascii) : N :=
  match alphabet with
  | EmptyString => n
  | String x rest => if Ascii.eqb x c then n else b64_index_from (N.succ n) rest c
  end.

Definition b64_index (c : ascii) : N := b64_index_from 0 b64_alphabet c.

(** The form of somebody who signs in with the name and password of [f]. *)
Definition signing_in (f : AuthScreen.Form) : AuthScreen.Form :=
  {| AuthScreen.isRegistering := false; AuthScreen.username := AuthScreen.username f;
     AuthScreen.password := AuthScreen.password f;
     AuthScreen.rememberMe := AuthScreen.rememberMe f |}.

(** ** Further sample worlds *)

(** A process in local mode and one in remote mode; the store in use holds
    the users, the requests and the conversation. *)
Definition local_world : World := start true local_chat no_firestore [].

Definition remote_world : World := start false no_storage remote_chat [].

(** Somebody who is in neither store. *)
Definition carol : User :=
  {| u_id := "u-carol"; u_username := "Carol"; u_passwordHash := "TmV4dXNTYWx0X2M=";
     u_bio := "Nexus user active."; u_avatar := None; u_status := online;
     u_lastSeen := 30; u_typingTo := None |}.

(** A typing heartbeat. *)
Definition now_typing : PartialUser :=
  {| p_id := None; p_username := None; p_passwordHash := None; p_bio := None;
     p_avatar := None; p_status := None; p_lastSeen := Some 1000;
     p_typingTo := Some (Some "u-bob"%string) |}.

Definition register_Carol : AuthScreen.Form :=
  {| AuthScreen.isRegistering := true; AuthScreen.username := "Carol";
     AuthScreen.password := "c"; AuthScreen.rememberMe := true |}.

(** Alice signs in with the password of somebody else. *)
Definition wrong_password : AuthScreen.Form :=
  {| AuthScreen.isRegistering := false; AuthScreen.username := "ALICE";
     AuthScreen.password := "b"; AuthScreen.rememberMe := true |}.

(** The vault entries of Alice: the current one, and one from before a
    change of password. *)
Definition vault_entry : LocalVaultEntry :=
  {| v_username := "Alice"; v_passwordHash := "TmV4dXNTYWx0X2E="; v_lastLogin := 5 |}.

Definition stale_entry : LocalVaultEntry :=
  {| v_username := "Alice"; v_passwordHash := "TmV4dXNTYWx0X2I="; v_lastLogin := 5 |}.

(** Bob takes a name that differs from the one of Alice in letter case
    only. *)
Definition rename_to_Alice : ProfilePage.Form :=
  {| ProfilePage.username := "Alice"; ProfilePage.bio := "hi";
     ProfilePage.password := ""; ProfilePage.avatar := None |}.

(** Alice and Bob are friends on the remote store. *)
Definition alice_and_bob : Friendship :=
  {| f_id := "u-alice_u-bob"; f_user1Id := "u-alice"; f_user2Id := "u-bob";
     f_createdAt := 500 |}.

Definition remote_friends : Firestore :=
  remote.set_col friendships {[ "u-alice_u-bob" := alice_and_bob ]} remote_users.


(** The third message, sent once more under its id. *)
Definition third_message_again : Message :=
  {| m_id := "m3"; m_senderId := "u-alice"; m_receiverId := "u-bob";
     m_content := "see you"; m_timestamp := 50; m_isRead := false |}.

(** * Properties *)

(** ** Running computations *)

Ltac exec :=
  repeat (unfold mbind, M_bind, mret, M_ret, read, update, when, throw, try_catch,
            callback, Date_now, db.demote, db.if_useMock,
            nexusChannel.postMessage, mockStore.get, mockStore.set; simpl).

(** ** Arrays *)

Section ArrayFacts.
Context {A : Type}.
Implicit Types (p : A → bool) (l : list A).

Lemma findIndex_None p l :
  findIndex p l = None ↔ ∀ x, x ∈ l → p x = false.
Proof.
  induction l as [|y l IH]; simpl.
  - split; [intros _ x Hx; inversion Hx | done].
  - destruct (p y) eqn:Hy.
    + split; [done | intros H; specialize (H y (list_elem_of_here _ _)); congruence].
    + rewrite fmap_None, IH. split.
      * intros H x Hx. apply elem_of_cons in Hx as [-> | Hx]; auto.
      * intros H x Hx. apply H. by right.
Qed.

Lemma findIndex_Some p l i :
  findIndex p l = Some i →
  ∃ x, l !! i = Some x ∧ p x = true ∧ ∀ j y, (j < i)%nat → l !! j = Some y → p y = false.
Proof.
  revert i. induction l as [|y l IH]; simpl; intros i; [done|].
  destruct (p y) eqn:Hy.
  - intros [= <-]. exists y. split_and!; [done | done | intros; lia].
  - intros H. apply fmap_Some in H as (i' & Hi' & ->).
    destruct (IH _ Hi') as (x & Hx & Hpx & Hmin).
    exists x. split_and!; [done | done |].
    intros [|j] z Hj Hz; simpl in Hz; [congruence|].
    eapply Hmin; [|done]. lia.
Qed.

Lemma find_Some p l x : find p l = Some x → x ∈ l ∧ p x = true.
Proof.
  induction l as [|y l IH]; simpl; [done|].
  destruct (p y) eqn:Hy.
  - intros [= ->]. split; [left | done].
  - intros H. destruct (IH H). split; [by right | done].
Qed.

Lemma find_None p l : find p l = None ↔ ∀ x, x ∈ l → p x = false.
Proof.
  induction l as [|y l IH]; simpl.
  - split; [intros _ x Hx; inversion Hx | done].
  - destruct (p y) eqn:Hy.
    + split; [done | intros H; specialize (H y (list_elem_of_here _ _)); congruence].
    + rewrite IH. split.
      * intros H x Hx. apply elem_of_cons in Hx as [-> | Hx]; auto.
      * intros H x Hx. apply H. by right.
Qed.
End ArrayFacts.

Section SortFacts.
Context {A : Type} (le : A → A → bool).
Hypothesis le_total : ∀ a b, le a b = false → le b a = true.

Lemma sort_insert_perm x l : Permutation (sort_insert le x l) (x :: l).
Proof.
  induction l as [|y l IH]; simpl; [done|].
  destruct (le x y); [done|].
  rewrite IH. apply perm_swap.
Qed.

Lemma sort_perm l : Permutation (sort le l) l.
Proof.
  induction l as [|x l IH]; simpl; [done|].
  by rewrite sort_insert_perm, IH.
Qed.

Lemma sort_insert_sorted x l :
  Sorted (λ a b, le a b = true) l → Sorted (λ a b, le a b = true) (sort_insert le x l).
Proof.
  induction l as [|y l IH]; simpl; intros Hs.
  - repeat constructor.
  - destruct (le x y) eqn:Hxy.
    + constructor; [done | by constructor].
    + inversion Hs as [|? ? Hs' Hhd]; subst.
      constructor; [by apply IH|].
      destruct l as [|z l]; simpl.
      * constructor. by apply le_total.
      * destruct (le x z); constructor; [by apply le_total|].
        by inversion Hhd.
Qed.

Lemma sort_sorted l : Sorted (λ a b, le a b = true) (sort le l).
Proof.
  induction l as [|x l IH]; simpl; [constructor|].
  by apply sort_insert_sorted.
Qed.

(** The sort is stable: elements that the comparator does not separate
    keep their order.  Stated for a key that [le] respects. *)
Lemma sort_insert_filter (p : A → bool) x l :
  (∀ y, y ∈ l → p x = true → p y = true → le x y = true) →
  List.filter p (sort_insert le x l) = List.filter p (x :: l).
Proof.
  induction l as [|y l IH]; simpl; intros Hle; [done|].
  destruct (le x y) eqn:Hxy; simpl; [done|].
  rewrite IH by (intros; apply Hle; [by right|done..]).
  simpl. destruct (p x) eqn:Hpx, (p y) eqn:Hpy; try done.
  rewrite Hle in Hxy; [done | by left | done..].
Qed.
End SortFacts.

Lemma by_timestamp_total a b :
  mockDb.by_timestamp a b = false → mockDb.by_timestamp b a = true.
Proof. unfold mockDb.by_timestamp. lia. Qed.

Lemma sort_by_timestamp_ascending l : Sorted ascending (sort mockDb.by_timestamp l).
Proof.
  eapply Sorted_ind with (P := Sorted ascending); [constructor | |
    apply (sort_sorted _ by_timestamp_total l)].
  intros a l' _ IH Hhd. constructor; [done|].
  destruct Hhd as [|b l'' Hab]; constructor.
  unfold ascending, mockDb.by_timestamp in *. lia.
Qed.

(** Stability on messages: the messages of one timestamp keep the order of
    the array that was sorted. *)
Lemma sort_by_timestamp_stable (t : Z) l :
  List.filter (λ m, bool_decide (m_timestamp m = t)) (sort mockDb.by_timestamp l)
  = List.filter (λ m, bool_decide (m_timestamp m = t)) l.
Proof.
  induction l as [|x l IH]; simpl; [done|].
  rewrite sort_insert_filter.
  - simpl. by rewrite IH.
  - intros y _ Hx Hy. apply bool_decide_eq_true in Hx, Hy.
    unfold mockDb.by_timestamp. lia.
Qed.

Lemma between_exchanged A B m : mockDb.between A B m = true ↔ exchanged A B m.
Proof.
  unfold mockDb.between, exchanged.
  rewrite orb_true_iff, !andb_true_iff, !bool_decide_eq_true. done.
Qed.

Lemma filter_between_elem A B (l : list Message) m :
  m ∈ List.filter (mockDb.between A B) l ↔ m ∈ l ∧ exchanged A B m.
Proof.
  rewrite !list_elem_of_In, filter_In, between_exchanged. done.
Qed.

Lemma filter_perm {V} (p : V → bool) (l l' : list V) :
  Permutation l l' → Permutation (List.filter p l) (List.filter p l').
Proof.
  induction 1 as [|x l l' _ IH|x y l|l l' l'' _ IH1 _ IH2]; simpl.
  - done.
  - destruct (p x); [by constructor | done].
  - destruct (p x), (p y); try done. apply perm_swap.
  - by etrans.
Qed.

Lemma filter_ascending (p : Message → bool) l :
  Sorted ascending l → Sorted ascending (List.filter p l).
Proof.
  intros Hs. apply StronglySorted_Sorted.
  apply Sorted_StronglySorted in Hs; [|intros a b c; unfold ascending; lia].
  induction Hs as [|x l Hs IH Hall]; simpl; [constructor|].
  destruct (p x); [|done].
  constructor; [done|].
  rewrite List.Forall_forall in *. intros y Hy. apply Hall.
  by apply filter_In in Hy as [? _].
Qed.

Lemma docs_perm {V} (c : gmap string V) : Permutation (remote.docs c) (map_to_list c).
Proof. apply sort_perm. Qed.

Lemma elem_of_docs {V} (c : gmap string V) id (d : V) :
  (id, d) ∈ remote.docs c ↔ c !! id = Some d.
Proof. by rewrite docs_perm, elem_of_map_to_list. Qed.

(** ** Frames: what a computation leaves alone *)

Global Instance flag_kept_preorder : PreOrder flag_kept.
Proof. split; unfold flag_kept; [intros ?; auto | intros ? ? ?; auto]. Qed.

Global Instance remote_untouched_preorder : PreOrder remote_untouched.
Proof.
  split; unfold remote_untouched.
  - by intros ?.
  - intros x y z (-> & -> & -> & ->) (-> & -> & -> & ->). done.
Qed.

Global Instance local_untouched_preorder : PreOrder local_untouched.
Proof.
  split; unfold local_untouched.
  - by intros ?.
  - intros x y z (-> & -> & -> & ->) (-> & -> & -> & ->). done.
Qed.

Section Frames.
Context (R : relation World) `{!PreOrder R}.

Lemma preserves_ret {A} (a : A) : preserves R (mret a).
Proof. intros w. simpl. reflexivity. Qed.

Lemma preserves_read {A} (f : World → A) : preserves R (read f).
Proof. intros w. simpl. reflexivity. Qed.

Lemma preserves_throw {A} : preserves R (@throw A).
Proof. intros w. simpl. reflexivity. Qed.

Lemma preserves_update (f : World → World) : (∀ w, R w (f w)) → preserves R (update f).
Proof. intros H w. apply H. Qed.

Lemma preserves_bind {A B} (c : M A) (f : A → M B) :
  preserves R c → (∀ a, preserves R (f a)) → preserves R (c ≫= f).
Proof.
  intros Hc Hf w. unfold mbind, M_bind. specialize (Hc w).
  destruct (c w) as [[a|] w']; simpl in *; [|done].
  etrans; [done | apply Hf].
Qed.

Lemma preserves_try_catch {A} (body handler : M A) :
  preserves R body → preserves R handler → preserves R (try_catch body handler).
Proof.
  intros Hb Hh w. unfold try_catch. specialize (Hb w).
  destruct (body w) as [[a|] w']; simpl in *; [done|].
  etrans; [done | apply Hh].
Qed.

Lemma preserves_when (c : bool) (body : M unit) :
  preserves R body → preserves R (when c body).
Proof. destruct c; simpl; [done | intros _; apply preserves_ret]. Qed.

Lemma preserves_forEach {A} (body : A → M unit) (l : list A) :
  (∀ x, preserves R (body x)) → preserves R (forEach body l).
Proof.
  intros H. induction l as [|x l IH]; simpl; [apply preserves_ret|].
  apply preserves_bind; [apply H | done].
Qed.

Lemma preserves_if_useMock {A} (local otherwise : M A) :
  preserves R local → preserves R otherwise → preserves R (db.if_useMock local otherwise).
Proof. intros Hl Ho w. unfold db.if_useMock. destruct (useMock w); [apply Hl | apply Ho]. Qed.
End Frames.

Lemma total_ret {A} (a : A) : total (mret a).
Proof. intros w. by eexists. Qed.

Lemma total_read {A} (f : World → A) : total (read f).
Proof. intros w. by eexists. Qed.

Lemma total_update (f : World → World) : total (update f).
Proof. intros w. by eexists. Qed.

Lemma total_bind {A B} (c : M A) (f : A → M B) :
  total c → (∀ a, total (f a)) → total (c ≫= f).
Proof.
  intros Hc Hf w. unfold mbind, M_bind. destruct (Hc w) as [a Ha].
  destruct (c w) as [[a'|] w']; simpl in *; [apply Hf | done].
Qed.

Lemma total_when (c : bool) (body : M unit) : total body → total (when c body).
Proof. destruct c; simpl; [done | intros _; apply total_ret]. Qed.

Lemma total_forEach {A} (body : A → M unit) (l : list A) :
  (∀ x, total (body x)) → total (forEach body l).
Proof.
  intros H. induction l as [|x l IH]; simpl; [apply total_ret|].
  apply total_bind; [apply H | done].
Qed.

Lemma total_try_catch {A} (body handler : M A) :
  total handler → total (try_catch body handler).
Proof.
  intros Hh w. unfold try_catch.
  destruct (body w) as [[a|] w']; simpl; [by eexists | apply Hh].
Qed.

Lemma total_if_useMock {A} (local otherwise : M A) :
  total local → total otherwise → total (db.if_useMock local otherwise).
Proof. intros Hl Ho w. unfold db.if_useMock. destruct (useMock w); [apply Hl | apply Ho]. Qed.

(** Breaks a computation down to its primitive steps. *)
Ltac step :=
  lazymatch goal with
  | |- preserves _ (mret _) => apply preserves_ret; apply _
  | |- preserves _ (read _) => apply preserves_read; apply _
  | |- preserves _ throw => apply preserves_throw; apply _
  | |- preserves _ (update _) => apply preserves_update; [apply _ .. | intros ?]
  | |- preserves _ (_ ≫= _) => apply preserves_bind; [apply _ .. | | intros ?]
  | |- preserves _ (when _ _) => apply preserves_when; [apply _ .. |]
  | |- preserves _ (forEach _ _) => apply preserves_forEach; [apply _ .. | intros ?]
  | |- preserves _ (try_catch _ _) => apply preserves_try_catch; [apply _ .. | |]
  | |- preserves _ (db.if_useMock _ _) => apply preserves_if_useMock
  | |- preserves _ (match ?x with _ => _ end) => destruct x
  | |- preserves _ (let _ := _ in _) => cbv zeta
  | |- total (mret _) => apply total_ret
  | |- total (read _) => apply total_read
  | |- total (update _) => apply total_update
  | |- total (_ ≫= _) => apply total_bind; [| intros ?]
  | |- total (when _ _) => apply total_when
  | |- total (forEach _ _) => apply total_forEach; intros ?
  | |- total (try_catch _ _) => apply total_try_catch
  | |- total (db.if_useMock _ _) => apply total_if_useMock
  | |- total (match ?x with _ => _ end) => destruct x
  | |- total (let _ := _ in _) => cbv zeta
  end.

Ltac steps := repeat step.

Ltac base := by unfold flag_kept, remote_untouched, local_untouched.

Ltac unfold_mockDb :=
  unfold mockDb_run, found, done_, mockDb.getUser, mockDb.getUserByUsername,
    mockDb.saveUser, mockDb.updateUserStatus, mockDb.sendMessage, mockDb.markMessagesAsRead,
    mockDb.sendFriendRequest, mockDb.handleFriendRequest, mockDb.subscribe, mockDb.handler,
    mockDb.refresh, mockStore.get, mockStore.set, callback,
    nexusChannel.postMessage, nexusChannel.addEventListener, Date_now.

Lemma mockDb_run_remote_untouched o : preserves remote_untouched (mockDb_run o).
Proof. destruct o; unfold_mockDb; steps; base. Qed.


Lemma mockDb_subscribe_remote_untouched sub cb :
  preserves remote_untouched (mockDb.subscribe sub cb).
Proof. destruct sub; repeat (unfold_mockDb; steps); base. Qed.

Lemma mockDb_subscribe_total sub cb : total (mockDb.subscribe sub cb).
Proof. destruct sub; repeat (unfold_mockDb; steps). Qed.

(** ** The flag and the dispatch of the facade *)

(** The flag starts set when the key is absent, empty or a placeholder, and
    when the initialisation throws. *)
Lemma initial_useMock_without_key initializeApp_throws :
  initial_useMock None initializeApp_throws = true
  ∧ initial_useMock (Some ""%string) initializeApp_throws = true.
Proof. done. Qed.

Lemma initial_useMock_placeholder k initializeApp_throws :
  includes "Placeholder" k = true → initial_useMock (Some k) initializeApp_throws = true.
Proof. intros Hk. unfold initial_useMock. by rewrite Hk, orb_true_r. Qed.

Lemma initial_useMock_throws apiKey : initial_useMock apiKey true = true.
Proof. unfold initial_useMock. by destruct apiKey as [k|]; [case_match|]. Qed.

(** A round trip to the remote store touches neither the flag nor the
    local side. *)
Lemma call_flag_kept : preserves flag_kept remote.call.
Proof. intros w. unfold remote.call. destruct (faults w) as [|[] ?]; by unfold flag_kept. Qed.

Lemma call_local_untouched : preserves local_untouched remote.call.
Proof. intros w. unfold remote.call. destruct (faults w) as [|[] ?]; by unfold local_untouched. Qed.

Ltac unfold_db :=
  unfold db_run, cloud_run, found, done_, db.getUser, db.getUserByUsername, db.saveUser,
    db.updateUserStatus, db.sendMessage, db.markMessagesAsRead, db.sendFriendRequest,
    db.handleFriendRequest, db.subscribe, db.onNext, db.onError, db.demote,
    cloud.getUser, cloud.getUserByUsername, cloud.saveUser,
    cloud.updateUserStatus, cloud.sendMessage, cloud.markMessagesAsRead, cloud.sendFriendRequest,
    cloud.handleFriendRequest, remote.getDoc, remote.setDoc, remote.updateDoc,
    remote.getDocs, remote.commit, remote.onSnapshot, remote.cancel.

Ltac frame :=
  repeat (unfold_db; unfold_mockDb; steps;
          try apply call_flag_kept; try apply call_local_untouched).

Lemma db_run_flag_kept o : preserves flag_kept (db_run o).
Proof. destruct o; frame; base. Qed.

Lemma cloud_run_local_untouched o : preserves local_untouched (cloud_run o).
Proof. destruct o; frame; base. Qed.

Lemma db_subscribe_flag_kept sub cb : preserves flag_kept (db.subscribe sub cb).
Proof. destruct sub; frame; base. Qed.

Lemma unsubscribe_flag_kept h : preserves flag_kept (unsubscribe h).
Proof. destruct h; unfold unsubscribe, nexusChannel.removeEventListener; frame; base. Qed.

Lemma dispatch_flag_kept e : preserves flag_kept (dispatch e).
Proof. unfold dispatch. steps. destruct (l_sub x); frame; base. Qed.

Lemma push_snapshot_flag_kept id : preserves flag_kept (push_snapshot id).
Proof. unfold push_snapshot. steps. destruct (l_sub l); frame; base. Qed.

Lemma fail_snapshot_flag_kept id : preserves flag_kept (fail_snapshot id).
Proof. unfold fail_snapshot. steps; destruct (l_sub l); frame; base. Qed.

Lemma perform_flag_kept a w : flag_kept w (perform a w).
Proof.
  destruct a; simpl;
    [ apply db_run_flag_kept | apply db_subscribe_flag_kept | apply unsubscribe_flag_kept
    | apply dispatch_flag_kept | apply push_snapshot_flag_kept
    | apply fail_snapshot_flag_kept | base .. ].
Qed.

Lemma run_flag_kept actions w : flag_kept w (run actions w).
Proof.
  revert w. induction actions as [|a actions IH]; intros w; simpl; [done|].
  etrans; [apply perform_flag_kept | apply IH].
Qed.

Lemma local_mode_dispatch w : useMock w = true → dispatched_locally w.
Proof.
  intros Hw. split.
  - intros o. destruct o; unfold_db; unfold db.if_useMock, mbind, M_bind; by rewrite Hw.
  - intros sub cb. unfold db.subscribe, db.if_useMock. by rewrite Hw.
Qed.

Lemma found_failover (l r : M (option User)) w w1 :
  useMock w = false → found r w = (None, w1) →
  found (db.if_useMock l (try_catch r (db.demote ;; l))) w = found l (with_useMock true w1).
Proof.
  unfold found, db.if_useMock, try_catch, db.demote, update, mbind, M_bind, mret, M_ret.
  intros -> Hr. destruct (r w) as [[a|] w']; simplify_eq. done.
Qed.

Lemma done_failover (l r : M unit) w w1 :
  useMock w = false → done_ r w = (None, w1) →
  done_ (db.if_useMock l (try_catch r (db.demote ;; l))) w = done_ l (with_useMock true w1).
Proof.
  unfold done_, db.if_useMock, try_catch, db.demote, update, mbind, M_bind, mret, M_ret.
  intros -> Hr. destruct (r w) as [[a|] w']; simplify_eq. done.
Qed.

Lemma db_run_failover o w w1 :
  useMock w = false → cloud_run o w = (None, w1) →
  db_run o w = mockDb_run o (with_useMock true w1).
Proof.
  intros Hw Hr. destruct o; simpl in *;
    first [by apply found_failover | by apply done_failover].
Qed.

(** ** Subscriptions *)

Lemma told_nil w : told w [] = w.
Proof. unfold told, with_calls. rewrite app_nil_r. by destruct w. Qed.

Lemma told_app w l1 l2 : told (told w l1) l2 = told w (l1 ++ l2).
Proof. unfold told, with_calls. simpl. by rewrite app_assoc. Qed.

Lemma refresh_view sub cb w :
  mockDb.refresh sub cb w
  = (Some (), told w (match view sub (localStorage w) with
                      | Some p => [(cb, p)]
                      | None => []
                      end)).
Proof.
  destruct sub; simpl; unfold mockDb.getUser; exec; try done.
  destruct (find _ _); simpl; [done | by rewrite told_nil].
Qed.

Lemma handler_delivery l e w :
  mockDb.handler l e w = (Some (), told w (delivery e (localStorage w) l)).
Proof.
  unfold mockDb.handler, delivery, when.
  destruct (mockDb.concerns _ _); [apply refresh_view | by rewrite told_nil].
Qed.

Lemma forEach_handler e ls w :
  forEach (λ l, mockDb.handler l e) ls w
  = (Some (), told w (ls ≫= delivery e (localStorage w))).
Proof.
  revert w. induction ls as [|l ls IH]; intros w; simpl.
  - by rewrite told_nil.
  - unfold mbind at 1, M_bind. rewrite handler_delivery, IH. simpl.
    by rewrite told_app.
Qed.

Lemma dispatch_deliveries e w :
  dispatch e w = (Some (), told w (handlers w ≫= delivery e (localStorage w))).
Proof. unfold dispatch. exec. apply forEach_handler. Qed.

Lemma find_listener id (ls : list Listener) l :
  find (λ x, bool_decide (l_id x = id)) ls = Some l → l ∈ ls ∧ l_id l = id.
Proof. intros H. apply find_Some in H as [? H]. by apply bool_decide_eq_true in H. Qed.

Lemma listener_delivers (l : Listener) (e : ChannelMsg) (p : Payload) (w : World) :
  l ∈ handlers w →
  mockDb.concerns (l_sub l) e = true →
  view (l_sub l) (localStorage w) = Some p →
  ∃ before after,
    calls (dispatch e w).2 = calls w ++ before ++ [(l_callback l, p)] ++ after.
Proof.
  intros Hl He Hp. rewrite dispatch_deliveries. simpl.
  apply list_elem_of_split in Hl as (l1 & l2 & ->).
  rewrite bind_app, bind_cons. unfold delivery at 2. rewrite He, Hp.
  by eexists _, _.
Qed.

(** The transport of a registration fails: the flag is set, and a listener
    of the channel with the same subscription and callback is registered and
    reads the local store once. *)
Lemma fail_snapshot_resubscribes (sub : Subscription) (cb id : nat) (w : World) :
  find (λ l, bool_decide (l_id l = id)) (snapshots w)
    = Some {| l_id := id; l_sub := sub; l_callback := cb |} →
  ∃ w',
    fail_snapshot id w = (Some (), w')
    ∧ useMock w' = true
    ∧ localStorage w' = localStorage w
    ∧ handlers w' = handlers w ++ [{| l_id := next_id w; l_sub := sub; l_callback := cb |}]
    ∧ calls w' = calls w ++ match view sub (localStorage w) with
                            | Some p => [(cb, p)]
                            | None => []
                            end.
Proof.
  intros Hfind. unfold fail_snapshot. exec. rewrite Hfind. simpl.
  unfold remote.cancel, db.onError, mockDb.subscribe, nexusChannel.addEventListener.
  exec. rewrite refresh_view. simpl.
  eexists. split; [reflexivity|]. by split_and!.
Qed.

(** ** Friend requests *)

Lemma sorted_join_comm a b : sorted_join a b = sorted_join b a.
Proof.
  unfold sorted_join, String.ltb.
  rewrite (String.compare_antisym a b).
  destruct (String.compare b a) eqn:Hba; simpl; try done.
  apply String.compare_eq_iff in Hba. by subst.
Qed.

(** On the local store an accepted request always appends a record. *)
Lemma mockDb_accept_appends requestId w idx :
  findIndex (λ r, bool_decide (r_id r = requestId)) (mock_requests (localStorage w)) = Some idx →
  ∃ req w',
    mock_requests (localStorage w) !! idx = Some req
    ∧ mockDb.handleFriendRequest requestId Accept w = (Some (), w')
    ∧ mock_friendships (localStorage w')
      = mock_friendships (localStorage w)
          ++ [{| f_id := sorted_join (r_fromId req) (r_toId req);
                 f_user1Id := r_fromId req; f_user2Id := r_toId req;
                 f_createdAt := clock w |}].
Proof.
  intros Hidx. destruct (findIndex_Some _ _ _ Hidx) as (req & Hreq & _).
  exists req. unfold mockDb.handleFriendRequest. exec. rewrite Hidx, Hreq. simpl.
  eexists. split; [done|]. split; [reflexivity|]. done.
Qed.

(** The try block of the remote path keys the record by the sorted pair. *)
Lemma cloud_accept_keyed requestId w req :
  faults w = [] →
  requests_col (firestore w) !! requestId = Some req →
  ∃ w',
    cloud.handleFriendRequest requestId Accept w = (Some (), w')
    ∧ requests_col (firestore w') = <[requestId := set_status req accepted]> (requests_col (firestore w))
    ∧ friendships_col (firestore w')
      = <[sorted_join (r_fromId req) (r_toId req) :=
            {| f_id := sorted_join (r_fromId req) (r_toId req);
               f_user1Id := r_fromId req; f_user2Id := r_toId req;
               f_createdAt := clock w |}]> (friendships_col (firestore w)).
Proof.
  intros Hf Hreq.
  unfold cloud.handleFriendRequest, remote.getDoc, remote.updateDoc, remote.setDoc, remote.call.
  exec. rewrite Hf. simpl. rewrite Hreq. simpl. rewrite Hf. simpl. rewrite Hreq. simpl.
  rewrite Hf. simpl. eexists. split; [reflexivity|]. done.
Qed.

Lemma cloud_reject requestId w req :
  faults w = [] →
  requests_col (firestore w) !! requestId = Some req →
  ∃ w',
    cloud.handleFriendRequest requestId Reject w = (Some (), w')
    ∧ requests_col (firestore w') = <[requestId := set_status req rejected]> (requests_col (firestore w))
    ∧ friendships_col (firestore w') = friendships_col (firestore w).
Proof.
  intros Hf Hreq.
  unfold cloud.handleFriendRequest, remote.getDoc, remote.updateDoc, remote.setDoc, remote.call.
  exec. rewrite Hf. simpl. rewrite Hreq. simpl. rewrite Hf. simpl. rewrite Hreq. simpl.
  eexists. split; [reflexivity|]. done.
Qed.

Lemma set_status_same req : set_status req (r_status req) = req.
Proof. by destruct req. Qed.

(** ** Cancelling a subscription *)

(** Cancelling a snapshot registration never touches the listeners of the
    channel. *)
Lemma cancelSnapshot_keeps_handlers id w :
  unsubscribe (cancelSnapshot id) w = (Some (), with_snapshots
    (List.filter (λ l, negb (bool_decide (l_id l = id))) (snapshots w)) w).
Proof. done. Qed.

(** In remote mode, when registering succeeds, the handle cancels the
    snapshot registration. *)
Lemma db_subscribe_remote sub cb w :
  useMock w = false →
  head (faults w) ≠ Some true →
  ∃ w',
    db.subscribe sub cb w = (Some (cancelSnapshot (next_id w)), w')
    ∧ snapshots w' = snapshots w ++ [{| l_id := next_id w; l_sub := sub; l_callback := cb |}]
    ∧ handlers w' = handlers w
    ∧ next_id w' = S (next_id w)
    ∧ useMock w' = false.
Proof.
  intros Hw Hf. unfold db.subscribe, remote.onSnapshot, remote.call. exec. rewrite Hw.
  destruct (faults w) as [|[] ?]; simpl in *; try done; by eexists.
Qed.

(** The same in general: after the failover of a subscription its handle
    leaves the local listener registered. *)
Lemma failover_leaks_listener sub cb w :
  useMock w = false →
  head (faults w) ≠ Some true →
  Forall (λ l, l_id l ≠ next_id w) (snapshots w) →
  ∃ h w1 w2 w3,
    db.subscribe sub cb w = (Some h, w1)
    ∧ fail_snapshot (next_id w) w1 = (Some (), w2)
    ∧ unsubscribe h w2 = (Some (), w3)
    ∧ {| l_id := S (next_id w); l_sub := sub; l_callback := cb |} ∈ handlers w3.
Proof.
  intros Hw Hf Hids.
  destruct (db_subscribe_remote sub cb w Hw Hf) as (w1 & Hsub & Hsnap & Hh & Hn & _).
  assert (find (λ l, bool_decide (l_id l = next_id w)) (snapshots w1)
          = Some {| l_id := next_id w; l_sub := sub; l_callback := cb |}) as Hfind.
  { rewrite Hsnap. clear -Hids. induction Hids as [|l ls Hl _ IH]; simpl.
    - by rewrite bool_decide_eq_true_2.
    - by rewrite bool_decide_eq_false_2. }
  destruct (fail_snapshot_resubscribes _ _ _ _ Hfind)
    as (w2 & Hfail & _ & _ & Hh2 & _).
  eexists _, w1, w2, _. split_and!; [done | done | apply cancelSnapshot_keeps_handlers |].
  simpl. rewrite Hh2, Hn. apply elem_of_app. right. left.
Qed.

(** Without a failover the handle of a remote subscription does end the
    deliveries: the registration is gone and a snapshot pushed to it reaches
    nobody. *)
Lemma db_unsubscribe_remote_releases sub cb w :
  useMock w = false →
  head (faults w) ≠ Some true →
  Forall (λ l, l_id l ≠ next_id w) (snapshots w) →
  ∃ h w1 w2,
    db.subscribe sub cb w = (Some h, w1)
    ∧ unsubscribe h w1 = (Some (), w2)
    ∧ snapshots w2 = snapshots w
    ∧ handlers w2 = handlers w
    ∧ push_snapshot (next_id w) w2 = (Some (), w2).
Proof.
  intros Hw Hf Hids.
  destruct (db_subscribe_remote sub cb w Hw Hf) as (w1 & Hsub & Hsnap & Hh & _).
  assert (List.filter (λ l, negb (bool_decide (l_id l = next_id w))) (snapshots w1)
          = snapshots w) as Hgone.
  { rewrite Hsnap, List.filter_app. simpl. rewrite bool_decide_eq_true_2 by done. simpl.
    rewrite app_nil_r. clear -Hids. induction Hids as [|l ls Hl _ IH]; simpl; [done|].
    rewrite bool_decide_eq_false_2 by done. simpl. by rewrite IH. }
  eexists _, w1, _. split_and!; [done | apply cancelSnapshot_keeps_handlers | done..|].
  unfold push_snapshot. exec. rewrite Hgone.
  assert (find (λ l, bool_decide (l_id l = next_id w)) (snapshots w) = None) as ->; [|done].
  apply find_None. intros l Hl. apply bool_decide_eq_false.
  by eapply List.Forall_forall in Hids; [|by apply list_elem_of_In].
Qed.

(** On the local store the handle does release the listener. *)
Lemma mockDb_unsubscribe_releases sub cb w :
  Forall (λ l, l_id l ≠ next_id w) (handlers w) →
  ∃ h w1 w2,
    mockDb.subscribe sub cb w = (Some h, w1)
    ∧ unsubscribe h w1 = (Some (), w2)
    ∧ handlers w2 = handlers w.
Proof.
  intros Hids. unfold mockDb.subscribe, nexusChannel.addEventListener. exec.
  rewrite refresh_view. simpl. eexists _, _, _. split; [reflexivity|].
  split; [reflexivity|]. simpl.
  rewrite List.filter_app. simpl. rewrite bool_decide_eq_true_2 by done. simpl.
  rewrite app_nil_r. clear -Hids. induction Hids as [|l ls Hl _ IH]; simpl; [done|].
  rewrite bool_decide_eq_false_2 by done. simpl. by rewrite IH.
Qed.

(** ** Read receipts *)

Global Instance read_kept_preorder : PreOrder read_kept.
Proof. split; unfold read_kept; [intros ?; auto | intros ? ? ?; auto]. Qed.

Global Instance remote_read_kept_preorder : PreOrder remote_read_kept.
Proof. split; unfold remote_read_kept; [intros ?; auto | intros ? ? ?; auto]. Qed.

Lemma set_isRead_same m : set_isRead m (m_isRead m) = m.
Proof. by destruct m. Qed.

Lemma found_success (l r : M (option User)) w v w1 :
  useMock w = false → found r w = (Some v, w1) →
  found (db.if_useMock l (try_catch r (db.demote ;; l))) w = (Some v, w1).
Proof.
  unfold found, db.if_useMock, try_catch, db.demote, update, mbind, M_bind, mret, M_ret.
  intros -> Hr. destruct (r w) as [[a|] w']; simplify_eq. done.
Qed.

Lemma done_success (l r : M unit) w v w1 :
  useMock w = false → done_ r w = (Some v, w1) →
  done_ (db.if_useMock l (try_catch r (db.demote ;; l))) w = (Some v, w1).
Proof.
  unfold done_, db.if_useMock, try_catch, db.demote, update, mbind, M_bind, mret, M_ret.
  intros -> Hr. destruct (r w) as [[a|] w']; simplify_eq. done.
Qed.

(** The facade is the simulated database when the flag is set; otherwise it
    is the try block, and the simulated database from the world of the throw
    with the flag set when the try block throws. *)
Lemma db_run_unfold o w :
  db_run o w =
    if useMock w then mockDb_run o w
    else match cloud_run o w with
         | (Some v, w') => (Some v, w')
         | (None, w1) => mockDb_run o (with_useMock true w1)
         end.
Proof.
  destruct (useMock w) eqn:Hw.
  - by apply local_mode_dispatch.
  - destruct (cloud_run o w) as [[v|] w1] eqn:Hr; [|by apply db_run_failover].
    destruct o; simpl in *; first [by apply found_success | by apply done_success].
Qed.

Lemma marked_read userId senderId m : m_isRead m = true → marked userId senderId m = m.
Proof.
  intros Hm. unfold marked. case_match; [|done]. by rewrite <-Hm, set_isRead_same.
Qed.

Lemma mark_unread_marked userId senderId (l : list Message) :
  (λ m, if bool_decide (m_receiverId m = userId) && bool_decide (m_senderId m = senderId)
           && negb (m_isRead m)
        then set_isRead m true else m) <$> l
  = marked userId senderId <$> l.
Proof.
  apply list_fmap_ext. intros _ m _.
  destruct (m_isRead m) eqn:Hm.
  - rewrite marked_read by done. by rewrite andb_false_r.
  - unfold marked. by rewrite andb_true_r.
Qed.

Lemma none_unread_marked userId senderId (l : list Message) :
  some (λ m, bool_decide (m_receiverId m = userId) && bool_decide (m_senderId m = senderId)
             && negb (m_isRead m)) l = false →
  marked userId senderId <$> l = l.
Proof.
  unfold some. induction l as [|m l IH]; [done|].
  intros H. simpl in H. apply orb_false_iff in H as [Hm Hl].
  rewrite fmap_cons, IH by done. f_equal.
  unfold marked. destruct (m_isRead m) eqn:Hr.
  - case_match; [|done]. by rewrite <-Hr, set_isRead_same.
  - rewrite andb_true_r in Hm. by rewrite Hm.
Qed.

Lemma mockDb_markMessagesAsRead_marked userId senderId w :
  ∃ w',
    mockDb.markMessagesAsRead userId senderId w = (Some (), w')
    ∧ mock_messages (localStorage w')
      = marked userId senderId <$> mock_messages (localStorage w).
Proof.
  unfold mockDb.markMessagesAsRead. exec.
  destruct (some _ _) eqn:Hsome; simpl.
  - eexists. split; [reflexivity|]. simpl. apply mark_unread_marked.
  - eexists. split; [reflexivity|]. by rewrite none_unread_marked.
Qed.

Lemma mockDb_run_read_kept o : preserves read_kept (mockDb_run o).
Proof.
  destruct o.
  1-4,7-8: unfold_mockDb; steps; try (by unfold read_kept).
  - (* sendMessage *)
    intros w. unfold_mockDb. exec. intros i m Hi _. simpl. by apply lookup_app_l_Some.
  - (* markMessagesAsRead *)
    intros w. simpl. unfold done_, mbind, M_bind.
    destruct (mockDb_markMessagesAsRead_marked userId senderId w) as (w' & -> & Hw').
    simpl. intros i m Hi Hm. rewrite Hw', list_lookup_fmap, Hi. simpl.
    by rewrite marked_read.
Qed.

Lemma local_untouched_read_kept w w' : local_untouched w w' → read_kept w w'.
Proof. intros (Hls & _) i m. by rewrite Hls. Qed.

Lemma remote_untouched_remote_read_kept w w' : remote_untouched w w' → remote_read_kept w w'.
Proof. intros (_ & Hfs & _) id m. by rewrite Hfs. Qed.

Lemma db_run_read_kept o : preserves read_kept (db_run o).
Proof.
  intros w. rewrite db_run_unfold. destruct (useMock w); [apply mockDb_run_read_kept|].
  pose proof (cloud_run_local_untouched o w) as Hc%local_untouched_read_kept.
  destruct (cloud_run o w) as [[v|] w1]; simpl in *; [done|].
  etrans; [exact Hc|]. apply (mockDb_run_read_kept o (with_useMock true w1)).
Qed.

Lemma call_remote_read_kept : preserves remote_read_kept remote.call.
Proof. intros w. unfold remote.call. destruct (faults w) as [|[] ?]; by unfold remote_read_kept. Qed.

Lemma commit_read_kept (ids : list string) (c : gmap string Message) id m :
  c !! id = Some m → m_isRead m = true →
  foldl (λ c id, alter (λ m, set_isRead m true) id c) c ids !! id = Some m.
Proof.
  revert c. induction ids as [|id' ids IH]; intros c Hc Hm; simpl; [done|].
  apply IH; [|done]. destruct (decide (id' = id)) as [->|Hne].
  - rewrite lookup_alter_eq, Hc. simpl. by rewrite <-Hm, set_isRead_same.
  - by rewrite lookup_alter_ne.
Qed.

Lemma cloud_run_messages_kept o :
  (∀ msg, o ≠ SendMessage msg) → (∀ userId senderId, o ≠ MarkMessagesAsRead userId senderId) →
  preserves remote_read_kept (cloud_run o).
Proof.
  intros H1 H2. destruct o; try congruence.
  all: repeat (unfold_db; unfold Date_now; steps; try apply call_remote_read_kept).
  all: by unfold remote_read_kept.
Qed.

Lemma call_cases w : ∃ r rest, remote.call w = (r, with_faults rest w).
Proof.
  unfold remote.call. destruct w as [? ? ? ? ? ? [|[] rest] ? ? ?]; simpl; by eexists _, _.
Qed.

Ltac round_trip :=
  match goal with
  | |- context [remote.call ?w] =>
      let r := fresh "r" in
      destruct (call_cases w) as ([[]|] & ? & ->); simpl
  end.

Lemma cloud_run_remote_read_kept o w :
  sends_fresh_id o w → remote_read_kept w (cloud_run o w).2.
Proof.
  intros Hfresh.
  destruct o; try (by apply cloud_run_messages_kept).
  - (* sendMessage *)
    specialize (Hfresh msg eq_refl). simpl.
    unfold done_, cloud.sendMessage, remote.setDoc. exec.
    round_trip; intros id m Hid Hm; simpl; try done.
    rewrite lookup_insert_ne; [done | congruence].
  - (* markMessagesAsRead *)
    simpl. unfold done_, cloud.markMessagesAsRead, remote.getDocs, remote.commit.
    exec. round_trip; try (by unfold remote_read_kept).
    round_trip; try (by unfold remote_read_kept).
    destruct (forallb _ _); simpl; try (by unfold remote_read_kept).
    intros id m Hid Hm; simpl; by apply commit_read_kept.
Qed.

Lemma db_run_remote_read_kept o w :
  sends_fresh_id o w → remote_read_kept w (db_run o w).2.
Proof.
  intros Hfresh. rewrite db_run_unfold. destruct (useMock w).
  { apply remote_untouched_remote_read_kept, mockDb_run_remote_untouched. }
  pose proof (cloud_run_remote_read_kept o w Hfresh) as Hc.
  destruct (cloud_run o w) as [[v|] w1]; simpl in *; [done|].
  etrans; [exact Hc|].
  apply (remote_untouched_remote_read_kept (with_useMock true w1)).
  apply (mockDb_run_remote_untouched o (with_useMock true w1)).
Qed.

Lemma foldl_alter_lookup {V} (patch : V → V) (ids : list string) (c : gmap string V) id :
  (∀ v, patch (patch v) = patch v) →
  foldl (λ c id, alter patch id c) c ids !! id
  = if bool_decide (id ∈ ids) then patch <$> c !! id else c !! id.
Proof.
  intros Hidem. revert c. induction ids as [|id' ids IH]; intros c; simpl; [done|].
  rewrite IH. destruct (decide (id' = id)) as [->|Hne].
  - rewrite lookup_alter_eq. rewrite (bool_decide_eq_true_2 (id ∈ id :: ids)) by left.
    destruct (c !! id) as [v|]; simpl; [|by case_bool_decide].
    case_bool_decide; simpl; by rewrite ?Hidem.
  - rewrite lookup_alter_ne by done.
    rewrite (bool_decide_ext (id ∈ id' :: ids) (id ∈ ids)); [done|].
    rewrite elem_of_cons. split; [intros [?|?]; [congruence | done] | by right].
Qed.

Lemma cloud_markMessagesAsRead_marked userId senderId w :
  faults w = [] →
  ∃ w',
    cloud.markMessagesAsRead userId senderId w = (Some (), w')
    ∧ messages_col (firestore w') = marked userId senderId <$> messages_col (firestore w).
Proof.
  intros Hf. unfold cloud.markMessagesAsRead, remote.getDocs, remote.commit, remote.call.
  exec. rewrite Hf. simpl. rewrite Hf. simpl.
  set (unread := λ d : string * Message, _).
  set (ids := (List.filter unread _).*1).
  assert (∀ id, id ∈ ids ↔ ∃ m, messages_col (firestore w) !! id = Some m ∧ unread (id, m) = true)
    as Hids.
  { intros id. unfold ids. rewrite list_elem_of_fmap. split.
    - intros ([id' m] & -> & Hin). apply list_elem_of_In, filter_In in Hin as [Hin Hu].
      exists m. split; [|done]. by apply elem_of_docs, list_elem_of_In.
    - intros (m & Hm & Hu). exists (id, m). split; [done|].
      apply list_elem_of_In, filter_In. split; [|done].
      by apply list_elem_of_In, elem_of_docs. }
  assert (forallb (λ id, bool_decide (is_Some (messages_col (firestore w) !! id))) ids = true) as ->.
  { apply forallb_forall. intros id Hid%list_elem_of_In%Hids. destruct Hid as (m & -> & _).
    by apply bool_decide_eq_true. }
  eexists. split; [reflexivity|]. simpl. apply map_eq. intros id.
  rewrite foldl_alter_lookup by done. rewrite lookup_fmap.
  destruct (messages_col (firestore w) !! id) as [m|] eqn:Hm; simpl.
  - case_bool_decide as Hin.
    + apply Hids in Hin as (m' & Hm' & Hu). simplify_eq. f_equal.
      unfold unread in Hu. simpl in Hu. unfold marked.
      apply andb_true_iff in Hu as [-> _]. done.
    + f_equal. unfold marked. destruct (_ && _) eqn:Hcond; [|done].
      destruct (m_isRead m) eqn:Hr; [by rewrite <-Hr, set_isRead_same|].
      exfalso. apply Hin, Hids. exists m. split; [done|]. unfold unread. simpl.
      rewrite Hcond. by apply bool_decide_eq_true.
  - by case_bool_decide.
Qed.

(** ** Registration *)

(** On the local store a registration is refused whenever a user holds the
    name up to letter case, and nothing is written. *)
Lemma local_registration_conflict (f : AuthScreen.Form) (randomUUID : string) (w : World) (u : User) :
  useMock w = true →
  AuthScreen.isRegistering f = true →
  AuthScreen.username f ≠ ""%string → AuthScreen.password f ≠ ""%string →
  u ∈ mock_users (localStorage w) →
  toLowerCase (u_username u) = toLowerCase (AuthScreen.username f) →
  AuthScreen.handleAuth f randomUUID w = (Some (AuthScreen.Error "Username already taken."), w).
Proof.
  intros Hw Hreg Hu Hp Hin Hlow. unfold AuthScreen.handleAuth.
  rewrite !bool_decide_eq_false_2 by done. simpl. rewrite Hreg.
  unfold AuthScreen.register, db.getUserByUsername, mockDb.getUserByUsername. exec.
  rewrite Hw. simpl.
  destruct (find _ _) as [u'|] eqn:Hfind; simpl; [done|].
  eapply find_None in Hfind; [|exact Hin]. by apply bool_decide_eq_false in Hfind.
Qed.

(** ** Notices about changes *)

Global Instance Collection_eq_dec key : EqDecision (Collection key).
Proof. destruct key; unfold Collection; simpl; apply _. Defined.

Global Instance announced_preorder : PreOrder announced.
Proof.
  split.
  - intros w. exists []. split; [by rewrite app_nil_r | done].
  - intros x y z (n1 & H1 & A1) (n2 & H2 & A2). exists (n1 ++ n2). split.
    + by rewrite H2, H1, app_assoc.
    + intros key Hk. apply elem_of_app.
      destruct (decide (getItem key (localStorage y) = getItem key (localStorage x))) as [Heq|Hne].
      * right. apply A2. by rewrite Heq.
      * left. by apply A1.
Qed.

Lemma announces_concerns sub e : announces sub e → mockDb.concerns sub e = true.
Proof.
  destruct sub; simpl.
  - intros [-> | [updates ->]]; [done | by apply bool_decide_eq_true].
  - by intros [-> | ->].
  - by intros [-> | [msg ->]].
  - by intros ->.
Qed.

Lemma concerns_announces sub e : mockDb.concerns sub e = true → announces sub e.
Proof.
  destruct sub, e as [[]| |]; simpl; try done; auto.
  - intros ->%bool_decide_eq_true. right. by eexists.
  - right. by eexists.
Qed.

Lemma getItem_setItem key data ls : getItem key (setItem key data ls) = data.
Proof. by destruct key. Qed.

Lemma getItem_setItem_ne key key' data ls :
  key' ≠ key → getItem key' (setItem key data ls) = getItem key' ls.
Proof. by destruct key, key'. Qed.

Lemma set_announced key data : preserves announced (mockStore.set key data).
Proof.
  intros w. unfold mockStore.set. exec. exists [sync key]. split; [done|].
  intros key' Hk. apply list_elem_of_singleton. f_equal.
  destruct (decide (key' = key)) as [->|Hne]; [done|].
  change (getItem key' (setItem key data (localStorage w)) ≠ getItem key' (localStorage w)) in Hk.
  by rewrite getItem_setItem_ne in Hk.
Qed.

Lemma postMessage_announced e : preserves announced (nexusChannel.postMessage e).
Proof. intros w. exists [e]. by split. Qed.

Lemma get_announced key : preserves announced (mockStore.get key).
Proof. intros w. reflexivity. Qed.

Lemma local_untouched_announced w w' : local_untouched w w' → announced w w'.
Proof.
  intros (Hls & Hp & _). exists []. rewrite Hp, Hls, app_nil_r. by split.
Qed.

(** Breaks an operation of the simulated database down to its reads and
    writes of [mockStore]. *)
Ltac announce :=
  repeat first
    [ lazymatch goal with
      | |- preserves _ (mockStore.set ?key ?data) => apply (set_announced key data)
      | |- preserves _ (mockStore.get ?key) => apply (get_announced key)
      | |- preserves _ (nexusChannel.postMessage ?e) => apply (postMessage_announced e)
      end
    | step ].

Lemma mockDb_run_announced o : preserves announced (mockDb_run o).
Proof.
  destruct o;
    unfold mockDb_run, found, done_, mockDb.getUser, mockDb.getUserByUsername,
      mockDb.saveUser, mockDb.updateUserStatus, mockDb.sendMessage,
      mockDb.markMessagesAsRead, mockDb.sendFriendRequest, mockDb.handleFriendRequest,
      Date_now;
    announce.
Qed.

Lemma db_run_announced o : preserves announced (db_run o).
Proof.
  intros w. rewrite db_run_unfold. destruct (useMock w); [apply mockDb_run_announced|].
  pose proof (cloud_run_local_untouched o w) as Hc.
  destruct (cloud_run o w) as [[v|] w1]; simpl in *.
  - by apply local_untouched_announced.
  - etrans; [by apply local_untouched_announced|].
    etrans; [|apply mockDb_run_announced].
    exists []. rewrite app_nil_r. by split.
Qed.

(** When what a subscription shows has changed, one of the notices posted
    concerns it. *)
Lemma announced_view sub w w' :
  announced w w' →
  view sub (localStorage w') ≠ view sub (localStorage w) →
  ∃ e, e ∈ drop (length (posted w)) (posted w') ∧ announces sub e.
Proof.
  intros (new & Hp & Ha) Hv. rewrite Hp, drop_app_length.
  assert (∀ key, getItem key (localStorage w') ≠ getItem key (localStorage w) →
                 announces sub (sync key) → ∃ e, e ∈ new ∧ announces sub e) as Hkey.
  { intros key Hk Hs. exists (sync key). split; [by apply Ha | done]. }
  destruct sub as [userId|userId|userId friendId|userId]; simpl in Hv.
  - apply (Hkey users); [|by left]. simpl. intros Heq. by rewrite Heq in Hv.
  - destruct (decide (mock_users (localStorage w') = mock_users (localStorage w))) as [Hu|Hu].
    + apply (Hkey friendships); [|by left]. simpl. intros Heq. by rewrite Heq, Hu in Hv.
    + apply (Hkey users); [done | by right].
  - apply (Hkey messages); [|by left]. simpl. intros Heq. by rewrite Heq in Hv.
  - apply (Hkey requests); [|done]. simpl. intros Heq. by rewrite Heq in Hv.
Qed.

(** ** A storage that refuses a write *)


Lemma bounded_set_unbounded accepts key data :
  (∀ ls, accepts ls = true) →
  ∀ w, bounded.mockStore.set accepts key data w = mockStore.set key data w.
Proof. intros Hall w. unfold bounded.mockStore.set. exec. by rewrite Hall. Qed.

Lemma bounded_mockDb_run_unbounded accepts o :
  (∀ ls, accepts ls = true) →
  ∀ w, bounded.mockDb_run accepts o w = mockDb_run o w.
Proof.
  intros Hall w.
  destruct o; try done; unfold bounded.mockDb_run, mockDb_run, done_,
    bounded.mockDb.saveUser, bounded.mockDb.updateUserStatus, bounded.mockDb.sendMessage,
    bounded.mockDb.markMessagesAsRead, bounded.mockDb.sendFriendRequest,
    bounded.mockDb.handleFriendRequest,
    mockDb.saveUser, mockDb.updateUserStatus, mockDb.sendMessage,
    mockDb.markMessagesAsRead, mockDb.sendFriendRequest, mockDb.handleFriendRequest,
    bounded.mockStore.set;
    exec;
    repeat match goal with
    | |- context [accepts ?x] => rewrite (Hall x); exec
    | |- context [match findIndex ?p ?l with _ => _ end] => destruct (findIndex p l); exec
    | |- context [match ?l !! ?i with _ => _ end] => destruct (l !! i); exec
    | |- context [if some ?p ?l then _ else _] => destruct (some p l); exec
    | |- context [if bool_decide ?P then _ else _] => destruct (bool_decide P); exec
    end; done.
Qed.


Lemma bounded_db_run_failover accepts o w w1 :
  useMock w = false → cloud_run o w = (None, w1) →
  bounded.db_run accepts o w = bounded.mockDb_run accepts o (with_useMock true w1).
Proof.
  intros Hw Hr. destruct o; simpl in *;
    first [by apply found_failover | by apply done_failover].
Qed.


(** The facade over a storage that can refuse a write has the shape of the
    facade: the simulated database when the flag is set; otherwise the try
    block, and the simulated database from the world of the throw. *)
Lemma bounded_db_run_unfold accepts o w :
  bounded.db_run accepts o w =
    if useMock w then bounded.mockDb_run accepts o w
    else match cloud_run o w with
         | (Some v, w') => (Some v, w')
         | (None, w1) => bounded.mockDb_run accepts o (with_useMock true w1)
         end.
Proof.
  destruct (useMock w) eqn:Hw.
  - destruct o; unfold bounded.db_run, bounded.mockDb_run, found, done_,
      db.getUser, db.getUserByUsername, bounded.db.saveUser, bounded.db.updateUserStatus,
      bounded.db.sendMessage, bounded.db.markMessagesAsRead, bounded.db.sendFriendRequest,
      bounded.db.handleFriendRequest, db.if_useMock, mbind, M_bind; by rewrite Hw.
  - destruct (cloud_run o w) as [[v|] w1] eqn:Hr; [|by apply bounded_db_run_failover].
    destruct o; simpl in *; first [by apply found_success | by apply done_success].
Qed.

(** In a browser that takes every write it is the facade. *)
Lemma bounded_db_run_unbounded accepts o :
  (∀ ls, accepts ls = true) →
  ∀ w, bounded.db_run accepts o w = db_run o w.
Proof.
  intros Hall w. rewrite bounded_db_run_unfold, db_run_unfold.
  rewrite !(bounded_mockDb_run_unbounded accepts o Hall).
  destruct (useMock w); [done|].
  destruct (cloud_run o w) as [[v|] w1]; [done|].
  by rewrite (bounded_mockDb_run_unbounded accepts o Hall).
Qed.


(** * The claims *)

(** C1 (fails on the local store).  At most one Friendship record per pair:
    on the local store, accepting the same request twice, or accepting the
    requests of both directions, leaves two records with the one id
    ["u-alice_u-bob"]; the remote path, which writes the document under that
    id, leaves one. *)
Theorem local_acceptance_duplicates_friendship :
  f_id <$> mock_friendships (localStorage
      (run [Call (HandleFriendRequest "r1" Accept); Call (HandleFriendRequest "r1" Accept)]
           (start true local_requests no_firestore [])))
    = ["u-alice_u-bob"; "u-alice_u-bob"]
  ∧ f_id <$> mock_friendships (localStorage
      (run [Call (HandleFriendRequest "r1" Accept); Call (HandleFriendRequest "r2" Accept)]
           (start true local_requests no_firestore [])))
    = ["u-alice_u-bob"; "u-alice_u-bob"]
  ∧ (fst <$> map_to_list (friendships_col (firestore
      (run [Call (HandleFriendRequest "r1" Accept); Call (HandleFriendRequest "r1" Accept);
            Call (HandleFriendRequest "r2" Accept)]
           (start false no_storage remote_requests [])))))
    = ["u-alice_u-bob"].
Proof. split_and!; vm_compute; reflexivity. Qed.

(** C2 as stated does not hold: rejecting the accepted request of Alice
    changes its status in the store. *)
Lemma reresolving_changes_the_status : ¬ reresolving_is_a_noop.
Proof.
  intros H.
  destruct (H (start true accepted_request no_firestore []) "r1"%string Reject)
    as (w' & Hrun & Hsame).
  { exists 0%nat, (set_status alice_to_bob accepted). by split_and!. }
  vm_compute in Hrun. injection Hrun as <-. vm_compute in Hsame. discriminate Hsame.
Qed.

(** C2 (amended).  [handleFriendRequest] on a request of the local store is
    never an error and does not look at the current status: it writes the
    status it is given, which is never [pending]; so the requests are left as
    they were when the request already had that status, the friendships are
    left as they were when the status is [rejected], and the users and the
    messages always are. *)
Theorem handleFriendRequest_overwrites_status
    (requestId : string) (status : Resolution) (w : World) (idx : nat) :
  findIndex (λ r, bool_decide (r_id r = requestId)) (mock_requests (localStorage w)) = Some idx →
  ∃ req w',
    mock_requests (localStorage w) !! idx = Some req
    ∧ mockDb.handleFriendRequest requestId status w = (Some (), w')
    ∧ mock_requests (localStorage w')
      = <[idx := set_status req (resolved status)]> (mock_requests (localStorage w))
    ∧ mock_requests (localStorage w') !! idx = Some (set_status req (resolved status))
    ∧ resolved status ≠ pending
    ∧ (r_status req = resolved status →
       mock_requests (localStorage w') = mock_requests (localStorage w))
    ∧ (status = Reject →
       mock_friendships (localStorage w') = mock_friendships (localStorage w))
    ∧ mock_users (localStorage w') = mock_users (localStorage w)
    ∧ mock_messages (localStorage w') = mock_messages (localStorage w).
Proof.
  intros Hidx. destruct (findIndex_Some _ _ _ Hidx) as (req & Hreq & _).
  exists req. unfold mockDb.handleFriendRequest. exec. rewrite Hidx, Hreq. simpl.
  destruct status; simpl; (eexists; split; [done|]; split; [reflexivity|]); simpl.
  all: split_and!; try done.
  all: try (apply list_lookup_insert_eq; by eapply lookup_lt_Some).
  all: intros <-; rewrite set_status_same; by apply list_insert_id.
Qed.

Lemma handleFriendRequest_overwrites_status_witness :
  findIndex (λ r, bool_decide (r_id r = "r1"%string))
    (mock_requests (localStorage (start true accepted_request no_firestore []))) = Some 0%nat
  ∧ ∃ req w',
      mock_requests (localStorage (start true accepted_request no_firestore [])) !! 0%nat
        = Some req
      ∧ mockDb.handleFriendRequest "r1" Reject (start true accepted_request no_firestore [])
        = (Some (), w')
      ∧ mock_requests (localStorage w') !! 0%nat = Some (set_status req rejected).
Proof.
  split; [reflexivity|].
  destruct (handleFriendRequest_overwrites_status "r1" Reject
              (start true accepted_request no_firestore []) 0 eq_refl)
    as (req & w' & H1 & H2 & _ & H4 & _).
  exists req, w'. split_and!; [exact H1 | exact H2 | exact H4].
Defined.

(** C3.  When the transport of a remote subscription fails, its error
    handler sets the flag, registers on the channel a listener with the same
    subscription and the same callback, and hands the callback what the local
    store holds.  From then on, as long as that listener is registered, each
    notice that announces a change of what the subscription shows (for a user,
    a notice about the users or an update of that user; for the friends, a
    notice about the friendships or the users; for a conversation, a notice
    about the messages or a new message; for the incoming requests, a notice
    about the requests) makes the callback receive what the local store holds
    at that time; and whenever an operation of the facade, run by any tab on
    the same storage, changes what the subscription shows, one of the notices
    that operation posts makes the callback receive the new content.  The
    caller does nothing. *)
Theorem transport_failure_resubscribes_locally
    (sub : Subscription) (cb id : nat) (w : World) :
  find (λ l, bool_decide (l_id l = id)) (snapshots w)
    = Some {| l_id := id; l_sub := sub; l_callback := cb |} →
  ∃ w',
    fail_snapshot id w = (Some (), w')
    ∧ useMock w' = true
    ∧ localStorage w' = localStorage w
    ∧ handlers w' = handlers w ++ [{| l_id := next_id w; l_sub := sub; l_callback := cb |}]
    ∧ calls w' = calls w ++ match view sub (localStorage w) with
                            | Some p => [(cb, p)]
                            | None => []
                            end
    ∧ (∀ (later : World) (e : ChannelMsg) (p : Payload),
         {| l_id := next_id w; l_sub := sub; l_callback := cb |} ∈ handlers later →
         announces sub e →
         view sub (localStorage later) = Some p →
         ∃ before after,
           calls (dispatch e later).2 = calls later ++ before ++ [(cb, p)] ++ after)
    ∧ (∀ (later tab : World) (o : Operation) (p : Payload),
         {| l_id := next_id w; l_sub := sub; l_callback := cb |} ∈ handlers later →
         localStorage tab = localStorage later →
         view sub (localStorage (db_run o tab).2) ≠ view sub (localStorage later) →
         view sub (localStorage (db_run o tab).2) = Some p →
         ∃ e before after,
           e ∈ drop (length (posted tab)) (posted (db_run o tab).2)
           ∧ calls (dispatch e (with_localStorage (localStorage (db_run o tab).2) later)).2
             = calls later ++ before ++ [(cb, p)] ++ after).
Proof.
  intros Hfind.
  destruct (fail_snapshot_resubscribes sub cb id w Hfind) as (w' & H1 & H2 & H3 & H4 & H5).
  exists w'. split_and!; try done.
  - intros later e p Hl He Hp.
    by apply (listener_delivers _ _ _ _ Hl (announces_concerns _ _ He) Hp).
  - intros later tab o p Hl Hshared Hchanged Hp.
    rewrite <-Hshared in Hchanged.
    destruct (announced_view sub tab _ (db_run_announced o tab) Hchanged) as (e & He & Ha).
    exists e.
    destruct (listener_delivers _ e p
                (with_localStorage (localStorage (db_run o tab).2) later) Hl
                (announces_concerns _ _ Ha) Hp) as (before & after & Hcalls).
    by exists before, after.
Qed.

Lemma transport_failure_resubscribes_locally_witness :
  let w := run [Subscribe (ToMessages "u-alice" "u-bob") 3]
               (start false local_chat remote_chat []) in
  let l := {| l_id := 1; l_sub := ToMessages "u-alice" "u-bob"; l_callback := 3 |} in
  find (λ l, bool_decide (l_id l = 0%nat)) (snapshots w)
    = Some {| l_id := 0; l_sub := ToMessages "u-alice" "u-bob"; l_callback := 3 |}
  ∧ ∃ w',
      fail_snapshot 0 w = (Some (), w')
      ∧ useMock w' = true
      ∧ handlers w' = [l]
      ∧ calls w' = [(3%nat, Conversation [first_message; second_message; third_message])]
      ∧ (view (ToMessages "u-alice" "u-bob")
              (localStorage (db_run (SendMessage fourth_message) w').2)
           ≠ view (ToMessages "u-alice" "u-bob") (localStorage w'))
      ∧ ∃ e before after,
          e ∈ drop (length (posted w')) (posted (db_run (SendMessage fourth_message) w').2)
          ∧ calls (dispatch e
                     (with_localStorage
                        (localStorage (db_run (SendMessage fourth_message) w').2) w')).2
            = calls w' ++ before
              ++ [(3%nat, Conversation [first_message; second_message; third_message;
                                        fourth_message])]
              ++ after.
Proof.
  split; [reflexivity|].
  destruct (transport_failure_resubscribes_locally (ToMessages "u-alice" "u-bob") 3 0
              (run [Subscribe (ToMessages "u-alice" "u-bob") 3]
                   (start false local_chat remote_chat [])) eq_refl)
    as (w' & H1 & H2 & H3 & H4 & H5 & _ & H7).
  exists w'. split; [exact H1|]. split; [exact H2|]. split; [exact H4|]. split; [exact H5|].
  assert (localStorage (db_run (SendMessage fourth_message) w').2
          = setItem messages [third_message; first_message; second_message; fourth_message]
              local_chat) as Hls.
  { rewrite db_run_unfold, H2. simpl.
    unfold done_, mockDb.sendMessage, mockStore.set, mockStore.get. exec. by rewrite H3. }
  assert (view (ToMessages "u-alice" "u-bob")
               (localStorage (db_run (SendMessage fourth_message) w').2)
          ≠ view (ToMessages "u-alice" "u-bob") (localStorage w')) as Hchanged.
  { rewrite Hls, H3. vm_compute. discriminate. }
  split; [exact Hchanged|].
  apply (H7 w' w' (SendMessage fourth_message)
           (Conversation [first_message; second_message; third_message; fourth_message])).
  - rewrite H4. apply list_elem_of_singleton. reflexivity.
  - reflexivity.
  - exact Hchanged.
  - rewrite Hls. vm_compute. reflexivity.
Defined.

(** C4 (fails after a failover).  A subscription to Alice is opened in
    remote mode and its transport fails; the handle the caller holds cancels
    the snapshot registration only, so after it is called the listener that
    the error handler registered is still on the channel, and the next
    message about the users makes the callback run again. *)
Theorem unsubscribe_after_failover_keeps_listener :
  let w0 := start false local_users remote_users [] in
  let w1 := run [Subscribe (ToUser "u-alice") 7; TransportError 0] w0 in
  let w2 := run [Unsub (cancelSnapshot 0)] w1 in
  let w3 := run [ChannelEvent (sync users)] w2 in
  (db.subscribe (ToUser "u-alice") 7 w0).1 = Some (cancelSnapshot 0)
  ∧ handlers w2 = [{| l_id := 1; l_sub := ToUser "u-alice"; l_callback := 7 |}]
  ∧ snapshots w2 = []
  ∧ calls w3 = calls w2 ++ [(7%nat, OneUser alice)].
Proof. vm_compute. done. Qed.

(** C5.  Once the flag is set it stays set whatever happens next (calls of
    the facade, subscriptions, cancellations, channel messages, snapshots,
    transport errors, writes of other clients and tabs), and every operation
    and every subscription of the facade is then the one of the simulated
    database. *)
Theorem local_mode_is_terminal (actions : list Action) (w : World) :
  useMock w = true →
  useMock (run actions w) = true ∧ dispatched_locally (run actions w).
Proof.
  intros Hw.
  assert (useMock (run actions w) = true) by by apply run_flag_kept.
  split; [done | by apply local_mode_dispatch].
Qed.

Lemma local_mode_is_terminal_witness :
  useMock (start true local_chat remote_chat []) = true
  ∧ useMock (run session (start true local_chat remote_chat [])) = true
  ∧ dispatched_locally (run session (start true local_chat remote_chat [])).
Proof.
  split; [reflexivity|].
  apply (local_mode_is_terminal session (start true local_chat remote_chat [])).
  reflexivity.
Defined.




(** C7.  Whatever the order of the messages in the store, the array that
    the conversation subscription of [A] and [B] hands to its callback (by
    [refresh] on the local store, at subscription time and on every channel
    message; by [onNext] on a snapshot of the remote store) is in ascending
    order of [timestamp] and holds exactly the messages of the store that were
    exchanged between [A] and [B] in either direction. *)
Theorem conversation_sorted_by_timestamp (A B : string) (cb : nat) (w : World) :
  (∃ l,
     mockDb.refresh (ToMessages A B) cb w
       = (Some (), with_calls (calls w ++ [(cb, Conversation l)]) w)
     ∧ Sorted ascending l
     ∧ Permutation l (List.filter (mockDb.between A B) (mock_messages (localStorage w)))
     ∧ ∀ m, m ∈ l ↔ m ∈ mock_messages (localStorage w) ∧ exchanged A B m)
  ∧ (∃ l,
     db.onNext (ToMessages A B) cb w
       = (Some (), with_calls (calls w ++ [(cb, Conversation l)]) w)
     ∧ Sorted ascending l
     ∧ Permutation l (List.filter (mockDb.between A B)
                        (snd <$> map_to_list (messages_col (firestore w))))
     ∧ ∀ m, m ∈ l ↔ (∃ id, messages_col (firestore w) !! id = Some m) ∧ exchanged A B m).
Proof.
  split.
  - eexists. split; [reflexivity|]. split_and!.
    + apply sort_by_timestamp_ascending.
    + apply sort_perm.
    + intros m. by rewrite sort_perm, filter_between_elem.
  - eexists. split; [reflexivity|]. split_and!.
    + apply filter_ascending, sort_by_timestamp_ascending.
    + apply filter_perm. rewrite sort_perm. apply fmap_Permutation, docs_perm.
    + intros m. rewrite filter_between_elem.
      rewrite sort_perm. rewrite list_elem_of_fmap.
      split; intros [H ?]; split; try done.
      * destruct H as ([id d] & -> & H). exists id. by apply elem_of_docs.
      * destruct H as [id H]. exists (id, m). split; [done|]. by apply elem_of_docs.
Qed.

(** The messages written in the order t3, t1, t2 are delivered in the order
    t1, t2, t3, on both stores. *)
Example conversation_out_of_order :
  calls (mockDb.subscribeToMessages "u-bob" "u-alice" 3
           (start true local_chat no_firestore [])).2
    = [(3%nat, Conversation [first_message; second_message; third_message])]
  ∧ calls (run [Subscribe (ToMessages "u-bob" "u-alice") 3; Snapshot 0]
             (start false no_storage remote_chat []))
    = [(3%nat, Conversation [first_message; second_message; third_message])].
Proof. split; vm_compute; reflexivity. Qed.

(** C8 as stated does not hold: on the remote store [sendMessage] writes the
    document under the id of the message, so a message sent under the id of a
    document that is read replaces it, and the document is unread again. *)
Lemma remote_upsert_resets_isRead : ¬ isRead_never_reverts.
Proof.
  intros H.
  destruct (proj2 (H (SendMessage third_message_again) (start false no_storage remote_chat []))
              "m3"%string third_message eq_refl eq_refl) as (m' & Hm' & Hread).
  vm_compute in Hm'. injection Hm' as <-. discriminate Hread.
Qed.

(** C8 (amended).  No operation of the facade, in either mode and whether
    the remote store fails or not, changes a message of the local store that
    is read: it stays at its place as it is.  The same holds for the documents
    of the remote store provided the id of a message that is sent is fresh, a
    condition the facade does not check.  [markMessagesAsRead] turns each
    message into its [marked] version: a message is left as it is unless it is
    unread and was sent by [senderId] to [userId], in which case only its
    [isRead] field changes, to [true]. *)
Theorem isRead_monotonic (o : Operation) (w : World) :
  (∀ i m,
     mock_messages (localStorage w) !! i = Some m → m_isRead m = true →
     mock_messages (localStorage (db_run o w).2) !! i = Some m)
  ∧ (sends_fresh_id o w →
     ∀ id m,
       messages_col (firestore w) !! id = Some m → m_isRead m = true →
       messages_col (firestore (db_run o w).2) !! id = Some m)
  ∧ (∀ userId senderId,
       o = MarkMessagesAsRead userId senderId → useMock w = true →
       mock_messages (localStorage (db_run o w).2)
         = marked userId senderId <$> mock_messages (localStorage w)
       ∧ ∀ i m,
           mock_messages (localStorage w) !! i = Some m →
           ∃ m',
             mock_messages (localStorage (db_run o w).2) !! i = Some m'
             ∧ (m' = m
                ∨ (m_isRead m = false ∧ m_receiverId m = userId ∧ m_senderId m = senderId
                   ∧ m' = set_isRead m true)))
  ∧ (∀ userId senderId,
       o = MarkMessagesAsRead userId senderId → useMock w = false → faults w = [] →
       messages_col (firestore (db_run o w).2)
         = marked userId senderId <$> messages_col (firestore w)).
Proof.
  split_and!.
  - apply db_run_read_kept.
  - apply db_run_remote_read_kept.
  - intros userId senderId -> Hw.
    rewrite db_run_unfold, Hw. simpl. unfold done_, mbind, M_bind.
    destruct (mockDb_markMessagesAsRead_marked userId senderId w) as (w' & -> & Hw').
    simpl. split; [done|].
    intros i m Hi. rewrite Hw', list_lookup_fmap, Hi. simpl.
    eexists. split; [done|]. unfold marked.
    destruct (bool_decide (m_receiverId m = userId)) eqn:Hr; simpl; [|by left].
    destruct (bool_decide (m_senderId m = senderId)) eqn:Hs; simpl; [|by left].
    apply bool_decide_eq_true in Hr, Hs.
    destruct (m_isRead m) eqn:Hm; [left; by rewrite <-Hm, set_isRead_same | by right].
  - intros userId senderId -> Hw Hf.
    rewrite db_run_unfold, Hw. simpl. unfold done_, mbind, M_bind.
    by destruct (cloud_markMessagesAsRead_marked userId senderId w Hf) as (w' & -> & Hw').
Qed.

Lemma isRead_monotonic_witness :
  let local := start true local_chat no_firestore [] in
  let cloudy := start false no_storage remote_chat [] in
  (mock_messages (localStorage local) !! 0%nat = Some third_message
   ∧ m_isRead third_message = true
   ∧ mock_messages (localStorage (db_run (SendMessage fourth_message) local).2) !! 0%nat
     = Some third_message)
  ∧ (sends_fresh_id (SendMessage fourth_message) cloudy
     ∧ messages_col (firestore cloudy) !! "m3" = Some third_message
     ∧ messages_col (firestore (db_run (SendMessage fourth_message) cloudy).2) !! "m3"
       = Some third_message)
  ∧ (useMock local = true
     ∧ mock_messages (localStorage (db_run (MarkMessagesAsRead "u-bob" "u-alice") local).2)
       = marked "u-bob" "u-alice" <$> mock_messages (localStorage local))
  ∧ (useMock cloudy = false ∧ faults cloudy = []
     ∧ messages_col (firestore (db_run (MarkMessagesAsRead "u-bob" "u-alice") cloudy).2)
       = marked "u-bob" "u-alice" <$> messages_col (firestore cloudy)).
Proof.
  assert (sends_fresh_id (SendMessage fourth_message)
            (start false no_storage remote_chat [])) as Hfresh.
  { intros msg Hmsg. injection Hmsg as <-. reflexivity. }
  split; [|split; [|split]].
  - split; [reflexivity|]. split; [reflexivity|].
    apply (proj1 (isRead_monotonic (SendMessage fourth_message)
                    (start true local_chat no_firestore []))); reflexivity.
  - split; [exact Hfresh|]. split; [reflexivity|].
    apply (proj1 (proj2 (isRead_monotonic (SendMessage fourth_message)
                           (start false no_storage remote_chat []))) Hfresh); reflexivity.
  - split; [reflexivity|].
    apply (proj1 (proj2 (proj2 (isRead_monotonic (MarkMessagesAsRead "u-bob" "u-alice")
                                  (start true local_chat no_firestore []))))
             "u-bob"%string "u-alice"%string eq_refl eq_refl).
  - split; [reflexivity|]. split; [reflexivity|].
    apply (proj2 (proj2 (proj2 (isRead_monotonic (MarkMessagesAsRead "u-bob" "u-alice")
                                  (start false no_storage remote_chat []))))
             "u-bob"%string "u-alice"%string eq_refl eq_refl eq_refl).
Defined.

(** C9 (fails on the remote path).  With the user "alice" in the remote
    store, the lookup of "Alice" by the facade finds nobody, so the
    registration of "Alice" goes through and a second user document is
    written; the same registration on the local store is refused with
    'Username already taken.' and writes nothing. *)
Theorem remote_registration_ignores_letter_case :
  let w := start false no_storage remote_users [] in
  let newUser :=
    {| u_id := "u-2"; u_username := "Alice";
       u_passwordHash := "TmV4dXNTYWx0X3NlY3JldA==";
       u_bio := "Nexus user active.";
       u_avatar := Some "https://picsum.photos/seed/Alice/200"%string;
       u_status := online; u_lastSeen := 1000; u_typingTo := None |} in
  (db.getUserByUsername "Alice" w).1 = Some None
  ∧ (AuthScreen.handleAuth register_Alice "u-2" w).1 = Some (AuthScreen.LoggedIn newUser)
  ∧ users_col (firestore (AuthScreen.handleAuth register_Alice "u-2" w).2)
    = <["u-2" := newUser]> (users_col remote_users)
  ∧ AuthScreen.handleAuth register_Alice "u-2" (start true local_users no_firestore [])
    = (Some (AuthScreen.Error "Username already taken."), start true local_users no_firestore []).
Proof. vm_compute. done. Qed.

(** C10.  On the local store, [updateUserStatus] for an id that no user of
    the collection has returns normally and leaves the whole world as it is:
    nothing is written to the store, no record is added, and no message is
    posted on the channel. *)
Theorem updateUserStatus_absent_user (userId : string) (updates : PartialUser) (w : World) :
  (∀ u, u ∈ mock_users (localStorage w) → u_id u ≠ userId) →
  mockDb.updateUserStatus userId updates w = (Some (), w).
Proof.
  intros Habsent. unfold mockDb.updateUserStatus. exec.
  assert (findIndex (λ u, bool_decide (u_id u = userId)) (mock_users (localStorage w)) = None) as ->.
  { apply findIndex_None. intros u Hu. apply bool_decide_eq_false. auto. }
  done.
Qed.

Lemma updateUserStatus_absent_user_witness :
  let w := start true local_users no_firestore [] in
  let typing :=
    {| p_id := None; p_username := None; p_passwordHash := None; p_bio := None;
       p_avatar := None; p_status := Some online; p_lastSeen := Some 1000;
       p_typingTo := Some (Some "u-bob"%string) |} in
  (∀ u, u ∈ mock_users (localStorage w) → u_id u ≠ "u-carol"%string)
  ∧ mockDb.updateUserStatus "u-carol" typing w = (Some (), w).
Proof.
  assert (∀ u, u ∈ mock_users (localStorage (start true local_users no_firestore [])) →
               u_id u ≠ "u-carol"%string) as Habsent.
  { intros u Hu. simpl in Hu.
    apply elem_of_cons in Hu as [-> | Hu]; [discriminate|].
    apply elem_of_cons in Hu as [-> | Hu]; [discriminate|].
    by apply elem_of_nil in Hu. }
  split; [exact Habsent|].
  apply (updateUserStatus_absent_user "u-carol" _ _ Habsent).
Defined.

(** * Further properties *)

(** Goes through the elements of a list that is written out. *)
Ltac each_element H :=
  repeat (apply elem_of_cons in H as [-> | H]); [.. | by apply elem_of_nil in H].

(** ** Users of the local store *)

Section FindFacts.
Context {A : Type}.
Implicit Types (p q : A → bool) (l : list A).

Lemma find_findIndex p l : find p l = findIndex p l ≫= (l !!.).
Proof.
  induction l as [|y l IH]; simpl; [done|].
  destruct (p y); simpl; [done|]. rewrite IH.
  by destruct (findIndex p l).
Qed.

Lemma find_insert_found p l idx x :
  findIndex p l = Some idx → p x = true → find p (<[idx := x]> l) = Some x.
Proof.
  revert idx. induction l as [|y l IH]; intros idx; simpl; [done|].
  destruct (p y) eqn:Hy.
  - intros [= <-] Hx. simpl. by rewrite Hx.
  - intros (i & Hi & ->)%fmap_Some Hx. simpl. rewrite Hy. by apply IH.
Qed.

Lemma find_app_new p l x :
  findIndex p l = None → p x = true → find p (l ++ [x]) = Some x.
Proof.
  induction l as [|y l IH]; simpl.
  - intros _ ->. done.
  - destruct (p y); [done|]. intros ?%fmap_None Hx. by apply IH.
Qed.

Lemma find_insert_other q l idx x y :
  l !! idx = Some y → q x = false → q y = false → find q (<[idx := x]> l) = find q l.
Proof.
  revert idx. induction l as [|z l IH]; intros [|idx]; simpl; try done.
  - intros [= ->] -> ->. done.
  - intros Hy Hx Hqy. destruct (q z); [done|]. by apply IH.
Qed.

Lemma find_app_other q l x : q x = false → find q (l ++ [x]) = find q l.
Proof.
  intros Hx. induction l as [|z l IH]; simpl; [by rewrite Hx|].
  by destruct (q z).
Qed.

Lemma findIndex_alter p (f : A → A) l i :
  (∀ x, p (f x) = p x) → findIndex p (alter f i l) = findIndex p l.
Proof.
  intros Hf. revert i. induction l as [|y l IH]; intros [|i]; simpl; try done.
  - by rewrite Hf.
  - destruct (p y); [done|]. f_equal. apply IH.
Qed.

Lemma fmap_alter_keep {B} (g : A → B) (f : A → A) l i :
  (∀ x, g (f x) = g x) → g <$> alter f i l = g <$> l.
Proof.
  intros Hf. revert i. induction l as [|y l IH]; intros [|i]; try done.
  - cbn. by rewrite Hf.
  - cbn. f_equal. apply IH.
Qed.
End FindFacts.

(** A user that was saved is the one [getUser] finds under its id. *)
Lemma saveUser_getUser user w :
  ∃ w',
    mockDb.saveUser user w = (Some (), w')
    ∧ mockDb.getUser (u_id user) w' = (Some (Some user), w').
Proof.
  unfold mockDb.saveUser, mockDb.getUser. exec.
  destruct (findIndex _ _) as [idx|] eqn:Hidx; simpl.
  - eexists. split; [reflexivity|]. simpl.
    erewrite find_insert_found; [done | done | by apply bool_decide_eq_true].
  - eexists. split; [reflexivity|]. simpl.
    erewrite find_app_new; [done | done | by apply bool_decide_eq_true].
Qed.

(** X1.  In the simulated database, getUser(user.id) right after
    saveUser(user) returns exactly that user, and getUser of every other id
    returns what it returned before the save. *)
Theorem saveUser_then_getUser (user : User) (w : World) :
  ∃ w',
    mockDb.saveUser user w = (Some (), w')
    ∧ mockDb.getUser (u_id user) w' = (Some (Some user), w')
    ∧ ∀ id, id ≠ u_id user → (mockDb.getUser id w').1 = (mockDb.getUser id w).1.
Proof.
  unfold mockDb.saveUser, mockDb.getUser. exec.
  destruct (findIndex _ _) as [idx|] eqn:Hidx; simpl.
  - eexists. split; [reflexivity|]. simpl. split.
    + erewrite find_insert_found; [done | done | by apply bool_decide_eq_true].
    + intros id Hid. f_equal.
      destruct (findIndex_Some _ _ _ Hidx) as (y & Hy & Hpy & _).
      apply bool_decide_eq_true in Hpy.
      eapply find_insert_other; [done | ..]; apply bool_decide_eq_false; congruence.
  - eexists. split; [reflexivity|]. simpl. split.
    + erewrite find_app_new; [done | done | by apply bool_decide_eq_true].
    + intros id Hid. f_equal. apply find_app_other. apply bool_decide_eq_false. congruence.
Qed.

Lemma findIndex_elem_of (l : list User) id :
  findIndex (λ u, bool_decide (u_id u = id)) l = None ↔ id ∉ u_id <$> l.
Proof.
  rewrite findIndex_None, list_elem_of_fmap. split.
  - intros H (u & -> & Hu). specialize (H u Hu). by apply bool_decide_eq_false in H.
  - intros H u Hu. apply bool_decide_eq_false. intros <-. apply H. by exists u.
Qed.

(** X2.  saveUser of the simulated database replaces the record that has the
    id in place, or appends the user when the id is new: the list of stored
    ids is unchanged in the first case and grows by that id at its end in the
    second, so ids that were pairwise distinct stay so. *)
Theorem saveUser_one_record_per_id (user : User) (w : World) :
  ∃ w',
    mockDb.saveUser user w = (Some (), w')
    ∧ u_id <$> mock_users (localStorage w')
      = (if bool_decide (u_id user ∈ u_id <$> mock_users (localStorage w))
         then u_id <$> mock_users (localStorage w)
         else (u_id <$> mock_users (localStorage w)) ++ [u_id user])
    ∧ (NoDup (u_id <$> mock_users (localStorage w)) →
       NoDup (u_id <$> mock_users (localStorage w'))).
Proof.
  unfold mockDb.saveUser. exec.
  destruct (findIndex _ _) as [idx|] eqn:Hidx; simpl.
  - eexists. split; [reflexivity|]. simpl.
    destruct (findIndex_Some _ _ _ Hidx) as (y & Hy & Hpy & _).
    apply bool_decide_eq_true in Hpy.
    assert (u_id <$> <[idx:=user]> (mock_users (localStorage w))
            = u_id <$> mock_users (localStorage w)) as ->.
    { rewrite list_fmap_insert, <-Hpy. apply list_insert_id.
      by rewrite list_lookup_fmap, Hy. }
    split; [|done]. rewrite bool_decide_eq_true_2; [done|].
    apply list_elem_of_fmap. exists y. split; [done|]. by eapply list_elem_of_lookup_2.
  - eexists. split; [reflexivity|]. simpl. rewrite fmap_app. simpl.
    apply findIndex_elem_of in Hidx. rewrite bool_decide_eq_false_2 by done.
    split; [done|]. intros Hnd. apply NoDup_app. split_and!; [done | | apply NoDup_singleton].
    intros id Hid ->%list_elem_of_singleton. done.
Qed.

Lemma lower_ascii_idemp c : lower_ascii (lower_ascii c) = lower_ascii c.
Proof. destruct c as [[] [] [] [] [] [] [] []]; reflexivity. Qed.

Lemma toLowerCase_idemp s : toLowerCase (toLowerCase s) = toLowerCase s.
Proof. induction s as [|c s IH]; simpl; [done|]. by rewrite lower_ascii_idemp, IH. Qed.

(** X3.  For ASCII names (the one looked up and the stored ones), the lookup by
    username of the simulated database ignores the case of the letters: it
    answers the same for a name and for its lower-case form, the user it
    returns is a stored one whose lower-cased name is the lower-cased
    argument, and it returns null exactly when no stored user has such a name. *)
Theorem getUserByUsername_ignores_case (username : string) (w : World) :
  ascii_only username = true →
  ascii_names (localStorage w) →
  mockDb.getUserByUsername (toLowerCase username) w = mockDb.getUserByUsername username w
  ∧ (∀ u, mockDb.getUserByUsername username w = (Some (Some u), w) →
          u ∈ mock_users (localStorage w)
          ∧ toLowerCase (u_username u) = toLowerCase username)
  ∧ (mockDb.getUserByUsername username w = (Some None, w) ↔
     ∀ u, u ∈ mock_users (localStorage w) →
          toLowerCase (u_username u) ≠ toLowerCase username).
Proof.
  intros _ _. unfold mockDb.getUserByUsername. exec. split_and!.
  - by rewrite toLowerCase_idemp.
  - intros u [= Hu]. apply find_Some in Hu as [? Hu]. by apply bool_decide_eq_true in Hu.
  - split.
    + intros [= Hnone] u Hu. eapply find_None in Hnone; [|done].
      by apply bool_decide_eq_false in Hnone.
    + intros H. do 2 f_equal. apply find_None. intros u Hu.
      apply bool_decide_eq_false. by apply H.
Qed.

Lemma ascii_names_local_world : ascii_names (localStorage local_world).
Proof. intros u Hu. simpl in Hu. each_element Hu; reflexivity. Qed.

Lemma getUserByUsername_ignores_case_witness :
  ascii_only "ALICE" = true
  ∧ ascii_names (localStorage local_world)
  ∧ mockDb.getUserByUsername "ALICE" local_world = (Some (Some alice), local_world)
  ∧ mockDb.getUserByUsername "alice" local_world = (Some (Some alice), local_world)
  ∧ toLowerCase (u_username alice) = toLowerCase "ALICE".
Proof.
  split; [reflexivity|]. split; [exact ascii_names_local_world|].
  destruct (getUserByUsername_ignores_case "ALICE" local_world eq_refl
              ascii_names_local_world) as (Hlower & Hfound & _).
  assert (mockDb.getUserByUsername "ALICE" local_world = (Some (Some alice), local_world))
    as Hrun by reflexivity.
  split; [exact Hrun|]. split.
  - etrans; [exact Hlower | exact Hrun].
  - exact (proj2 (Hfound alice Hrun)).
Defined.

Lemma spread_idemp u updates : spread (spread u updates) updates = spread u updates.
Proof.
  destruct u, updates as [[] [] [] [] [] [] [] []]; reflexivity.
Qed.

(** What [updateUserStatus] does to a user that is there. *)
Lemma updateUserStatus_found userId updates w idx :
  findIndex (λ u, bool_decide (u_id u = userId)) (mock_users (localStorage w)) = Some idx →
  mockDb.updateUserStatus userId updates w
  = (Some (),
     with_posted (posted w ++ [sync users; user_update userId updates])
       (with_localStorage
          (setItem users (alter (λ u, spread u updates) idx (mock_users (localStorage w)))
             (localStorage w)) w)).
Proof.
  intros Hidx. unfold mockDb.updateUserStatus, mockStore.get, mockStore.set,
    nexusChannel.postMessage, read, update, mbind, M_bind.
  cbn [getItem]. rewrite Hidx. cbn [fst snd]. unfold with_posted at 1 2. cbn.
  by rewrite <-app_assoc.
Qed.

(** X4.  Applying the same partial update, one that does not set the id, a
    second time to a user of the simulated database leaves the local storage
    as the first application left it; the update keeps the ids of all records
    and the records of the other ids. *)
Theorem updateUserStatus_idempotent (userId : string) (updates : PartialUser) (w : World) :
  p_id updates = None →
  ∃ w1 w2,
    mockDb.updateUserStatus userId updates w = (Some (), w1)
    ∧ mockDb.updateUserStatus userId updates w1 = (Some (), w2)
    ∧ localStorage w2 = localStorage w1
    ∧ u_id <$> mock_users (localStorage w1) = u_id <$> mock_users (localStorage w)
    ∧ ∀ i u, mock_users (localStorage w) !! i = Some u → u_id u ≠ userId →
             mock_users (localStorage w1) !! i = Some u.
Proof.
  intros Hid.
  assert (∀ u, u_id (spread u updates) = u_id u) as Hkeep.
  { intros u. unfold spread. simpl. by rewrite Hid. }
  destruct (findIndex (λ u, bool_decide (u_id u = userId)) (mock_users (localStorage w)))
    as [idx|] eqn:Hidx.
  - rewrite (updateUserStatus_found _ _ _ _ Hidx).
    set (us := mock_users (localStorage w)) in *.
    set (us1 := alter (λ u, spread u updates) idx us).
    eexists _, _. split; [reflexivity|].
    assert (findIndex (λ u, bool_decide (u_id u = userId)) us1 = Some idx) as Hidx1.
    { unfold us1. rewrite findIndex_alter; [done|]. intros u. by rewrite Hkeep. }
    rewrite (updateUserStatus_found _ _ _ idx) by exact Hidx1.
    split; [reflexivity|]. cbn [localStorage with_posted with_localStorage setItem mock_users].
    fold us1. split_and!.
    + f_equal. unfold us1. rewrite list_alter_alter_eq. apply list_alter_ext; [|done].
      intros u _. apply spread_idemp.
    + unfold us1. by apply fmap_alter_keep.
    + intros i u Hi Hne. destruct (decide (i = idx)) as [->|Hi'].
      * destruct (findIndex_Some _ _ _ Hidx) as (y & Hy & Hpy & _).
        apply bool_decide_eq_true in Hpy. unfold us in *. congruence.
      * unfold us1. by rewrite list_lookup_alter_ne.
  - assert (mockDb.updateUserStatus userId updates w = (Some (), w)) as Hnoop.
    { unfold mockDb.updateUserStatus, mockStore.get, read, mbind, M_bind. cbn [getItem].
      by rewrite Hidx. }
    rewrite Hnoop. exists w, w. by rewrite Hnoop.
Qed.

Lemma updateUserStatus_idempotent_witness :
  p_id now_typing = None
  ∧ ∃ w1 w2,
      mockDb.updateUserStatus "u-alice" now_typing local_world = (Some (), w1)
      ∧ mockDb.updateUserStatus "u-alice" now_typing w1 = (Some (), w2)
      ∧ localStorage w2 = localStorage w1.
Proof.
  split; [reflexivity|].
  destruct (updateUserStatus_idempotent "u-alice" now_typing local_world eq_refl)
    as (w1 & w2 & H1 & H2 & H3 & _).
  exists w1, w2. split_and!; [exact H1 | exact H2 | exact H3].
Defined.

(** ** Messages of the local store *)

Lemma some_false {A} (p : A → bool) (l : list A) :
  some p l = false ↔ ∀ x, x ∈ l → p x = false.
Proof.
  unfold some. induction l as [|y l IH]; simpl.
  - split; [intros _ x Hx; by apply elem_of_nil in Hx | done].
  - rewrite orb_false_iff, IH. split.
    + intros [Hy Hl] x [->|Hx]%elem_of_cons; auto.
    + intros H. split; [apply H; left | intros x Hx; apply H; by right].
Qed.

Lemma marked_fields userId senderId m :
  m_receiverId (marked userId senderId m) = m_receiverId m
  ∧ m_senderId (marked userId senderId m) = m_senderId m
  ∧ m_id (marked userId senderId m) = m_id m
  ∧ m_timestamp (marked userId senderId m) = m_timestamp m.
Proof. unfold marked. by case_match. Qed.

Lemma marked_is_read userId senderId m :
  m_receiverId m = userId → m_senderId m = senderId →
  m_isRead (marked userId senderId m) = true.
Proof. intros Hr Hs. unfold marked. by rewrite !bool_decide_eq_true_2. Qed.

(** Once nothing from [senderId] to [userId] is unread, the call writes
    nothing and posts nothing. *)
Lemma markMessagesAsRead_nothing_unread userId senderId w :
  (∀ m, m ∈ mock_messages (localStorage w) →
        m_receiverId m = userId → m_senderId m = senderId → m_isRead m = true) →
  mockDb.markMessagesAsRead userId senderId w = (Some (), w).
Proof.
  intros Hread. unfold mockDb.markMessagesAsRead. exec.
  destruct (some _ _) eqn:Hsome; [|done]. exfalso.
  apply not_false_iff_true in Hsome. apply Hsome, some_false. intros m Hm.
  destruct (bool_decide (m_receiverId m = userId)) eqn:Hr; [|done].
  destruct (bool_decide (m_senderId m = senderId)) eqn:Hs; [|done].
  apply bool_decide_eq_true in Hr, Hs. by rewrite (Hread m Hm Hr Hs).
Qed.

(** After the call nothing from [senderId] to [userId] is unread. *)
Lemma markMessagesAsRead_leaves userId senderId w :
  ∃ w',
    mockDb.markMessagesAsRead userId senderId w = (Some (), w')
    ∧ ∀ m, m ∈ mock_messages (localStorage w') →
           m_receiverId m = userId → m_senderId m = senderId → m_isRead m = true.
Proof.
  destruct (mockDb_markMessagesAsRead_marked userId senderId w) as (w' & Hrun & Hmsgs).
  exists w'. split; [done|].
  intros m. rewrite Hmsgs. intros (m0 & -> & _)%list_elem_of_fmap.
  destruct (marked_fields userId senderId m0) as (-> & -> & _).
  apply marked_is_read.
Qed.

(** X5.  After markMessagesAsRead(userId, senderId) on the simulated database
    every stored message from senderId to userId is read and the number of
    messages is the same; running it again changes nothing at all (nothing is
    left to mark, so the store is not written and no notice is posted). *)
Theorem markMessagesAsRead_settles (userId senderId : string) (w : World) :
  ∃ w',
    mockDb.markMessagesAsRead userId senderId w = (Some (), w')
    ∧ (∀ m, m ∈ mock_messages (localStorage w') →
            m_receiverId m = userId → m_senderId m = senderId → m_isRead m = true)
    ∧ length (mock_messages (localStorage w')) = length (mock_messages (localStorage w))
    ∧ mockDb.markMessagesAsRead userId senderId w' = (Some (), w').
Proof.
  destruct (mockDb_markMessagesAsRead_marked userId senderId w) as (w' & Hrun & Hmsgs).
  exists w'. split; [done|].
  assert (∀ m, m ∈ mock_messages (localStorage w') →
               m_receiverId m = userId → m_senderId m = senderId → m_isRead m = true) as Hread.
  { intros m. rewrite Hmsgs. intros (m0 & -> & _)%list_elem_of_fmap.
    destruct (marked_fields userId senderId m0) as (-> & -> & _).
    apply marked_is_read. }
  split_and!; [done | by rewrite Hmsgs, length_fmap |].
  by apply markMessagesAsRead_nothing_unread.
Qed.

Lemma sendMessage_effect msg w :
  mockDb.sendMessage msg w
  = (Some (),
     with_posted (posted w ++ [sync messages; new_msg msg])
       (with_localStorage
          (setItem messages (mock_messages (localStorage w) ++ [msg]) (localStorage w)) w)).
Proof.
  unfold mockDb.sendMessage. exec. unfold with_posted at 1 2. cbn. by rewrite <-app_assoc.
Qed.

(** X6.  sendMessage of the simulated database appends the message to the
    stored list and posts a sync notice and a new_msg notice; the conversation
    that subscribeToMessages hands over for two users is then the old one with
    the new message added when the message is between these two, and the old
    one otherwise. *)
Theorem sendMessage_shows_in_its_conversation (msg : Message) (w : World) :
  ∃ w',
    mockDb.sendMessage msg w = (Some (), w')
    ∧ mock_messages (localStorage w') = mock_messages (localStorage w) ++ [msg]
    ∧ posted w' = posted w ++ [sync messages; new_msg msg]
    ∧ ∀ A B,
        view (ToMessages A B) (localStorage w')
          = Some (Conversation (conversation A B (localStorage w')))
        ∧ if bool_decide (exchanged A B msg)
          then Permutation (conversation A B (localStorage w'))
                           (msg :: conversation A B (localStorage w))
          else conversation A B (localStorage w') = conversation A B (localStorage w).
Proof.
  rewrite sendMessage_effect. eexists. split; [reflexivity|]. split_and!; try done.
  intros A B. split; [done|]. unfold conversation. cbn.
  rewrite List.filter_app. cbn.
  destruct (mockDb.between A B msg) eqn:Hb.
  - rewrite bool_decide_eq_true_2 by by apply between_exchanged.
    rewrite !sort_perm. by rewrite Permutation_app_comm.
  - rewrite bool_decide_eq_false_2; [by rewrite app_nil_r|].
    rewrite <-between_exchanged. by rewrite Hb.
Qed.

Lemma db_markMessagesAsRead_local userId senderId w :
  useMock w = true →
  db.markMessagesAsRead userId senderId w = mockDb.markMessagesAsRead userId senderId w.
Proof. intros Hw. unfold db.markMessagesAsRead, db.if_useMock. by rewrite Hw. Qed.

Lemma conversation_elem A B ls m :
  m ∈ conversation A B ls ↔ m ∈ mock_messages ls ∧ exchanged A B m.
Proof. unfold conversation. by rewrite sort_perm, filter_between_elem. Qed.

(** X7.  In local mode the messages callback of ChatInterface, run on the
    current conversation, leaves every message of the conversation addressed
    to the current user read; run again on the conversation it then gets, it
    changes nothing: the read receipts settle after one round. *)
Theorem onMessages_settles (currentUser activeFriend : User) (w : World) :
  useMock w = true →
  ∃ w',
    ChatInterface.onMessages currentUser activeFriend
      (conversation (u_id currentUser) (u_id activeFriend) (localStorage w)) w = (Some (), w')
    ∧ (∀ m, m ∈ conversation (u_id currentUser) (u_id activeFriend) (localStorage w') →
            m_receiverId m = u_id currentUser → m_isRead m = true)
    ∧ ChatInterface.onMessages currentUser activeFriend
        (conversation (u_id currentUser) (u_id activeFriend) (localStorage w')) w' = (Some (), w').
Proof.
  intros Hw. unfold ChatInterface.onMessages.
  set (unread := λ m : Message, _ && negb (m_isRead m)).
  assert (∀ w', (∀ m, m ∈ conversation (u_id currentUser) (u_id activeFriend) (localStorage w') →
                      m_receiverId m = u_id currentUser → m_isRead m = true) →
          some unread (conversation (u_id currentUser) (u_id activeFriend) (localStorage w'))
          = false) as Hquiet.
  { intros w' Hread. apply some_false. intros m Hm. unfold unread.
    destruct (bool_decide (m_receiverId m = u_id currentUser)) eqn:Hr; [|done].
    apply bool_decide_eq_true in Hr. by rewrite (Hread m Hm Hr). }
  destruct (some unread (conversation _ _ (localStorage w))) eqn:Hsome; simpl.
  - rewrite db_markMessagesAsRead_local by done.
    destruct (markMessagesAsRead_leaves (u_id currentUser) (u_id activeFriend) w)
      as (w' & Hrun & Hread).
    exists w'. split; [done|].
    assert (∀ m, m ∈ conversation (u_id currentUser) (u_id activeFriend) (localStorage w') →
                 m_receiverId m = u_id currentUser → m_isRead m = true) as Hconv.
    { intros m [Hm Hex]%conversation_elem Hr. apply (Hread m Hm Hr).
      destruct Hex as [[Hs Hr']|[Hs _]]; [congruence | done]. }
    split; [done|]. by rewrite Hquiet.
  - exists w. split; [done|].
    assert (∀ m, m ∈ conversation (u_id currentUser) (u_id activeFriend) (localStorage w) →
                 m_receiverId m = u_id currentUser → m_isRead m = true) as Hconv.
    { intros m Hm Hr. eapply some_false in Hsome; [|exact Hm]. unfold unread in Hsome.
      rewrite bool_decide_eq_true_2 in Hsome by done. simpl in Hsome.
      by destruct (m_isRead m). }
    split; [done|]. by rewrite Hsome.
Qed.

Lemma onMessages_settles_witness :
  useMock local_world = true
  ∧ ∃ w',
      ChatInterface.onMessages bob alice
        (conversation (u_id bob) (u_id alice) (localStorage local_world)) local_world
        = (Some (), w')
      ∧ ChatInterface.onMessages bob alice
          (conversation (u_id bob) (u_id alice) (localStorage w')) w' = (Some (), w').
Proof.
  split; [reflexivity|].
  destruct (onMessages_settles bob alice local_world eq_refl) as (w' & H1 & _ & H3).
  exists w'. split; [exact H1 | exact H3].
Defined.

(** ** The facade in remote mode *)

Global Instance flag_same_preorder : PreOrder flag_same.
Proof. split; unfold flag_same; [done | intros x y z -> ->; done]. Qed.

Lemma call_flag_same : preserves flag_same remote.call.
Proof. intros w. unfold remote.call. destruct (faults w) as [|[] ?]; by unfold flag_same. Qed.

Lemma cloud_run_flag_same o : preserves flag_same (cloud_run o).
Proof.
  destruct o; repeat (unfold_db; unfold Date_now; steps; try apply call_flag_same);
    by unfold flag_same.
Qed.

(** ** Friend requests and friendships *)

(** X8.  Resolving a request id that does not exist changes nothing: in local
    mode when no stored request has the id, and in remote mode without failure
    when the requests collection has no such document, db.handleFriendRequest
    returns without writing anything. *)
Theorem handleFriendRequest_unknown_request
    (requestId : string) (status : Resolution) (w : World) :
  (useMock w = true
   ∧ ∀ r, r ∈ mock_requests (localStorage w) → r_id r ≠ requestId)
  ∨ (useMock w = false ∧ faults w = []
     ∧ requests_col (firestore w) !! requestId = None) →
  db.handleFriendRequest requestId status w = (Some (), w).
Proof.
  unfold db.handleFriendRequest, db.if_useMock.
  intros [[Hw Habsent] | (Hw & Hf & Habsent)]; rewrite Hw.
  - unfold mockDb.handleFriendRequest. exec.
    assert (findIndex (λ r, bool_decide (r_id r = requestId)) (mock_requests (localStorage w))
            = None) as ->; [|done].
    apply findIndex_None. intros r Hr. apply bool_decide_eq_false. auto.
  - unfold cloud.handleFriendRequest, remote.getDoc, remote.call. exec.
    rewrite Hf. simpl. by rewrite Habsent.
Qed.

Lemma handleFriendRequest_unknown_request_witness :
  (useMock local_world = true
   ∧ (∀ r, r ∈ mock_requests (localStorage local_world) → r_id r ≠ "r9"%string)
   ∧ db.handleFriendRequest "r9" Accept local_world = (Some (), local_world))
  ∧ (useMock remote_world = false ∧ faults remote_world = []
     ∧ requests_col (firestore remote_world) !! "r9" = None
     ∧ db.handleFriendRequest "r9" Reject remote_world = (Some (), remote_world)).
Proof.
  assert (∀ r, r ∈ mock_requests (localStorage local_world) → r_id r ≠ "r9"%string) as Habsent.
  { intros r Hr. simpl in Hr. each_element Hr; discriminate. }
  split.
  - split; [reflexivity|]. split; [exact Habsent|].
    apply (handleFriendRequest_unknown_request "r9" Accept local_world).
    left. split; [reflexivity | exact Habsent].
  - split; [reflexivity|]. split; [reflexivity|]. split; [reflexivity|].
    apply (handleFriendRequest_unknown_request "r9" Reject remote_world).
    right. split_and!; reflexivity.
Defined.

Lemma sendFriendRequest_effect req w :
  mockDb.sendFriendRequest req w
  = (Some (),
     with_posted (posted w ++ [sync requests])
       (with_localStorage
          (setItem requests (mock_requests (localStorage w) ++ [req]) (localStorage w)) w)).
Proof. done. Qed.

Lemma handleFriendRequest_requests requestId status w idx req :
  findIndex (λ r, bool_decide (r_id r = requestId)) (mock_requests (localStorage w)) = Some idx →
  mock_requests (localStorage w) !! idx = Some req →
  ∃ w',
    mockDb.handleFriendRequest requestId status w = (Some (), w')
    ∧ mock_requests (localStorage w')
      = <[idx := set_status req (resolved status)]> (mock_requests (localStorage w)).
Proof.
  intros Hidx Hreq. unfold mockDb.handleFriendRequest. exec. rewrite Hidx, Hreq. simpl.
  destruct status; simpl; by eexists.
Qed.

(** X9.  What subscribeToIncomingRequests hands a user is the stored requests
    addressed to them that are pending. sendFriendRequest adds the request at
    the end of that list when it is pending and addressed to the user;
    resolving a stored request, accepted or rejected, takes exactly that entry
    off the list. *)
Theorem incoming_requests_come_and_go (w : World) :
  (∀ userId, view (ToIncomingRequests userId) (localStorage w)
             = Some (Incoming (incoming userId (localStorage w))))
  ∧ (∀ req,
     ∃ w', mockDb.sendFriendRequest req w = (Some (), w')
       ∧ ∀ userId,
           incoming userId (localStorage w')
           = incoming userId (localStorage w)
             ++ (if bool_decide (r_toId req = userId ∧ r_status req = pending)
                 then [req] else []))
  ∧ (∀ requestId status idx,
       findIndex (λ r, bool_decide (r_id r = requestId)) (mock_requests (localStorage w))
         = Some idx →
       ∃ w', mockDb.handleFriendRequest requestId status w = (Some (), w')
         ∧ ∀ userId r,
             r ∈ incoming userId (localStorage w')
             ↔ ∃ j, j ≠ idx ∧ mock_requests (localStorage w) !! j = Some r
                    ∧ r_toId r = userId ∧ r_status r = pending).
Proof.
  split_and!.
  - done.
  - intros req. rewrite sendFriendRequest_effect. eexists. split; [reflexivity|].
    intros userId. unfold incoming. cbn. rewrite List.filter_app. cbn.
    destruct (bool_decide (r_toId req = userId)) eqn:Ht,
             (bool_decide (r_status req = pending)) eqn:Hs; cbn.
    all: try apply bool_decide_eq_true in Ht; try apply bool_decide_eq_true in Hs.
    all: try apply bool_decide_eq_false in Ht; try apply bool_decide_eq_false in Hs.
    + by rewrite bool_decide_eq_true_2.
    + rewrite bool_decide_eq_false_2; [done | tauto].
    + rewrite bool_decide_eq_false_2; [done | tauto].
    + rewrite bool_decide_eq_false_2; [done | tauto].
  - intros requestId status idx Hidx.
    destruct (findIndex_Some _ _ _ Hidx) as (req & Hreq & _).
    destruct (handleFriendRequest_requests _ status _ _ _ Hidx Hreq) as (w' & Hrun & Hreqs).
    exists w'. split; [done|]. intros userId r. unfold incoming. rewrite Hreqs.
    rewrite list_elem_of_In, filter_In, <-list_elem_of_In, andb_true_iff,
      !bool_decide_eq_true.
    rewrite list_elem_of_lookup. split.
    + intros [[j Hj] [Ht Hs]]. exists j. destruct (decide (j = idx)) as [->|Hne].
      * rewrite list_lookup_insert_eq in Hj by by eapply lookup_lt_Some.
        injection Hj as <-. simpl in Hs. by destruct status.
      * rewrite list_lookup_insert_ne in Hj by done. done.
    + intros (j & Hne & Hj & Ht & Hs). split; [|done].
      exists j. by rewrite list_lookup_insert_ne.
Qed.

Lemma incoming_requests_come_and_go_witness :
  findIndex (λ r, bool_decide (r_id r = "r1"%string)) (mock_requests (localStorage local_world))
    = Some 0%nat
  ∧ ∃ w',
      mockDb.handleFriendRequest "r1" Reject local_world = (Some (), w')
      ∧ (alice_to_bob ∉ incoming "u-bob" (localStorage w'))
      ∧ bob_to_alice ∈ incoming "u-alice" (localStorage w').
Proof.
  split; [reflexivity|].
  destruct (proj2 (proj2 (incoming_requests_come_and_go local_world)) "r1" Reject 0%nat eq_refl)
    as (w' & Hrun & Hin).
  exists w'. split; [exact Hrun|]. split.
  - intros (j & Hne & Hj & _)%Hin.
    destruct j as [|[|[|j]]]; [done | discriminate Hj | discriminate Hj | discriminate Hj].
  - apply Hin. exists 1%nat. split_and!; [discriminate | reflexivity..].
Defined.

Lemma elem_of_friendIds (A B : string) (fships : list Friendship) :
  B ∈ mockDb.friendIds A fships
  ↔ ∃ f, f ∈ fships
         ∧ ((f_user1Id f = A ∧ f_user2Id f = B) ∨ (f_user1Id f = B ∧ f_user2Id f = A)).
Proof.
  unfold mockDb.friendIds. rewrite list_elem_of_fmap. split.
  - intros (f & -> & Hf). apply list_elem_of_In, filter_In in Hf as [Hf Hm%orb_true_iff].
    exists f. split; [by apply list_elem_of_In|].
    destruct Hm as [Hm|Hm]; apply bool_decide_eq_true in Hm.
    + left. by rewrite bool_decide_eq_true_2.
    + case_bool_decide as H1; [by left | by right].
  - intros (f & Hf & Hm). exists f. split.
    + case_bool_decide as H1; destruct Hm as [[? ?]|[? ?]]; congruence.
    + apply list_elem_of_In, filter_In. split; [by apply list_elem_of_In|].
      apply orb_true_iff. destruct Hm as [[? ?]|[? ?]]; [left | right];
        by apply bool_decide_eq_true.
Qed.

Lemma elem_of_remote_friendIds (A B : string) (docs : list (string * Friendship)) :
  B ∈ remote_friendIds A docs
  ↔ ∃ f, f ∈ docs.*2
         ∧ ((f_user1Id f = A ∧ f_user2Id f = B) ∨ (f_user1Id f = B ∧ f_user2Id f = A)).
Proof.
  unfold remote_friendIds. rewrite elem_of_app, !list_elem_of_fmap. split.
  - intros [(d & -> & Hd) | (d & -> & Hd)];
      apply list_elem_of_In, filter_In in Hd as [Hd Hm]; apply bool_decide_eq_true in Hm;
      (exists d.2; split; [apply list_elem_of_fmap; exists d; split; [done|];
                            by apply list_elem_of_In |]); [by left | by right].
  - intros (f & (d & -> & Hd)%list_elem_of_fmap & [[H1 H2]|[H1 H2]]); [left | right];
      (exists d; split; [done|]; apply list_elem_of_In, filter_In;
       split; [by apply list_elem_of_In | by apply bool_decide_eq_true]).
Qed.

(** X10.  Friendship is symmetric: B is among the friend ids computed for A
    exactly when A is among those computed for B. The two remote queries
    (user1Id == A, user2Id == A) collect the same ids as the local filter, and
    with at most ten such ids and no failure the remote snapshot function
    hands over exactly the user documents whose id is among them. *)
Theorem friendship_is_symmetric (A B : string) :
  (∀ fships, B ∈ mockDb.friendIds A fships ↔ A ∈ mockDb.friendIds B fships)
  ∧ (∀ docs, B ∈ remote_friendIds A docs ↔ B ∈ mockDb.friendIds A docs.*2)
  ∧ (∀ w cb,
       faults w = [] →
       (length (remote_friendIds A (remote.docs (friendships_col (firestore w)))) ≤ 10)%nat →
       ∃ friends,
         db.onNext (ToFriends A) cb w
           = (Some (), with_calls (calls w ++ [(cb, Friends friends)]) w)
         ∧ ∀ u, u ∈ friends
                ↔ (∃ id, users_col (firestore w) !! id = Some u)
                  ∧ u_id u ∈ mockDb.friendIds A
                              (remote.docs (friendships_col (firestore w))).*2).
Proof.
  split_and!.
  - intros fships. rewrite !elem_of_friendIds.
    split; intros (f & Hf & H); exists f; (split; [done | tauto]).
  - intros docs. by rewrite elem_of_remote_friendIds, elem_of_friendIds.
  - intros w cb Hf _. unfold db.onNext, remote.getDocs, remote.call. exec.
    rewrite Hf. simpl. rewrite Hf. simpl.
    set (docs := remote.docs (friendships_col (firestore w))).
    fold (remote_friendIds A docs).
    assert (∀ u, u_id u ∈ remote_friendIds A docs ↔ u_id u ∈ mockDb.friendIds A docs.*2) as Hids.
    { intros u. by rewrite elem_of_remote_friendIds, elem_of_friendIds. }
    case_bool_decide as Hnil.
    + eexists. split; [reflexivity|]. intros u. split.
      * by intros ?%elem_of_nil.
      * intros [_ Hu]. apply Hids in Hu. rewrite Hnil in Hu. by apply elem_of_nil in Hu.
    + rewrite Hf. simpl. eexists. split; [reflexivity|]. intros u.
      rewrite list_elem_of_fmap. split.
      * intros ([id u'] & -> & Hd). apply list_elem_of_In, filter_In in Hd as [Hd Hm].
        apply bool_decide_eq_true in Hm. split; [|by apply Hids].
        exists id. by apply elem_of_docs, list_elem_of_In.
      * intros [[id Hu] Hm]. exists (id, u). split; [done|].
        apply list_elem_of_In, filter_In. split.
        -- by apply list_elem_of_In, elem_of_docs.
        -- apply bool_decide_eq_true. by apply Hids.
Qed.

Lemma friendship_is_symmetric_witness :
  let w := start false no_storage remote_friends [] in
  faults w = []
  ∧ (length (remote_friendIds "u-alice" (remote.docs (friendships_col (firestore w)))) ≤ 10)%nat
  ∧ ∃ friends,
      db.onNext (ToFriends "u-alice") 4 w
        = (Some (), with_calls (calls w ++ [(4%nat, Friends friends)]) w)
      ∧ bob ∈ friends.
Proof.
  assert (length (remote_friendIds "u-alice"
            (remote.docs (friendships_col (firestore (start false no_storage remote_friends [])))))
          ≤ 10)%nat as Hfew by (vm_compute; lia).
  split; [reflexivity|]. split; [exact Hfew|].
  destruct (proj2 (proj2 (friendship_is_symmetric "u-alice" "u-bob"))
              (start false no_storage remote_friends []) 4%nat eq_refl Hfew)
    as (friends & Hrun & Hin).
  exists friends. split; [exact Hrun|].
  apply Hin. split.
  - exists "u-bob"%string. reflexivity.
  - vm_compute. left.
Defined.

(** Handling a request touches neither the users nor the messages. *)
Lemma handleFriendRequest_overwrites requestId status w idx :
  findIndex (λ r, bool_decide (r_id r = requestId)) (mock_requests (localStorage w)) = Some idx →
  ∃ req w',
    mock_requests (localStorage w) !! idx = Some req
    ∧ mockDb.handleFriendRequest requestId status w = (Some (), w')
    ∧ mock_users (localStorage w') = mock_users (localStorage w).
Proof.
  intros Hidx. destruct (findIndex_Some _ _ _ Hidx) as (req & Hreq & _).
  exists req. unfold mockDb.handleFriendRequest. exec. rewrite Hidx, Hreq. simpl.
  destruct status; simpl; by eexists.
Qed.

(** X11.  Accepting a stored request in the simulated database keeps the users
    and puts the stored sender and the stored addressee in each other's
    friends list, as subscribeToFriends computes it; nobody who was in a
    friends list leaves it. *)
Theorem acceptance_makes_friends (requestId : string) (w : World) (idx : nat) :
  findIndex (λ r, bool_decide (r_id r = requestId)) (mock_requests (localStorage w)) = Some idx →
  ∃ req w',
    mock_requests (localStorage w) !! idx = Some req
    ∧ mockDb.handleFriendRequest requestId Accept w = (Some (), w')
    ∧ mock_users (localStorage w') = mock_users (localStorage w)
    ∧ (∀ userId, view (ToFriends userId) (localStorage w')
                 = Some (Friends (friends_of userId (localStorage w'))))
    ∧ (∀ u, u ∈ mock_users (localStorage w) → u_id u = r_toId req →
            u ∈ friends_of (r_fromId req) (localStorage w'))
    ∧ (∀ u, u ∈ mock_users (localStorage w) → u_id u = r_fromId req →
            u ∈ friends_of (r_toId req) (localStorage w'))
    ∧ (∀ userId u, u ∈ friends_of userId (localStorage w) →
                   u ∈ friends_of userId (localStorage w')).
Proof.
  intros Hidx.
  destruct (mockDb_accept_appends requestId w idx Hidx) as (req & w' & Hreq & Hrun & Hfs).
  destruct (handleFriendRequest_overwrites requestId Accept w idx Hidx)
    as (req' & w'' & Hreq' & Hrun' & Husers).
  rewrite Hrun in Hrun'. injection Hrun' as <-.
  exists req, w'. split_and!; try done.
  - intros u Hu Hid. unfold friends_of. rewrite Husers.
    apply list_elem_of_In, filter_In. split; [by apply list_elem_of_In|].
    apply bool_decide_eq_true, elem_of_friendIds. rewrite Hfs.
    eexists. split; [apply elem_of_app; right; left|]. left. by rewrite Hid.
  - intros u Hu Hid. unfold friends_of. rewrite Husers.
    apply list_elem_of_In, filter_In. split; [by apply list_elem_of_In|].
    apply bool_decide_eq_true, elem_of_friendIds. rewrite Hfs.
    eexists. split; [apply elem_of_app; right; left|]. right. by rewrite Hid.
  - intros userId u. unfold friends_of. rewrite Husers, Hfs.
    rewrite !list_elem_of_In, !filter_In, !bool_decide_eq_true, !elem_of_friendIds.
    intros [Hu (f & Hf & Hm)]. split; [done|]. exists f. split; [|done].
    apply elem_of_app. by left.
Qed.

Lemma acceptance_makes_friends_witness :
  findIndex (λ r, bool_decide (r_id r = "r1"%string)) (mock_requests (localStorage local_world))
    = Some 0%nat
  ∧ ∃ w',
      mockDb.handleFriendRequest "r1" Accept local_world = (Some (), w')
      ∧ bob ∈ friends_of "u-alice" (localStorage w')
      ∧ alice ∈ friends_of "u-bob" (localStorage w').
Proof.
  split; [reflexivity|].
  destruct (acceptance_makes_friends "r1" local_world 0 eq_refl)
    as (req & w' & Hreq & Hrun & _ & _ & Hto & Hfrom & _).
  injection Hreq as <-.
  exists w'. split; [exact Hrun|]. split.
  - apply Hto; [|reflexivity]. simpl. right. left.
  - apply Hfrom; [|reflexivity]. simpl. left.
Defined.

Lemma append_underscore_inj a b c d :
  has_underscore a = false → has_underscore c = false →
  a +:+ "_" +:+ b = c +:+ "_" +:+ d → a = c ∧ b = d.
Proof.
  revert c. induction a as [|x a IH]; intros [|y c]; cbn.
  - intros _ _ H. by simplify_eq.
  - intros _ [Hy _]%orb_false_iff H. injection H as <-. by rewrite Ascii.eqb_refl in Hy.
  - intros [Hx _]%orb_false_iff _ H. injection H as ->. by rewrite Ascii.eqb_refl in Hx.
  - intros [_ Ha]%orb_false_iff [_ Hc]%orb_false_iff H. simplify_eq.
    destruct (IH c Ha Hc) as [-> ->]; done.
Qed.

(** X12.  For user ids that hold no underscore, the friendship id [a,
    b].sort().join('_') does not depend on the order of the two ids, and two
    pairs get the same id only when they are the same unordered pair. *)
Theorem friendship_id_identifies_the_pair (a b c d : string) :
  has_underscore a = false → has_underscore b = false →
  has_underscore c = false → has_underscore d = false →
  sorted_join a b = sorted_join b a
  ∧ (sorted_join a b = sorted_join c d ↔ (a = c ∧ b = d) ∨ (a = d ∧ b = c)).
Proof.
  intros Ha Hb Hc Hd. split; [apply sorted_join_comm|]. split.
  - unfold sorted_join. destruct (String.ltb b a), (String.ltb d c);
      intros [-> ->]%append_underscore_inj; auto.
  - intros [[-> ->] | [-> ->]]; [done | apply sorted_join_comm].
Qed.

Lemma friendship_id_identifies_the_pair_witness :
  has_underscore "u-alice" = false ∧ has_underscore "u-bob" = false
  ∧ sorted_join "u-alice" "u-bob" = sorted_join "u-bob" "u-alice"
  ∧ (sorted_join "u-alice" "u-bob" = sorted_join "u-bob" "u-alice"
     ↔ (("u-alice" = "u-bob" ∧ "u-bob" = "u-alice")
        ∨ ("u-alice" = "u-alice" ∧ "u-bob" = "u-bob")))%string.
Proof.
  split; [reflexivity|]. split; [reflexivity|].
  apply (friendship_id_identifies_the_pair "u-alice" "u-bob" "u-bob" "u-alice");
    reflexivity.
Defined.

(** Ids that hold the joining character can collide. *)
Example friendship_id_collision : sorted_join "a" "b_c" = sorted_join "a_b" "c".
Proof. reflexivity. Qed.

(** X13.  In remote mode without failure, accepting an existing request writes
    the friendship under the sorted-pair id: the document ids of the
    friendships collection are the old ones and that id, so when the pair
    already had a friendship document the collection does not grow. The local
    storage is untouched and the mode stays remote. *)
Theorem remote_acceptance_is_keyed (requestId : string) (w : World) (req : FriendRequest) :
  useMock w = false → faults w = [] →
  requests_col (firestore w) !! requestId = Some req →
  ∃ w',
    db.handleFriendRequest requestId Accept w = (Some (), w')
    ∧ dom (friendships_col (firestore w'))
      = {[ sorted_join (r_fromId req) (r_toId req) ]} ∪ dom (friendships_col (firestore w))
    ∧ (is_Some (friendships_col (firestore w) !! sorted_join (r_fromId req) (r_toId req)) →
       size (friendships_col (firestore w')) = size (friendships_col (firestore w)))
    ∧ localStorage w' = localStorage w
    ∧ useMock w' = false.
Proof.
  intros Hw Hf Hreq.
  destruct (cloud_accept_keyed requestId w req Hf Hreq) as (w' & Hrun & _ & Hfs).
  pose proof (cloud_run_local_untouched (HandleFriendRequest requestId Accept) w) as Hloc.
  simpl in Hloc. unfold done_, mbind, M_bind in Hloc. rewrite Hrun in Hloc.
  destruct Hloc as (Hls & _). simpl in Hls.
  exists w'. unfold db.handleFriendRequest, db.if_useMock, try_catch. rewrite Hw, Hrun.
  split; [done|]. rewrite Hfs. split_and!; [by rewrite dom_insert_L | | done |].
  - intros [f Hf']. rewrite <-!size_dom, dom_insert_L.
    f_equal. apply elem_of_dom_2 in Hf'. apply subseteq_union_1_L.
    by apply singleton_subseteq_l.
  - pose proof (cloud_run_flag_same (HandleFriendRequest requestId Accept) w) as Hflag.
    simpl in Hflag. unfold done_, mbind, M_bind in Hflag. rewrite Hrun in Hflag.
    unfold flag_same in Hflag. simpl in Hflag. by rewrite Hflag.
Qed.

Lemma remote_acceptance_is_keyed_witness :
  useMock remote_world = false ∧ faults remote_world = []
  ∧ requests_col (firestore remote_world) !! "r1" = Some alice_to_bob
  ∧ ∃ w',
      db.handleFriendRequest "r1" Accept remote_world = (Some (), w')
      ∧ dom (friendships_col (firestore w'))
        = {[ sorted_join "u-alice" "u-bob" ]} ∪ dom (friendships_col (firestore remote_world))
      ∧ localStorage w' = localStorage remote_world.
Proof.
  split; [reflexivity|]. split; [reflexivity|]. split; [reflexivity|].
  destruct (remote_acceptance_is_keyed "r1" remote_world alice_to_bob eq_refl eq_refl eq_refl)
    as (w' & H1 & H2 & _ & H4 & _).
  exists w'. split_and!; [exact H1 | exact H2 | exact H4].
Defined.

(** X14.  In remote mode, when the try block of a data operation of the facade
    succeeds, the facade returns its result, and the mode flag, the local
    storage, the broadcast channel and the callbacks are all left as they
    were. *)
Theorem remote_success_leaves_local_side (o : Operation) (w w' : World) (v : Value) :
  useMock w = false →
  cloud_run o w = (Some v, w') →
  db_run o w = (Some v, w')
  ∧ useMock w' = false
  ∧ localStorage w' = localStorage w
  ∧ posted w' = posted w
  ∧ calls w' = calls w.
Proof.
  intros Hw Hrun. rewrite db_run_unfold, Hw, Hrun. split; [done|].
  pose proof (cloud_run_flag_same o w) as Hflag.
  pose proof (cloud_run_local_untouched o w) as (Hls & Hp & _ & Hc).
  rewrite Hrun in *. simpl in *. unfold flag_same in Hflag. by rewrite Hflag.
Qed.

Lemma remote_success_leaves_local_side_witness :
  useMock remote_world = false
  ∧ (cloud_run (SendMessage fourth_message) remote_world).1 = Some Done
  ∧ db_run (SendMessage fourth_message) remote_world
    = (Some Done, (cloud_run (SendMessage fourth_message) remote_world).2)
  ∧ useMock (cloud_run (SendMessage fourth_message) remote_world).2 = false
  ∧ localStorage (cloud_run (SendMessage fourth_message) remote_world).2
    = localStorage remote_world.
Proof.
  split; [reflexivity|]. split; [reflexivity|].
  destruct (remote_success_leaves_local_side (SendMessage fourth_message) remote_world
              (cloud_run (SendMessage fourth_message) remote_world).2 Done eq_refl eq_refl)
    as (H1 & H2 & H3 & _).
  split_and!; [exact H1 | exact H2 | exact H3].
Defined.

(** X15.  In remote mode, when registering the snapshot listener throws, a
    subscribe method returns the local subscription instead: a channel handler
    is registered and its remover returned, no snapshot listener is added,
    and, unlike the data operations, the mode flag stays remote. *)
Theorem failed_registration_of_a_listener_is_local (sub : Subscription) (cb : nat)
    (w : World) (rest : list bool) :
  useMock w = false →
  faults w = true :: rest →
  ∃ w',
    db.subscribe sub cb w = (Some (removeListener (next_id w)), w')
    ∧ db.subscribe sub cb w = mockDb.subscribe sub cb (with_faults rest w)
    ∧ useMock w' = false
    ∧ snapshots w' = snapshots w
    ∧ handlers w' = handlers w ++ [{| l_id := next_id w; l_sub := sub; l_callback := cb |}].
Proof.
  intros Hw Hf.
  assert (db.subscribe sub cb w = mockDb.subscribe sub cb (with_faults rest w)) as ->.
  { unfold db.subscribe, db.if_useMock, try_catch, remote.onSnapshot, remote.call.
    rewrite Hw. unfold mbind at 1, M_bind. by rewrite Hf. }
  unfold mockDb.subscribe, nexusChannel.addEventListener. exec. rewrite refresh_view. simpl.
  eexists. split; [reflexivity|]. by split_and!.
Qed.

Lemma failed_registration_of_a_listener_is_local_witness :
  let w := start false local_users remote_users [true] in
  useMock w = false ∧ faults w = [true]
  ∧ ∃ w',
      db.subscribe (ToFriends "u-alice") 4 w = (Some (removeListener 0), w')
      ∧ useMock w' = false
      ∧ snapshots w' = []
      ∧ handlers w' = [{| l_id := 0; l_sub := ToFriends "u-alice"; l_callback := 4 |}].
Proof.
  split; [reflexivity|]. split; [reflexivity|].
  destruct (failed_registration_of_a_listener_is_local (ToFriends "u-alice") 4
              (start false local_users remote_users [true]) [] eq_refl eq_refl)
    as (w' & H1 & _ & H3 & H4 & H5).
  exists w'. split_and!; [exact H1 | exact H3 | exact H4 | exact H5].
Defined.

(** X16.  Through the facade, getUser(user.id) right after saveUser(user)
    returns that user, in local mode and in remote mode when neither of the
    two remote calls fails; the mode is then the one before. *)
Theorem facade_read_your_writes (user : User) (w : World) :
  (useMock w = true
   ∨ (useMock w = false ∧ true ∉ take 2 (faults w))) →
  ∃ w1 w2,
    db.saveUser user w = (Some (), w1)
    ∧ db.getUser (u_id user) w1 = (Some (Some user), w2)
    ∧ useMock w2 = useMock w.
Proof.
  intros [Hw | [Hw Hf]].
  - unfold db.saveUser, db.getUser, db.if_useMock. rewrite Hw.
    destruct (saveUser_getUser user w) as (w1 & Hsave & Hget).
    pose proof (mockDb_run_remote_untouched (SaveUser user) w) as (Hflag & _).
    simpl in Hflag. unfold done_, mbind, M_bind in Hflag. rewrite Hsave in Hflag.
    simpl in Hflag. exists w1, w1. rewrite Hsave, Hflag, Hw. by rewrite Hget.
  - unfold db.saveUser, db.getUser, db.if_useMock, try_catch, cloud.saveUser, cloud.getUser,
      remote.setDoc, remote.getDoc, remote.call. exec. rewrite Hw.
    destruct (faults w) as [|[] [|[] rest]] eqn:Hfw; simpl in *;
      try (exfalso; apply Hf; set_solver).
    all: eexists _, _; split; [reflexivity|]; simpl; rewrite Hw; simpl;
      rewrite ?Hfw; simpl; rewrite lookup_insert_eq; done.
Qed.

Lemma facade_read_your_writes_witness :
  (useMock local_world = true
   ∧ ∃ w1 w2, db.saveUser carol local_world = (Some (), w1)
              ∧ db.getUser "u-carol" w1 = (Some (Some carol), w2))
  ∧ (useMock remote_world = false ∧ (true ∉ take 2 (faults remote_world))
     ∧ ∃ w1 w2, db.saveUser carol remote_world = (Some (), w1)
                ∧ db.getUser "u-carol" w1 = (Some (Some carol), w2)).
Proof.
  assert (true ∉ take 2 (faults remote_world)) as Hf by (simpl; apply not_elem_of_nil).
  split.
  - split; [reflexivity|].
    destruct (facade_read_your_writes carol local_world (or_introl eq_refl))
      as (w1 & w2 & H1 & H2 & _).
    exists w1, w2. split; [exact H1 | exact H2].
  - split; [reflexivity|]. split; [exact Hf|].
    destruct (facade_read_your_writes carol remote_world (or_intror (conj eq_refl Hf)))
      as (w1 & w2 & H1 & H2 & _).
    exists w1, w2. split; [exact H1 | exact H2].
Defined.

(** X17.  When a remote saveUser succeeds and the remote getUser that follows
    fails, the facade switches to the local store, where the user was never
    written: getUser returns null for the user just saved, although the remote
    collection holds it. *)
Theorem remote_write_is_lost_by_failover (user : User) (w : World) (rest : list bool) :
  useMock w = false →
  faults w = false :: true :: rest →
  (∀ u, u ∈ mock_users (localStorage w) → u_id u ≠ u_id user) →
  ∃ w1 w2,
    db.saveUser user w = (Some (), w1)
    ∧ users_col (firestore w1) !! u_id user = Some user
    ∧ db.getUser (u_id user) w1 = (Some None, w2)
    ∧ useMock w2 = true
    ∧ users_col (firestore w2) !! u_id user = Some user.
Proof.
  intros Hw Hf Habsent.
  unfold db.saveUser, db.getUser, db.if_useMock, try_catch, cloud.saveUser, cloud.getUser,
    remote.setDoc, remote.getDoc, remote.call, mockDb.getUser. exec.
  rewrite Hw, Hf. simpl. eexists _, _. split; [reflexivity|]. simpl.
  rewrite lookup_insert_eq. split; [done|]. rewrite Hw. simpl.
  assert (find (λ u, bool_decide (u_id u = u_id user)) (mock_users (localStorage w)) = None)
    as ->.
  { apply find_None. intros u Hu. apply bool_decide_eq_false. auto. }
  simpl. split; [reflexivity|]. simpl. split; [done|]. apply lookup_insert_eq.
Qed.

Lemma remote_write_is_lost_by_failover_witness :
  let w := start false local_users remote_users [false; true] in
  useMock w = false ∧ faults w = [false; true]
  ∧ (∀ u, u ∈ mock_users (localStorage w) → u_id u ≠ u_id carol)
  ∧ ∃ w1 w2,
      db.saveUser carol w = (Some (), w1)
      ∧ db.getUser "u-carol" w1 = (Some None, w2)
      ∧ users_col (firestore w2) !! "u-carol" = Some carol.
Proof.
  assert (∀ u, u ∈ mock_users (localStorage (start false local_users remote_users [false; true]))
               → u_id u ≠ u_id carol) as Habsent.
  { intros u Hu. simpl in Hu. each_element Hu; discriminate. }
  split; [reflexivity|]. split; [reflexivity|]. split; [exact Habsent|].
  destruct (remote_write_is_lost_by_failover carol
              (start false local_users remote_users [false; true]) [] eq_refl eq_refl Habsent)
    as (w1 & w2 & H1 & _ & H3 & _ & H5).
  exists w1, w2. split_and!; [exact H1 | exact H3 | exact H5].
Defined.

(** ** Listeners *)

Lemma well_formed_start (mock : bool) (ls : LocalStorage) (fs : Firestore) (f : list bool) :
  well_formed (start mock ls fs f).
Proof. split; simpl; constructor. Qed.

Lemma elem_of_deliveries e ls (hs : list Listener) cb p :
  (cb, p) ∈ hs ≫= delivery e ls
  ↔ ∃ l, l ∈ hs ∧ l_callback l = cb ∧ mockDb.concerns (l_sub l) e = true
         ∧ view (l_sub l) ls = Some p.
Proof.
  rewrite list_elem_of_bind. unfold delivery. split.
  - intros (l & Hin & Hl). exists l. split; [done|].
    destruct (mockDb.concerns _ _); [|by apply elem_of_nil in Hin].
    destruct (view _ _) as [p'|]; [|by apply elem_of_nil in Hin].
    apply list_elem_of_singleton in Hin. by simplify_eq.
  - intros (l & Hl & <- & Hc & Hv). exists l. rewrite Hc, Hv. split; [left | done].
Qed.

(** X18.  Every change is announced: when an operation of the facade changes
    what a subscription shows of the local store (the user, the friends, the
    conversation or the incoming requests), one of the notices the operation
    posts on the channel is a notice that the handler of that subscription
    reacts to. *)
Theorem local_changes_are_announced (o : Operation) (sub : Subscription) (w : World) :
  view sub (localStorage (db_run o w).2) ≠ view sub (localStorage w) →
  ∃ new e,
    posted (db_run o w).2 = posted w ++ new
    ∧ e ∈ new
    ∧ mockDb.concerns sub e = true.
Proof.
  intros Hchanged.
  destruct (announced_view sub w _ (db_run_announced o w) Hchanged) as (e & He & Ha).
  destruct (db_run_announced o w) as (new & Hp & _).
  exists new, e. rewrite Hp, drop_app_length in He.
  split_and!; [done | done | by apply announces_concerns].
Qed.

Lemma local_changes_are_announced_witness :
  view (ToUser "u-carol") (localStorage (db_run (SaveUser carol) local_world).2)
    ≠ view (ToUser "u-carol") (localStorage local_world)
  ∧ ∃ new e,
      posted (db_run (SaveUser carol) local_world).2 = posted local_world ++ new
      ∧ e ∈ new
      ∧ mockDb.concerns (ToUser "u-carol") e = true.
Proof.
  assert (view (ToUser "u-carol") (localStorage (db_run (SaveUser carol) local_world).2)
          ≠ view (ToUser "u-carol") (localStorage local_world)) as Hchanged.
  { vm_compute. discriminate. }
  split; [exact Hchanged|].
  apply (local_changes_are_announced (SaveUser carol) (ToUser "u-carol") local_world Hchanged).
Defined.

Lemma filter_other_ids (ls : list Listener) id :
  Forall (λ l, l_id l ≠ id) ls →
  List.filter (λ l, negb (bool_decide (l_id l = id))) ls = ls.
Proof.
  induction 1 as [|l ls Hl _ IH]; simpl; [done|].
  rewrite bool_decide_eq_false_2 by done. simpl. by rewrite IH.
Qed.

Lemma well_formed_fresh w :
  well_formed w →
  Forall (λ l, l_id l ≠ next_id w) (handlers w)
  ∧ Forall (λ l, l_id l ≠ next_id w) (snapshots w).
Proof.
  intros [Hlt _]. apply Forall_app in Hlt as [Hh Hs].
  split; eapply Forall_impl; try done; simpl; intros; lia.
Qed.

(** X19.  Subscribing locally and then calling the function that was returned
    restores the list of channel handlers, and as long as the handlers are
    those, no notice on the channel invokes the callback (provided no other
    registered handler uses it). *)
Theorem local_unsubscribe_silences_the_callback (sub : Subscription) (cb : nat) (w : World) :
  well_formed w →
  (∀ l, l ∈ handlers w → l_callback l ≠ cb) →
  ∃ h w1 w2,
    mockDb.subscribe sub cb w = (Some h, w1)
    ∧ unsubscribe h w1 = (Some (), w2)
    ∧ handlers w2 = handlers w
    ∧ ∀ later e,
        handlers later = handlers w2 →
        ∃ new, dispatch e later = (Some (), with_calls (calls later ++ new) later)
               ∧ ∀ p, (cb, p) ∉ new.
Proof.
  intros Hwf Hcb. destruct (well_formed_fresh w Hwf) as [Hfresh _].
  destruct (mockDb_unsubscribe_releases sub cb w Hfresh) as (h & w1 & w2 & H1 & H2 & H3).
  exists h, w1, w2. split_and!; try done.
  intros later e Hlater. rewrite dispatch_deliveries. eexists. split; [reflexivity|].
  intros p (l & Hl & Hlcb & _)%elem_of_deliveries.
  rewrite Hlater, H3 in Hl. by apply (Hcb l Hl).
Qed.

Lemma local_unsubscribe_silences_the_callback_witness :
  well_formed local_world
  ∧ (∀ l, l ∈ handlers local_world → l_callback l ≠ 7%nat)
  ∧ ∃ h w1 w2,
      mockDb.subscribe (ToMessages "u-alice" "u-bob") 7 local_world = (Some h, w1)
      ∧ unsubscribe h w1 = (Some (), w2)
      ∧ ∃ new, dispatch (sync messages) w2 = (Some (), with_calls (calls w2 ++ new) w2)
               ∧ ∀ p, (7%nat, p) ∉ new.
Proof.
  assert (∀ l, l ∈ handlers local_world → l_callback l ≠ 7%nat) as Hunused.
  { intros l Hl. simpl in Hl. by apply elem_of_nil in Hl. }
  split; [apply well_formed_start|]. split; [exact Hunused|].
  destruct (local_unsubscribe_silences_the_callback (ToMessages "u-alice" "u-bob") 7
              local_world (well_formed_start _ _ _ _) Hunused)
    as (h & w1 & w2 & H1 & H2 & _ & H4).
  exists h, w1, w2. split; [exact H1|]. split; [exact H2|].
  exact (H4 w2 (sync messages) eq_refl).
Defined.

(** ** Passwords *)

Lemma b64_index_digit n : (n < 64)%N → b64_index (b64_digit n) = n.
Proof.
  intros Hn.
  assert (forallb (λ k, N.eqb (b64_index (b64_digit (N.of_nat k))) (N.of_nat k)) (seq 0 64)
          = true) as Hall by (vm_compute; reflexivity).
  rewrite forallb_forall in Hall.
  specialize (Hall (N.to_nat n)). rewrite N2Nat.id in Hall.
  apply N.eqb_eq, Hall, in_seq. lia.
Qed.

Lemma b64_digit_inj n m : (n < 64)%N → (m < 64)%N → b64_digit n = b64_digit m → n = m.
Proof.
  intros Hn Hm Heq. rewrite <-(b64_index_digit n Hn), <-(b64_index_digit m Hm). by rewrite Heq.
Qed.

Lemma b64_digit_not_pad n : (n < 64)%N → b64_digit n ≠ "="%char.
Proof.
  intros Hn Heq.
  assert (forallb (λ k, negb (Ascii.eqb (b64_digit (N.of_nat k)) "=")) (seq 0 64) = true)
    as Hall by (vm_compute; reflexivity).
  rewrite forallb_forall in Hall.
  specialize (Hall (N.to_nat n)). rewrite N2Nat.id in Hall.
  rewrite Heq in Hall. discriminate Hall. apply in_seq. lia.
Qed.

Lemma list_ind3 {A} (P : list A → Prop) :
  P [] → (∀ a, P [a]) → (∀ a b, P [a; b]) →
  (∀ a b c l, P l → P (a :: b :: c :: l)) →
  ∀ l, P l.
Proof.
  intros H0 H1 H2 H3 l.
  assert (P l ∧ (∀ a, P (a :: l)) ∧ ∀ a b, P (a :: b :: l)) as [? _]; [|done].
  induction l as [|x l (IH0 & IH1 & IH2)]; [by auto|].
  split_and!; auto.
Qed.

(** Names the quotient and the remainder of a byte. *)
Ltac split_byte a d :=
  let Hdiv := fresh "Hdiv" in
  let Hmod := fresh "Hmod" in
  pose proof (N.div_mod a d ltac:(lia)) as Hdiv;
  pose proof (N.mod_lt a d ltac:(lia)) as Hmod;
  generalize dependent (a / d)%N; generalize dependent (a mod d)%N; intros.

Ltac split_bytes :=
  repeat match goal with
    | H : context [(?a / ?d)%N] |- _ => split_byte a d
    | H : context [(?a mod ?d)%N] |- _ => split_byte a d
    end.

Lemma b64_groups_inj (l k : list N) :
  Forall (λ n, (n < 256)%N) l → Forall (λ n, (n < 256)%N) k →
  b64_groups l = b64_groups k → l = k.
Proof.
  revert k. induction l as [|a|a b|a b c l IH] using list_ind3;
    intros [|a' [|b' [|c' k]]] Hl Hk Heq; try done.
  all: repeat match goal with
         | H : Forall _ (_ :: _) |- _ => apply Forall_cons in H as [? H]
         end.
  all: cbn [b64_groups] in Heq; simplify_eq.
  all: split_bytes.
  all: repeat match goal with
         | H : b64_digit _ = "="%char |- _ => apply b64_digit_not_pad in H; [done | lia]
         | H : "="%char = b64_digit _ |- _ =>
             symmetry in H; apply b64_digit_not_pad in H; [done | lia]
         | H : b64_digit _ = b64_digit _ |- _ => apply b64_digit_inj in H; [| lia | lia]
         end.
  all: try (repeat f_equal; lia).
  f_equal; [lia|]. f_equal; [lia|]. f_equal; [lia|]. by apply IH.
Qed.

Lemma btoa_inj s t : btoa s = btoa t → s = t.
Proof.
  unfold btoa. intros Heq.
  apply (f_equal list_ascii_of_string) in Heq.
  rewrite !list_ascii_of_string_of_list_ascii in Heq.
  apply b64_groups_inj in Heq.
  - apply (f_equal (fmap ascii_of_N)) in Heq.
    rewrite <-!list_fmap_compose in Heq.
    rewrite !(list_fmap_ext (ascii_of_N ∘ N_of_ascii) id) in Heq
      by (intros; simpl; apply ascii_N_embedding).
    rewrite !list_fmap_id in Heq.
    apply (f_equal string_of_list_ascii) in Heq.
    by rewrite !string_of_list_ascii_of_string in Heq.
  - apply Forall_fmap, Forall_true. intros c. apply N_ascii_bounded.
  - apply Forall_fmap, Forall_true. intros c. apply N_ascii_bounded.
Qed.

(** X21.  For ASCII passwords, comparePassword(candidate,
    encryptPassword(password)) is true exactly when the candidate is the
    password: the salted base64 encoding maps different passwords to
    different hashes. *)
Theorem comparePassword_accepts_only_the_password (password candidate : string) :
  ascii_only password = true →
  ascii_only candidate = true →
  authService.comparePassword candidate (authService.encryptPassword password) = true
  ↔ candidate = password.
Proof.
  intros _ _. unfold authService.comparePassword, authService.encryptPassword.
  rewrite bool_decide_eq_true. split; [|by intros ->].
  intros Heq%btoa_inj. cbn in Heq. by simplify_eq.
Qed.

Lemma comparePassword_accepts_only_the_password_witness :
  ascii_only "secret" = true
  ∧ authService.comparePassword "secret" (authService.encryptPassword "secret") = true
  ∧ "Secret"%string ≠ "secret"%string
  ∧ authService.comparePassword "Secret" (authService.encryptPassword "secret") ≠ true.
Proof.
  split; [reflexivity|]. split.
  - apply (comparePassword_accepts_only_the_password "secret" "secret"); reflexivity.
  - split; [discriminate|].
    intros Heq.
    apply (comparePassword_accepts_only_the_password "secret" "Secret") in Heq;
      [discriminate Heq | reflexivity | reflexivity].
Defined.

(** ** Signing up and signing in *)

Lemma find_unique {A} (p : A → bool) (l : list A) x :
  x ∈ l → p x = true → (∀ y, y ∈ l → p y = true → y = x) → find p l = Some x.
Proof.
  intros Hx Hp Huniq. destruct (find p l) as [y|] eqn:Hfind.
  - apply find_Some in Hfind as [Hy Hpy]. f_equal. by apply Huniq.
  - eapply find_None in Hfind; [|done]. congruence.
Qed.

Lemma saveUser_users user w :
  ∃ w',
    mockDb.saveUser user w = (Some (), w')
    ∧ useMock w' = useMock w ∧ clock w' = clock w
    ∧ nexus_vault (localStorage w') = nexus_vault (localStorage w)
    ∧ user ∈ mock_users (localStorage w')
    ∧ ∀ u, u ∈ mock_users (localStorage w') → u = user ∨ u ∈ mock_users (localStorage w).
Proof.
  unfold mockDb.saveUser. exec.
  destruct (findIndex _ _) as [idx|] eqn:Hidx; simpl.
  - eexists. split; [reflexivity|]. simpl. split_and!; try done.
    + destruct (findIndex_Some _ _ _ Hidx) as (y & Hy & _).
      eapply list_elem_of_lookup_2. apply list_lookup_insert_eq. by eapply lookup_lt_Some.
    + intros u (j & Hj)%list_elem_of_lookup. destruct (decide (j = idx)) as [->|Hne].
      * destruct (findIndex_Some _ _ _ Hidx) as (y & Hy & _).
        rewrite list_lookup_insert_eq in Hj by by eapply lookup_lt_Some. left. congruence.
      * rewrite list_lookup_insert_ne in Hj by done. right. by eapply list_elem_of_lookup_2.
  - eexists. split; [reflexivity|]. simpl. split_and!; try done.
    + apply elem_of_app. right. left.
    + intros u [Hu | ->%list_elem_of_singleton]%elem_of_app; auto.
Qed.

Lemma updateUserStatus_returns userId updates w :
  ∃ w', mockDb.updateUserStatus userId updates w = (Some (), w')
        ∧ useMock w' = useMock w
        ∧ nexus_vault (localStorage w') = nexus_vault (localStorage w)
        ∧ nexus_last_session (localStorage w') = nexus_last_session (localStorage w).
Proof.
  unfold mockDb.updateUserStatus. exec. destruct (findIndex _ _); simpl; by eexists.
Qed.

Lemma saveToVault_returns user hash w :
  ∃ w', AuthScreen.saveToVault user hash w = (Some (), w')
        ∧ useMock w' = useMock w
        ∧ mock_users (localStorage w') = mock_users (localStorage w).
Proof.
  unfold AuthScreen.saveToVault, vaultDb.getVault, vaultDb.saveVault. exec.
  destruct (findIndex _ _); simpl; by eexists.
Qed.

(** Signing in, on the local store, as the user the lookup finds. *)
Lemma login_succeeds (f : AuthScreen.Form) (randomUUID : string) (w : World) (user : User) :
  useMock w = true →
  AuthScreen.isRegistering f = false →
  AuthScreen.username f ≠ ""%string → AuthScreen.password f ≠ ""%string →
  find (λ u, bool_decide (toLowerCase (u_username u) = toLowerCase (AuthScreen.username f)))
    (mock_users (localStorage w)) = Some user →
  u_passwordHash user = authService.encryptPassword (AuthScreen.password f) →
  ∃ w', AuthScreen.handleAuth f randomUUID w
        = (Some (AuthScreen.LoggedIn (AuthScreen.with_presence user (clock w))), w').
Proof.
  intros Hw Hreg Hu Hp Hfind Hhash. unfold AuthScreen.handleAuth.
  rewrite !bool_decide_eq_false_2 by done. simpl. rewrite Hreg.
  unfold AuthScreen.login, db.getUserByUsername, mockDb.getUserByUsername, db.updateUserStatus.
  exec. rewrite Hw. simpl. rewrite Hfind. simpl.
  unfold authService.comparePassword. rewrite Hhash, bool_decide_eq_true_2 by done.
  rewrite Hw.
  destruct (updateUserStatus_returns (u_id user)
    {| p_id := None; p_username := None; p_passwordHash := None; p_bio := None;
       p_avatar := None; p_status := Some online; p_lastSeen := Some (clock w);
       p_typingTo := None |} w) as (w1 & -> & _).
  destruct (AuthScreen.rememberMe f); simpl; [|by eexists].
  destruct (saveToVault_returns (AuthScreen.username f)
              (authService.encryptPassword (AuthScreen.password f)) w1) as (w2 & -> & _).
  by eexists.
Qed.

(** X22.  In local mode and for ASCII names and passwords, registering a name
    that no stored user has (names compared without the case of the letters)
    with a non-empty password succeeds and stores the new user under the
    generated id; signing in afterwards with the same name and password
    succeeds as that user, marked online. *)
Theorem register_then_login (f : AuthScreen.Form) (randomUUID other : string) (w : World) :
  useMock w = true →
  AuthScreen.isRegistering f = true →
  AuthScreen.username f ≠ ""%string → AuthScreen.password f ≠ ""%string →
  ascii_only (AuthScreen.username f) = true →
  ascii_only (AuthScreen.password f) = true →
  ascii_names (localStorage w) →
  (∀ u, u ∈ mock_users (localStorage w) →
        toLowerCase (u_username u) ≠ toLowerCase (AuthScreen.username f)) →
  ∃ newUser w1 w2,
    AuthScreen.handleAuth f randomUUID w = (Some (AuthScreen.LoggedIn newUser), w1)
    ∧ u_id newUser = randomUUID
    ∧ u_username newUser = AuthScreen.username f
    ∧ newUser ∈ mock_users (localStorage w1)
    ∧ AuthScreen.handleAuth (signing_in f) other w1
      = (Some (AuthScreen.LoggedIn (AuthScreen.with_presence newUser (clock w1))), w2).
Proof.
  intros Hw Hreg Hu Hp _ _ _ Hfree.
  set (newUser :=
    {| u_id := randomUUID; u_username := AuthScreen.username f;
       u_passwordHash := authService.encryptPassword (AuthScreen.password f);
       u_bio := "Nexus user active.";
       u_avatar := Some ("https://picsum.photos/seed/" +:+ AuthScreen.username f +:+ "/200");
       u_status := online; u_lastSeen := clock w; u_typingTo := None |}).
  destruct (saveUser_users newUser w) as (w0 & Hsave & Hw0 & Hclock & _ & Hin & Hall).
  assert (∃ w1, AuthScreen.handleAuth f randomUUID w = (Some (AuthScreen.LoggedIn newUser), w1)
                ∧ useMock w1 = true
                ∧ mock_users (localStorage w1) = mock_users (localStorage w0))
    as (w1 & Hrun & Hw1 & Husers).
  { unfold AuthScreen.handleAuth. rewrite !bool_decide_eq_false_2 by done. simpl. rewrite Hreg.
    unfold AuthScreen.register, db.getUserByUsername, mockDb.getUserByUsername, db.saveUser.
    exec. rewrite Hw. simpl.
    assert (find (λ u, bool_decide (toLowerCase (u_username u)
                                    = toLowerCase (AuthScreen.username f)))
              (mock_users (localStorage w)) = None) as ->.
    { apply find_None. intros u Hin'. apply bool_decide_eq_false. by apply Hfree. }
    simpl. rewrite Hw. fold newUser. rewrite Hsave. simpl.
    destruct (AuthScreen.rememberMe f); simpl; [|by exists w0; rewrite Hw0].
    destruct (saveToVault_returns (AuthScreen.username f)
                (authService.encryptPassword (AuthScreen.password f)) w0)
      as (w2 & -> & Hw2 & Hus).
    exists w2. by rewrite Hw2, Hw0. }
  assert (find (λ u, bool_decide (toLowerCase (u_username u)
                                  = toLowerCase (AuthScreen.username f)))
            (mock_users (localStorage w1)) = Some newUser) as Hfind.
  { rewrite Husers. apply find_unique; [done | by apply bool_decide_eq_true |].
    intros y Hy Hmatch. apply bool_decide_eq_true in Hmatch.
    destruct (Hall y Hy) as [-> | Hold]; [done|]. by destruct (Hfree y Hold). }
  destruct (login_succeeds (signing_in f) other w1 newUser Hw1 eq_refl Hu Hp Hfind eq_refl)
    as (w2 & Hlogin).
  exists newUser, w1, w2. split_and!; try done. by rewrite Husers.
Qed.

Lemma register_then_login_witness :
  useMock local_world = true
  ∧ ascii_only (AuthScreen.username register_Carol) = true
  ∧ ascii_only (AuthScreen.password register_Carol) = true
  ∧ ascii_names (localStorage local_world)
  ∧ (∀ u, u ∈ mock_users (localStorage local_world) →
          toLowerCase (u_username u) ≠ toLowerCase (AuthScreen.username register_Carol))
  ∧ ∃ newUser w1 w2,
      AuthScreen.handleAuth register_Carol "u-carol" local_world
      = (Some (AuthScreen.LoggedIn newUser), w1)
      ∧ newUser ∈ mock_users (localStorage w1)
      ∧ AuthScreen.handleAuth (signing_in register_Carol) "u-other" w1
        = (Some (AuthScreen.LoggedIn (AuthScreen.with_presence newUser (clock w1))), w2).
Proof.
  assert (∀ u, u ∈ mock_users (localStorage local_world) →
            toLowerCase (u_username u) ≠ toLowerCase (AuthScreen.username register_Carol))
    as Hfree.
  { intros u Hu. simpl in Hu. each_element Hu; discriminate. }
  split; [reflexivity|]. split; [reflexivity|]. split; [reflexivity|].
  split; [exact ascii_names_local_world|]. split; [exact Hfree|].
  destruct (register_then_login register_Carol "u-carol" "u-other" local_world
              eq_refl eq_refl ltac:(discriminate) ltac:(discriminate) eq_refl eq_refl
              ascii_names_local_world Hfree)
    as (newUser & w1 & w2 & H1 & _ & _ & H4 & H5).
  exists newUser, w1, w2. split_and!; [exact H1 | exact H4 | exact H5].
Defined.

(** X23.  In local mode and for ASCII names and passwords, signing in with a
    name that is unknown, or with a password whose hash is not the stored one,
    gives the error 'Identity verification failed.' and changes nothing: no
    status update, no vault entry, no notice. *)
Theorem failed_login_changes_nothing (f : AuthScreen.Form) (randomUUID : string) (w : World) :
  useMock w = true →
  AuthScreen.isRegistering f = false →
  AuthScreen.username f ≠ ""%string → AuthScreen.password f ≠ ""%string →
  ascii_only (AuthScreen.username f) = true →
  ascii_only (AuthScreen.password f) = true →
  ascii_names (localStorage w) →
  (∀ u, u ∈ mock_users (localStorage w) →
        toLowerCase (u_username u) = toLowerCase (AuthScreen.username f) →
        u_passwordHash u ≠ authService.encryptPassword (AuthScreen.password f)) →
  AuthScreen.handleAuth f randomUUID w
  = (Some (AuthScreen.Error "Identity verification failed."), w).
Proof.
  intros Hw Hreg Hu Hp _ _ _ Hwrong. unfold AuthScreen.handleAuth.
  rewrite !bool_decide_eq_false_2 by done. simpl. rewrite Hreg.
  unfold AuthScreen.login, db.getUserByUsername, mockDb.getUserByUsername.
  exec. rewrite Hw. simpl.
  destruct (find _ _) as [user|] eqn:Hfind; simpl; [|done].
  apply find_Some in Hfind as [Hin Hmatch]. apply bool_decide_eq_true in Hmatch.
  unfold authService.comparePassword.
  rewrite bool_decide_eq_false_2; [done|]. intros Heq. by apply (Hwrong user Hin Hmatch).
Qed.

Lemma failed_login_changes_nothing_witness :
  useMock local_world = true
  ∧ ascii_only (AuthScreen.username wrong_password) = true
  ∧ ascii_only (AuthScreen.password wrong_password) = true
  ∧ ascii_names (localStorage local_world)
  ∧ (∀ u, u ∈ mock_users (localStorage local_world) →
          toLowerCase (u_username u) = toLowerCase (AuthScreen.username wrong_password) →
          u_passwordHash u
          ≠ authService.encryptPassword (AuthScreen.password wrong_password))
  ∧ AuthScreen.handleAuth wrong_password "u-new" local_world
    = (Some (AuthScreen.Error "Identity verification failed."), local_world).
Proof.
  assert (∀ u, u ∈ mock_users (localStorage local_world) →
            toLowerCase (u_username u) = toLowerCase (AuthScreen.username wrong_password) →
            u_passwordHash u
            ≠ authService.encryptPassword (AuthScreen.password wrong_password)) as Hwrong.
  { intros u Hu. simpl in Hu. each_element Hu; intros Hname; discriminate. }
  split; [reflexivity|]. split; [reflexivity|]. split; [reflexivity|].
  split; [exact ascii_names_local_world|]. split; [exact Hwrong|].
  apply (failed_login_changes_nothing wrong_password "u-new" local_world);
    [reflexivity | reflexivity | discriminate | discriminate | reflexivity | reflexivity
    | exact ascii_names_local_world | exact Hwrong].
Defined.

(** ** The vault and the session *)

Lemma findIndex_vault (vault : list LocalVaultEntry) user :
  findIndex (λ v, bool_decide (v_username v = user)) vault = None
  ↔ user ∉ v_username <$> vault.
Proof.
  rewrite findIndex_None, list_elem_of_fmap. split.
  - intros H (v & -> & Hv). specialize (H v Hv). by apply bool_decide_eq_false in H.
  - intros H v Hv. apply bool_decide_eq_false. intros <-. apply H. by exists v.
Qed.

(** X24.  saveToVault keeps one vault entry per username: it overwrites the
    entry of that name in place or appends a new one; the entry found for the
    name afterwards carries the given hash and the current time; the users and
    the broadcast channel are not touched. *)
Theorem saveToVault_one_entry_per_name (user hash : string) (w : World) :
  ∃ w',
    AuthScreen.saveToVault user hash w = (Some (), w')
    ∧ find (λ v, bool_decide (v_username v = user)) (nexus_vault (localStorage w'))
      = Some {| v_username := user; v_passwordHash := hash; v_lastLogin := clock w |}
    ∧ v_username <$> nexus_vault (localStorage w')
      = (if bool_decide (user ∈ v_username <$> nexus_vault (localStorage w))
         then v_username <$> nexus_vault (localStorage w)
         else (v_username <$> nexus_vault (localStorage w)) ++ [user])
    ∧ (NoDup (v_username <$> nexus_vault (localStorage w)) →
       NoDup (v_username <$> nexus_vault (localStorage w')))
    ∧ posted w' = posted w
    ∧ mock_users (localStorage w') = mock_users (localStorage w).
Proof.
  unfold AuthScreen.saveToVault, vaultDb.getVault, vaultDb.saveVault. exec.
  set (entry := {| v_username := user; v_passwordHash := hash; v_lastLogin := clock w |}).
  destruct (findIndex _ _) as [idx|] eqn:Hidx; simpl.
  - eexists. split; [reflexivity|]. simpl.
    destruct (findIndex_Some _ _ _ Hidx) as (y & Hy & Hpy & _).
    apply bool_decide_eq_true in Hpy.
    assert (v_username <$> <[idx:=entry]> (nexus_vault (localStorage w))
            = v_username <$> nexus_vault (localStorage w)) as ->.
    { rewrite list_fmap_insert. simpl. rewrite <-Hpy. apply list_insert_id.
      by rewrite list_lookup_fmap, Hy. }
    split_and!; try done.
    + by apply find_insert_found; [|apply bool_decide_eq_true].
    + rewrite bool_decide_eq_true_2; [done|].
      apply list_elem_of_fmap. exists y. split; [done|]. by eapply list_elem_of_lookup_2.
  - eexists. split; [reflexivity|]. simpl. rewrite fmap_app. simpl.
    split_and!; try done.
    + by apply find_app_new; [|apply bool_decide_eq_true].
    + apply findIndex_vault in Hidx. by rewrite bool_decide_eq_false_2.
    + apply findIndex_vault in Hidx.
      intros Hnd. apply NoDup_app. split_and!; [done | | apply NoDup_singleton].
      intros id Hid ->%list_elem_of_singleton. done.
Qed.

(** X25.  In local mode and for ASCII names, loginFromVault signs in the user
    found for the name of the entry when the stored hash is the hash of the
    entry, leaving the vault as it is; when the user is missing or the hash
    differs (the password was changed since), it reports 'Vault token
    expired.' and changes nothing. *)
Theorem loginFromVault_checks_the_stored_hash (entry : LocalVaultEntry) (w : World) :
  useMock w = true →
  ascii_only (v_username entry) = true →
  ascii_names (localStorage w) →
  (∀ user,
     find (λ u, bool_decide (toLowerCase (u_username u) = toLowerCase (v_username entry)))
       (mock_users (localStorage w)) = Some user →
     u_passwordHash user = v_passwordHash entry →
     ∃ w', AuthScreen.loginFromVault entry w
           = (Some (AuthScreen.LoggedIn (AuthScreen.with_presence user (clock w))), w')
           ∧ nexus_vault (localStorage w') = nexus_vault (localStorage w))
  ∧ ((∀ user,
        find (λ u, bool_decide (toLowerCase (u_username u) = toLowerCase (v_username entry)))
          (mock_users (localStorage w)) = Some user →
        u_passwordHash user ≠ v_passwordHash entry) →
     AuthScreen.loginFromVault entry w = (Some (AuthScreen.Error "Vault token expired."), w)).
Proof.
  intros Hw _ _. unfold AuthScreen.loginFromVault, db.getUserByUsername,
    mockDb.getUserByUsername, db.updateUserStatus. exec. rewrite Hw. simpl. split.
  - intros user -> Hhash. simpl. rewrite bool_decide_eq_true_2 by done. rewrite Hw.
    destruct (updateUserStatus_returns (u_id user)
      {| p_id := None; p_username := None; p_passwordHash := None; p_bio := None;
         p_avatar := None; p_status := Some online; p_lastSeen := Some (clock w);
         p_typingTo := None |} w) as (w1 & -> & _ & Hv & _).
    by eexists.
  - intros Hstale. destruct (find _ _) as [user|]; simpl; [|done].
    by rewrite bool_decide_eq_false_2 by by apply Hstale.
Qed.

Lemma loginFromVault_checks_the_stored_hash_witness :
  useMock local_world = true
  ∧ ascii_only (v_username vault_entry) = true
  ∧ ascii_only (v_username stale_entry) = true
  ∧ ascii_names (localStorage local_world)
  ∧ (∃ w', AuthScreen.loginFromVault vault_entry local_world
           = (Some (AuthScreen.LoggedIn (AuthScreen.with_presence alice 1000)), w'))
  ∧ AuthScreen.loginFromVault stale_entry local_world
    = (Some (AuthScreen.Error "Vault token expired."), local_world).
Proof.
  split; [reflexivity|]. split; [reflexivity|]. split; [reflexivity|].
  split; [exact ascii_names_local_world|]. split.
  - destruct (proj1 (loginFromVault_checks_the_stored_hash vault_entry local_world eq_refl
                       eq_refl ascii_names_local_world)
                alice eq_refl eq_refl) as (w' & H1 & _).
    exists w'. exact H1.
  - apply (proj2 (loginFromVault_checks_the_stored_hash stale_entry local_world eq_refl
                    eq_refl ascii_names_local_world)).
    intros user Hfind. injection Hfind as <-. discriminate.
Defined.

Lemma initSession_resumes w id stored :
  useMock w = true →
  nexus_last_session (localStorage w) = Some id → id ≠ ""%string →
  find (λ u, bool_decide (u_id u = id)) (mock_users (localStorage w)) = Some stored →
  ∃ w', App.initSession w = (Some (Some (AuthScreen.with_presence stored (clock w))), w').
Proof.
  intros Hw Hid Hne Hstored.
  unfold App.initSession, vaultDb.getLastSessionId, db.getUser, mockDb.getUser,
    db.updateUserStatus. exec. rewrite Hid. simpl.
  rewrite bool_decide_eq_false_2 by done. rewrite Hw. simpl. rewrite Hstored. simpl.
  rewrite Hw.
  match goal with
  | |- context [mockDb.updateUserStatus ?i ?u ?w0] =>
      destruct (updateUserStatus_returns i u w0) as (w2 & -> & _)
  end.
  by eexists.
Qed.

Lemma initSession_without_session w :
  nexus_last_session (localStorage w) = None
  ∨ nexus_last_session (localStorage w) = Some ""%string →
  App.initSession w = (Some None, w).
Proof.
  unfold App.initSession, vaultDb.getLastSessionId. exec. by intros [-> | ->].
Qed.

Lemma handleLogout_clears currentUser w :
  useMock w = true →
  ∃ w', App.handleLogout currentUser w = (Some None, w')
        ∧ nexus_last_session (localStorage w') = None.
Proof.
  intros Hw. unfold App.handleLogout, vaultDb.setLastSessionId, db.updateUserStatus.
  destruct currentUser as [u|]; exec; [|by eexists].
  rewrite Hw.
  match goal with
  | |- context [mockDb.updateUserStatus ?i ?u ?w0] =>
      destruct (updateUserStatus_returns i u w0) as (w2 & -> & _)
  end.
  by eexists.
Qed.

(** X26.  In local mode, after handleLogin of a stored user, initSession
    resumes the stored record of that user, marked online (unless the id is
    the empty string, which is not kept as a session); after handleLogout,
    initSession finds no session and signs nobody in. *)
Theorem session_is_resumed_until_logout (user stored : User) (w : World) :
  useMock w = true →
  find (λ u, bool_decide (u_id u = u_id user)) (mock_users (localStorage w)) = Some stored →
  (∃ w1,
     App.handleLogin user w = (Some (Some user), w1)
     ∧ if bool_decide (u_id user = ""%string)
       then App.initSession w1 = (Some None, w1)
       else ∃ w2, App.initSession w1
                  = (Some (Some (AuthScreen.with_presence stored (clock w))), w2))
  ∧ (∃ w1 w2,
       App.handleLogin user w = (Some (Some user), w1)
       ∧ App.handleLogout (Some user) w1 = (Some None, w2)
       ∧ App.initSession w2 = (Some None, w2)).
Proof.
  intros Hw Hstored. split.
  - unfold App.handleLogin, vaultDb.setLastSessionId. exec.
    eexists. split; [reflexivity|].
    case_bool_decide as Hid.
    + apply initSession_without_session. by left.
    + match goal with
      | |- ∃ _, App.initSession ?w1 = _ => by apply (initSession_resumes w1 (u_id user))
      end.
  - unfold App.handleLogin, vaultDb.setLastSessionId. exec.
    match goal with
    | |- ∃ w1 _, (_, ?w0) = (_, w1) ∧ _ =>
        destruct (handleLogout_clears (Some user) w0 Hw) as (w2 & Hout & Hnone)
    end.
    eexists _, w2. split; [reflexivity|]. split; [exact Hout|].
    apply initSession_without_session. by left.
Qed.

Lemma session_is_resumed_until_logout_witness :
  useMock local_world = true
  ∧ find (λ u, bool_decide (u_id u = u_id alice)) (mock_users (localStorage local_world))
    = Some alice
  ∧ (∃ w1 w2,
       App.handleLogin alice local_world = (Some (Some alice), w1)
       ∧ App.initSession w1 = (Some (Some (AuthScreen.with_presence alice 1000)), w2))
  ∧ (∃ w1 w2,
       App.handleLogin alice local_world = (Some (Some alice), w1)
       ∧ App.handleLogout (Some alice) w1 = (Some None, w2)
       ∧ App.initSession w2 = (Some None, w2)).
Proof.
  split; [reflexivity|]. split; [reflexivity|].
  destruct (session_is_resumed_until_logout alice alice local_world eq_refl eq_refl)
    as [(w1 & H1 & H2) Hout].
  split; [|exact Hout].
  rewrite bool_decide_eq_false_2 in H2 by discriminate.
  destruct H2 as (w2 & H2). exists w1, w2. split; [exact H1 | exact H2].
Defined.

(** ** The forms of the other components *)

(** X27.  In local mode and for ASCII names, handleSendRequest either reports
    an error and changes nothing at all, or reports success; in that case the
    target is a stored user of that name (compared without the case of the
    letters) other than the current user, and exactly one pending request from
    the current user to the target, with the generated id and the current
    time, was appended; no friendship is created. *)
Theorem handleSendRequest_outcomes (currentUser : User) (requestId randomUUID : string)
    (w : World) :
  useMock w = true →
  ascii_only requestId = true →
  ascii_names (localStorage w) →
  ∃ notice w',
    FriendRequests.handleSendRequest currentUser requestId randomUUID w = (Some notice, w')
    ∧ match notice with
      | error _ => w' = w
      | success _ =>
          ∃ target,
            target ∈ mock_users (localStorage w)
            ∧ toLowerCase (u_username target) = toLowerCase requestId
            ∧ u_id target ≠ u_id currentUser
            ∧ mock_requests (localStorage w')
              = mock_requests (localStorage w)
                ++ [{| r_id := randomUUID; r_fromId := u_id currentUser;
                       r_toId := u_id target; r_status := pending;
                       r_timestamp := clock w |}]
            ∧ mock_friendships (localStorage w') = mock_friendships (localStorage w)
      end.
Proof.
  intros Hw _ _. unfold FriendRequests.handleSendRequest, db.getUserByUsername,
    mockDb.getUserByUsername, db.sendFriendRequest. exec. rewrite Hw. simpl.
  destruct (find _ _) as [target|] eqn:Hfind; simpl; [|by eexists _, _].
  apply find_Some in Hfind as [Hin Hmatch]. apply bool_decide_eq_true in Hmatch.
  case_bool_decide as Hself; simpl; [by eexists _, _|].
  rewrite Hw. rewrite sendFriendRequest_effect. simpl.
  eexists _, _. split; [reflexivity|]. exists target. by split_and!.
Qed.

Lemma handleSendRequest_outcomes_witness :
  useMock local_world = true
  ∧ ascii_only "ALICE" = true
  ∧ ascii_only "Bob" = true
  ∧ ascii_names (localStorage local_world)
  ∧ (∃ w', FriendRequests.handleSendRequest bob "ALICE" "r9" local_world
           = (Some (success "Request sent to alice."), w')
           ∧ mock_requests (localStorage w')
             = mock_requests (localStorage local_world)
               ++ [{| r_id := "r9"; r_fromId := "u-bob"; r_toId := "u-alice";
                      r_status := pending; r_timestamp := 1000 |}])
  ∧ (∃ notice, FriendRequests.handleSendRequest bob "Bob" "r9" local_world
               = (Some notice, local_world)).
Proof.
  split; [reflexivity|]. split; [reflexivity|]. split; [reflexivity|].
  split; [exact ascii_names_local_world|]. split.
  - destruct (handleSendRequest_outcomes bob "ALICE" "r9" local_world eq_refl eq_refl
                ascii_names_local_world)
      as (notice & w' & Hrun & Hcase).
    assert (notice = success "Request sent to alice.") as -> by (vm_compute in Hrun; congruence).
    destruct Hcase as (target & Hin & Hname & _ & Hreqs & _).
    exists w'. split; [exact Hrun|]. rewrite Hreqs.
    simpl in Hin. each_element Hin; [reflexivity | discriminate].
  - destruct (handleSendRequest_outcomes bob "Bob" "r9" local_world eq_refl eq_refl
                ascii_names_local_world)
      as (notice & w' & Hrun & Hcase).
    assert (notice = error "Cannot add self.") as -> by (vm_compute in Hrun; congruence).
    exists (error "Cannot add self."). rewrite Hrun. by rewrite Hcase.
Defined.

(** X28.  In local mode, changing the profile name to one that differs from
    the name of a stored user at most in the case of the letters A to Z is
    refused with 'Username already claimed.' and nothing is written; as the
    holder may be the current user, this includes changing only the case of
    such letters in one's own name. *)
Theorem handleUpdate_refuses_a_taken_name (currentUser : User) (f : ProfilePage.Form)
    (w : World) (holder : User) :
  useMock w = true →
  ProfilePage.username f ≠ u_username currentUser →
  holder ∈ mock_users (localStorage w) →
  toLowerCase (u_username holder) = toLowerCase (ProfilePage.username f) →
  ProfilePage.handleUpdate currentUser f w
  = (Some (error "Username already claimed.", None), w).
Proof.
  intros Hw Hnew Hin Hmatch. unfold ProfilePage.handleUpdate, db.getUserByUsername,
    mockDb.getUserByUsername. exec.
  rewrite bool_decide_eq_true_2 by done. rewrite Hw. simpl.
  destruct (find _ _) as [u|] eqn:Hfind; simpl; [done|].
  eapply find_None in Hfind; [|exact Hin]. by apply bool_decide_eq_false in Hfind.
Qed.

Lemma handleUpdate_refuses_a_taken_name_witness :
  useMock local_world = true
  ∧ ProfilePage.username rename_to_Alice ≠ u_username bob
  ∧ alice ∈ mock_users (localStorage local_world)
  ∧ toLowerCase (u_username alice) = toLowerCase (ProfilePage.username rename_to_Alice)
  ∧ ProfilePage.handleUpdate bob rename_to_Alice local_world
    = (Some (error "Username already claimed.", None), local_world).
Proof.
  assert (alice ∈ mock_users (localStorage local_world)) as Hin by (simpl; left).
  split; [reflexivity|]. split; [discriminate|]. split; [exact Hin|].
  split; [reflexivity|].
  apply (handleUpdate_refuses_a_taken_name bob rename_to_Alice local_world alice);
    [reflexivity | discriminate | exact Hin | reflexivity].
Defined.

Lemma status_strings_differ :
  forallb (λ k, negb (String.eqb ("Last seen " +:+ pretty (Z.of_nat k) +:+ "m ago")
                                 "Last seen just now")
                && negb (String.eqb ("Last seen " +:+ pretty (Z.of_nat k) +:+ "h ago")
                                    "Last seen just now"))
    (seq 0 60) = true.
Proof. vm_compute. reflexivity. Qed.

(** X29.  With a clock that does not go back between its two readings,
    getStatusString returns 'Online' for a user seen less than a minute ago,
    and otherwise 'Last seen Nm ago' with 1 <= N < 60, 'Last seen Nh ago' with
    1 <= N < 24, or 'Last seen long ago'; its branch 'Last seen just now' is
    never taken. *)
Theorem getStatusString_cases (now later : Z) (user : User) :
  now ≤ later →
  let s := ChatInterface.getStatusString now later user in
  let mins := (later - u_lastSeen user) / 60000 in
  ((ChatInterface.isUserOnline now user = true ∧ s = "Online"%string)
   ∨ (ChatInterface.isUserOnline now user = false ∧ 1 ≤ mins < 60
      ∧ s = "Last seen " +:+ pretty mins +:+ "m ago")
   ∨ (ChatInterface.isUserOnline now user = false ∧ 60 ≤ mins ∧ 1 ≤ mins / 60 < 24
      ∧ s = "Last seen " +:+ pretty (mins / 60) +:+ "h ago")
   ∨ (ChatInterface.isUserOnline now user = false ∧ 1440 ≤ mins
      ∧ s = "Last seen long ago"%string))
  ∧ String.eqb s "Last seen just now" = false.
Proof.
  intros Hle s mins. unfold s, ChatInterface.getStatusString, ChatInterface.isUserOnline.
  fold mins.
  assert (∀ k, 0 ≤ k < 60 →
    String.eqb ("Last seen " +:+ pretty k +:+ "m ago") "Last seen just now" = false
    ∧ String.eqb ("Last seen " +:+ pretty k +:+ "h ago") "Last seen just now" = false)
    as Hdiffer.
  { intros k Hk. pose proof status_strings_differ as Hall. rewrite forallb_forall in Hall.
    specialize (Hall (Z.to_nat k)). rewrite Z2Nat.id in Hall by lia.
    assert (In (Z.to_nat k) (seq 0 60)) as Hin by (apply in_seq; lia).
    apply Hall, andb_true_iff in Hin as [H1 H2].
    by apply negb_true_iff in H1, H2. }
  destruct (now - u_lastSeen user <? 60000) eqn:Honline; [split; [by left | done]|].
  apply Z.ltb_ge in Honline.
  assert (1 ≤ mins) as Hmins.
  { unfold mins. apply Z.div_le_lower_bound; lia. }
  rewrite (proj2 (Z.ltb_ge mins 1)) by lia.
  destruct (mins <? 60) eqn:H60.
  { apply Z.ltb_lt in H60. split; [right; left; by split_and! | apply Hdiffer; lia]. }
  apply Z.ltb_ge in H60.
  assert (1 ≤ mins / 60) by (apply Z.div_le_lower_bound; lia).
  destruct (mins / 60 <? 24) eqn:H24.
  { apply Z.ltb_lt in H24. split; [right; right; left; by split_and! | apply Hdiffer; lia]. }
  apply Z.ltb_ge in H24. split; [|done]. right. right. right. split_and!; [done | | done].
  assert (24 * 60 ≤ mins); [|lia].
  pose proof (Z.div_mod mins 60 ltac:(lia)). pose proof (Z.mod_pos_bound mins 60 ltac:(lia)).
  lia.
Qed.

Lemma getStatusString_cases_witness :
  100000 ≤ 100001
  ∧ String.eqb (ChatInterface.getStatusString 100000 100001 alice) "Last seen just now"
    = false.
Proof.
  split; [lia|].
  exact (proj2 (getStatusString_cases 100000 100001 alice ltac:(lia))).
Defined.

(** X30.  In local mode subscribeToFriends, subscribeToMessages and
    subscribeToIncomingRequests register one channel handler, return its
    remover and, before they return, invoke the callback exactly once with the
    current state, without writing anything.  (subscribeToUser hands its
    first value over later, through a promise.) *)
Theorem subscribe_delivers_the_current_state (sub : Subscription) (cb : nat) (w : World) :
  useMock w = true →
  (∀ userId, sub ≠ ToUser userId) →
  ∃ p w',
    view sub (localStorage w) = Some p
    ∧ db.subscribe sub cb w = (Some (removeListener (next_id w)), w')
    ∧ handlers w' = handlers w ++ [{| l_id := next_id w; l_sub := sub; l_callback := cb |}]
    ∧ localStorage w' = localStorage w
    ∧ posted w' = posted w
    ∧ calls w' = calls w ++ [(cb, p)].
Proof.
  intros Hw Hsub. unfold db.subscribe, db.if_useMock. rewrite Hw.
  unfold mockDb.subscribe, nexusChannel.addEventListener. exec. rewrite refresh_view. simpl.
  destruct sub as [userId| | |]; [by destruct (Hsub userId) | ..]; simpl;
    eexists _, _; split_and!; reflexivity.
Qed.

Lemma subscribe_delivers_the_current_state_witness :
  useMock local_world = true
  ∧ (∀ userId, ToMessages "u-alice" "u-bob" ≠ ToUser userId)
  ∧ ∃ w',
      db.subscribe (ToMessages "u-alice" "u-bob") 5 local_world
      = (Some (removeListener 0), w')
      ∧ calls w'
        = calls local_world
          ++ [(5%nat, Conversation [first_message; second_message; third_message])].
Proof.
  split; [reflexivity|]. split; [discriminate|].
  destruct (subscribe_delivers_the_current_state (ToMessages "u-alice" "u-bob") 5 local_world
              eq_refl ltac:(discriminate)) as (p & w' & Hp & H1 & _ & _ & _ & H5).
  exists w'. split; [exact H1|]. rewrite H5. f_equal. f_equal. f_equal.
  vm_compute in Hp. by injection Hp as <-.
Defined.
